(** * Formatic: response grading, filtering and analytics

    A shallow embedding of the grading core of
    [src/components/ModeratorDashboard.tsx]:
    [normalizeToNumberOrString], [checkAnswer], [calculateScore],
    [filteredResponses], [getAnalytics] and the [sortedAnswers] view of the
    per-question answer-frequency table; of the timer and the answers of
    [src/components/ViewerDashboard.tsx]; and of the history of edits and
    the question list of the form builder.

    Conventions of the embedding.
    - JavaScript numbers are IEEE-754 binary64 values: Rocq's primitive
      [float].  Conversions between numbers and strings ([Number(s)],
      [String(n)], [toFixed], [Math.round], [parseInt]) follow ECMAScript
      and are computed exactly over [Z].
    - JavaScript strings are [string]s: sequences of code units below 256,
      the first 256 code points of Unicode (Basic Latin and Latin-1
      Supplement).  On them [trim], the regular expression class [\s] and
      [toLowerCase] are ECMAScript's: the white space is TAB, LF, VT, FF,
      CR, SP and U+00A0, and [toLowerCase] maps [A-Z] and the capital
      letters U+00C0 to U+00DE to the letter 32 above.  Text with a code
      unit from 256 on is outside the embedding.
    - Counters that only ever hold element counts ([score], [total],
      [passingCount], the per-answer counts) are [nat]: JavaScript arrays
      hold fewer than 2^32 elements, and binary64 is exact on integers
      below 2^53.  They are injected into [float] where the source divides
      or rounds them.
    - A plain object used as a table ([numberWords], [counts], the answers
      of a response) is the list of its own properties in creation order;
      a read that finds no own property continues on [Object.prototype].
    - [Date] belongs to the host: parsing a date and moving it to the end
      of its local day are parameters of [filteredResponses];
      [setHoursEndOfDay] is ECMAScript's definition of the latter over the
      offset of the host's time zone. *)

From Stdlib Require Import ZArith NArith List String Ascii Bool Arith Lia.
From Stdlib Require Import Permutation Sorted.
From Stdlib Require Import Numbers.DecimalString.
From Stdlib Require Numbers.DecimalPos Numbers.DecimalN.
From Stdlib Require Import Floats.PrimFloat Floats.FloatOps Floats.SpecFloat.
From Stdlib Require Import Floats.FloatAxioms.
Import ListNotations.

Set Warnings "-register-all".

Local Open Scope string_scope.
Local Open Scope list_scope.

(* ================================================================== *)
(** ** Strings *)

Module JsString.

(** The members of WhiteSpace and LineTerminator among the code units
    below 256: TAB, LF, VT, FF, CR, SP and the no-break space U+00A0.
    [String.prototype.trim], [\s] and StrWhiteSpaceChar agree on this set. *)
Definition isWhiteSpace (c : ascii) : bool :=
  let n := nat_of_ascii c in
  ((9 <=? n) && (n <=? 13) || (n =? 32) || (n =? 160))%nat.

(** The code units below 256 that [toLowerCase] changes: [A-Z], and the
    letters U+00C0 to U+00DE but for the multiplication sign U+00D7.  Each
    maps to the code unit 32 above it. *)
Definition isUpper (c : ascii) : bool :=
  let n := nat_of_ascii c in
  ((65 <=? n) && (n <=? 90)
   || (192 <=? n) && (n <=? 222) && negb (n =? 215))%nat.

Definition isDigit (c : ascii) : bool :=
  let n := nat_of_ascii c in ((48 <=? n) && (n <=? 57))%nat.

Definition lowerChar (c : ascii) : ascii :=
  if isUpper c then ascii_of_nat (nat_of_ascii c + 32) else c.

(** [s.toLowerCase()] *)
Fixpoint toLowerCase (s : string) : string :=
  match s with
  | EmptyString => EmptyString
  | String c s' => String (lowerChar c) (toLowerCase s')
  end.

Fixpoint trimStart (s : string) : string :=
  match s with
  | EmptyString => EmptyString
  | String c s' => if isWhiteSpace c then trimStart s' else s
  end.

Fixpoint trimEnd (s : string) : string :=
  match s with
  | EmptyString => EmptyString
  | String c s' =>
      match trimEnd s' with
      | EmptyString => if isWhiteSpace c then EmptyString else String c EmptyString
      | t => String c t
      end
  end.

(** [s.trim()] *)
Definition trim (s : string) : string := trimEnd (trimStart s).

(** The separator class of the regular expression [/[\s-]+/]. *)
Definition isSeparator (c : ascii) : bool :=
  isWhiteSpace c || Ascii.eqb c "-".

Definition startsWithSeparator (s : string) : bool :=
  match s with
  | String c _ => isSeparator c
  | EmptyString => false
  end.

(** [s.split(/[\s-]+/)]: the pieces between maximal runs of separators.
    A leading or trailing run leaves an empty piece at that end, and the
    empty string splits into one empty piece.  The head of the result is
    the piece that starts at the head of [s]; a split always has a piece,
    so the arm for an empty split of the rest is never taken. *)
Fixpoint split (s : string) : list string :=
  match s with
  | EmptyString => [EmptyString]
  | String c s' =>
      match split s' with
      | t :: ts =>
          if isSeparator c
          then if startsWithSeparator s' then t :: ts else EmptyString :: t :: ts
          else String c t :: ts
      | [] => [String c EmptyString]
      end
  end.

(** [s.includes(k)] *)
Fixpoint includes (s k : string) : bool :=
  prefix k s ||
  match s with
  | EmptyString => false
  | String _ s' => includes s' k
  end.

(** [l.join(sep)] on strings *)
Fixpoint join (sep : string) (l : list string) : string :=
  match l with
  | [] => EmptyString
  | [x] => x
  | x :: rest => x ++ sep ++ join sep rest
  end.

Fixpoint repeat0 (n : nat) : string :=
  match n with
  | O => EmptyString
  | S n' => String "0" (repeat0 n')
  end.

(** Decimal digits of a natural number, without leading zeros. *)
Definition ofN (n : N) : string := NilZero.string_of_uint (N.to_uint n).

Definition digitValue (c : ascii) : option Z :=
  let n := nat_of_ascii c in
  if ((48 <=? n) && (n <=? 57))%nat then Some (Z.of_nat (n - 48))
  else if ((97 <=? n) && (n <=? 102))%nat then Some (Z.of_nat (n - 87))
  else if ((65 <=? n) && (n <=? 70))%nat then Some (Z.of_nat (n - 55))
  else None.

(** The longest prefix of [s] made of digits of radix [r] (at most 16),
    read as a number on top of [acc], with the number of digits read and
    the rest of the string. *)
Fixpoint readDigits (r : Z) (s : string) (acc : Z) (count : nat)
  : Z * nat * string :=
  match s with
  | EmptyString => (acc, count, s)
  | String c s' =>
      match digitValue c with
      | Some d =>
          if (d <? r)%Z then readDigits r s' (acc * r + d)%Z (S count)
          else (acc, count, s)
      | None => (acc, count, s)
      end
  end.

End JsString.

(* ================================================================== *)
(** ** Numbers *)

Module JsNumber.
Import JsString.
Local Open Scope Z_scope.

(** [isNaN(x)] on a number *)
Definition isNaN (x : float) : bool := PrimFloat.is_nan x.

(** The Number value of the rational [n/d] for [0 < d]: the nearest
    binary64 value, ties to even, infinity on overflow.  The quotient is
    taken with at least 59 significant bits and the remainder decides the
    rounding direction. *)
Definition roundRatio (n d : Z) : spec_float :=
  if n <=? 0 then S754_zero false
  else
    let s := Z.max 0 (60 + Z.log2 d - Z.log2 n) in
    let num := n * 2 ^ s in
    let q := num / d in
    let r := num mod d in
    let loc := if r =? 0 then loc_Exact else loc_Inexact (2 * r ?= d) in
    binary_round_aux prec emax false q (- s) loc.

Definition ofRatio (n d : Z) : float := SF2Prim (roundRatio n d).

Definition ofZ (z : Z) : float :=
  if z <? 0 then PrimFloat.opp (ofRatio (- z) 1) else ofRatio z 1.

Definition ofNat (n : nat) : float := ofZ (Z.of_nat n).

(** The Number value of [m * 10^e] for [0 <= m]. *)
Definition ofDecimal (m e : Z) : float :=
  if 0 <=? e then ofRatio (m * 10 ^ e) 1 else ofRatio m (10 ^ (- e)).

(** *** [Number(s)]: StringToNumber *)

Definition isOneOf (c a b : ascii) : bool := Ascii.eqb c a || Ascii.eqb c b.

Definition readRadix (r : Z) (s : string) : option float :=
  match readDigits r s 0 0 with
  | (v, S _, EmptyString) => Some (ofZ v)
  | _ => None
  end.

Definition NonDecimalIntegerLiteral (s : string) : option float :=
  match s with
  | String "0" (String c rest) =>
      if isOneOf c "x" "X" then readRadix 16 rest
      else if isOneOf c "o" "O" then readRadix 8 rest
      else if isOneOf c "b" "B" then readRadix 2 rest
      else None
  | _ => None
  end.

(** The exponent after the mantissa: absent, or [e]/[E], an optional
    sign and at least one digit, up to the end of the string. *)
Definition ExponentPart (s : string) : option Z :=
  match s with
  | EmptyString => Some 0
  | String c rest =>
      if isOneOf c "e" "E" then
        let '(neg, ds) :=
          match rest with
          | String "+" r => (false, r)
          | String "-" r => (true, r)
          | _ => (false, rest)
          end in
        match readDigits 10 ds 0 0 with
        | (v, S _, EmptyString) => Some (if neg then - v else v)
        | _ => None
        end
      else None
  end.

Definition StrUnsignedDecimalLiteral (s : string) : option float :=
  if String.eqb s "Infinity" then Some infinity
  else
    let '(ip, ni, r1) := readDigits 10 s 0 0 in
    let '(m, nf, r2) :=
      match r1 with
      | String "." r => readDigits 10 r ip 0
      | _ => (ip, O, r1)
      end in
    if (ni + nf =? 0)%nat then None
    else
      match ExponentPart r2 with
      | Some e => Some (ofDecimal m (e - Z.of_nat nf))
      | None => None
      end.

Definition StrDecimalLiteral (s : string) : option float :=
  match s with
  | String "+" r => StrUnsignedDecimalLiteral r
  | String "-" r => option_map PrimFloat.opp (StrUnsignedDecimalLiteral r)
  | _ => StrUnsignedDecimalLiteral s
  end.

(** [Number(s)] for a string [s] *)
Definition StringToNumber (s : string) : float :=
  let t := trim s in
  if String.eqb t "" then zero
  else
    match NonDecimalIntegerLiteral t with
    | Some x => x
    | None =>
        match StrDecimalLiteral t with
        | Some x => x
        | None => nan
        end
    end.

(** *** [parseInt(s)] with no radix argument.  [None] stands for NaN;
    the integer is the exact mathematical value of the digits read, and a
    comparison of a score with it is exact, scores being below 2^32. *)

(** The digits after the sign: radix 16 after [0x] or [0X], radix 10
    otherwise, and NaN when no digit can be read. *)
Definition readInteger (t : string) : option Z :=
  let '(radix, digits) :=
    match t with
    | String "0" (String c r) => if isOneOf c "x" "X" then (16, r) else (10, t)
    | _ => (10, t)
    end in
  match readDigits radix digits 0 0 with
  | (v, S _, _) => Some v
  | _ => None
  end.

Definition parseInt (s : string) : option Z :=
  match trimStart s with
  | String "-" r => option_map Z.opp (readInteger r)
  | String "+" r => readInteger r
  | t => readInteger t
  end.

(** *** [Math.round(x)]: the closest integer, ties toward +infinity. *)
Definition Math_round (x : float) : float :=
  match Prim2SF x with
  | S754_finite sg m e =>
      if 0 <=? e then x
      else
        let d := 2 ^ (- e) in
        let q := Zpos m / d in
        let r := Zpos m mod d in
        if sg then
          let n := if d <? 2 * r then q + 1 else q in
          if n =? 0 then neg_zero else PrimFloat.opp (ofZ n)
        else ofZ (if d <=? 2 * r then q + 1 else q)
  | _ => x
  end.

(** *** [Math.floor(x)]: the closest integer that is not above. *)
Definition Math_floor (x : float) : float :=
  match Prim2SF x with
  | S754_finite sg m e =>
      if 0 <=? e then x
      else
        let d := 2 ^ (- e) in
        let q := Zpos m / d in
        let r := Zpos m mod d in
        if sg then PrimFloat.opp (ofZ (if r =? 0 then q else q + 1))
        else ofZ q
  | _ => x
  end.

(** *** [n % d]: Number::remainder.  For finite operands, [d] not zero,
    it is [n - d * q] for the integer [q] toward zero from [n / d], with
    the sign of [n]; the result is exact. *)
Definition remainder (n d : float) : float :=
  match Prim2SF n, Prim2SF d with
  | S754_nan, _ | _, S754_nan => nan
  | S754_infinity _, _ => nan
  | _, S754_infinity _ => n
  | _, S754_zero _ => nan
  | S754_zero _, _ => n
  | S754_finite sn mn en, S754_finite _ md ed =>
      let ez := Z.min en ed in
      let a := Zpos mn * 2 ^ (en - ez) in
      let b := Zpos md * 2 ^ (ed - ez) in
      let r := a mod b in
      let magnitude :=
        if 0 <=? ez then ofRatio (r * 2 ^ ez) 1 else ofRatio r (2 ^ (- ez)) in
      if sn then PrimFloat.opp magnitude else magnitude
  end.

(** *** [String(x)] for a number: Number::toString, radix 10 *)

(** The number of decimal digits of [z], for [1 <= z]. *)
Definition ndigits (z : Z) : Z := Z.of_nat (String.length (ofN (Z.to_N z))).

(** The [n] with [10^(n-1) <= a/b < 10^n], for positive [a] and [b]. *)
Definition decimalExponent (a b : Z) : Z :=
  if b <=? a then ndigits (a / b)
  else 1 - ndigits ((b + a - 1) / a - 1).

(** Powers with an integer exponent of either sign, as a fraction. *)
Definition powFrac (base z : Z) : Z * Z :=
  if 0 <=? z then (base ^ z, 1) else (1, base ^ (- z)).

(** The binary64 value [x = m * 2^e] is the quarter-ulp multiple
    [4m * u] for [u = 2^(e-2)]; the reals that round to [x] lie between
    [(4m - below) * u] and [(4m + 2) * u], where the gap below is halved
    at a power of two, and the ends belong to the interval when [m] is
    even.  For the decimal [s * 10^p], [reading m e p s] is its position
    [s * 10^p / u] as a fraction over [scale m e p]. *)
Definition scale (e p : Z) : Z := snd (powFrac 10 p) * fst (powFrac 2 (e - 2)).
Definition unit (e p : Z) : Z := fst (powFrac 10 p) * snd (powFrac 2 (e - 2)).

Definition roundsTo (m : positive) (e p s : Z) : bool :=
  let below := if (Zpos m =? 2 ^ 52) && (-1074 <? e) then 1 else 2 in
  let lo := (4 * Zpos m - below) * scale e p in
  let hi := (4 * Zpos m + 2) * scale e p in
  let c := s * unit e p in
  if Z.even (Zpos m) then (lo <=? c) && (c <=? hi) else (lo <? c) && (c <? hi).

(** The decimal with [k] significant digits that rounds to [m * 2^e] and
    is closest to it (the even one of two equally close), if any, as
    [(s, p)] for the value [s * 10^p]. *)
Definition candidate (m : positive) (e n k : Z) : option (Z * Z) :=
  let p := n - k in
  let x := 4 * Zpos m * scale e p in
  let down := x / unit e p in
  let up := down + 1 in
  match roundsTo m e p down, roundsTo m e p up with
  | true, true =>
      let dDown := x - down * unit e p in
      let dUp := up * unit e p - x in
      if dDown <? dUp then Some (down, p)
      else if dUp <? dDown then Some (up, p)
      else Some (if Z.even down then down else up, p)
  | true, false => Some (down, p)
  | false, true => Some (up, p)
  | false, false => None
  end.

(** The shortest such decimal: the least number of digits from [k] on,
    trying [fuel] lengths.  Seventeen digits always suffice. *)
Fixpoint shortest (fuel : nat) (m : positive) (e n k : Z) : Z * Z :=
  match fuel with
  | O => (4 * Zpos m * scale e (n - k) / unit e (n - k), n - k)
  | S fuel' =>
      match candidate m e n k with
      | Some sp => sp
      | None => shortest fuel' m e n (k + 1)
      end
  end.

Fixpoint dropTrailingZeros (s : string) : string :=
  match s with
  | EmptyString => EmptyString
  | String c s' =>
      match dropTrailingZeros s' with
      | EmptyString => if Ascii.eqb c "0" then EmptyString else String c EmptyString
      | t => String c t
      end
  end.

(** The digits [ds] (no trailing zero) of a positive number whose value
    is [0.ds * 10^n], laid out as Number::toString does. *)
Definition layout (ds : string) (n : Z) : string :=
  let k := Z.of_nat (String.length ds) in
  if (k <=? n) && (n <=? 21) then (ds ++ repeat0 (Z.to_nat (n - k)))%string
  else if (0 <? n) && (n <=? 21) then
    (substring 0 (Z.to_nat n) ds ++ "." ++
     substring (Z.to_nat n) (Z.to_nat (k - n)) ds)%string
  else if (-6 <? n) && (n <=? 0) then ("0." ++ repeat0 (Z.to_nat (- n)) ++ ds)%string
  else
    let ex := n - 1 in
    let mark := if 0 <=? ex then "e+" else "e-" in
    let tail := (mark ++ ofN (Z.to_N (Z.abs ex)))%string in
    match ds with
    | String d EmptyString => String d tail
    | String d rest => String d ("." ++ rest ++ tail)%string
    | EmptyString => tail
    end.

Definition Number_toString (x : float) : string :=
  match Prim2SF x with
  | S754_nan => "NaN"
  | S754_zero _ => "0"
  | S754_infinity sg => if sg then "-Infinity" else "Infinity"
  | S754_finite sg m e =>
      let a := Zpos m * fst (powFrac 2 e) in
      let b := snd (powFrac 2 e) in
      let n := decimalExponent a b in
      let '(s, p) := shortest 17 m e n 1 in
      let ds := ofN (Z.to_N s) in
      ((if sg then "-" else "") ++
       layout (dropTrailingZeros ds) (p + Z.of_nat (String.length ds)))%string
  end.

(** *** [x.toFixed(f)] *)
Definition toFixed (x : float) (f : nat) : string :=
  match Prim2SF x with
  | S754_finite sg m e =>
      let a := Zpos m * fst (powFrac 2 e) in
      let b := snd (powFrac 2 e) in
      if 10 ^ 21 * b <=? a then Number_toString x
      else
        let n := (2 * a * 10 ^ Z.of_nat f + b) / (2 * b) in
        let ds := ofN (Z.to_N n) in
        let padded := (repeat0 (S f - String.length ds)%nat ++ ds)%string in
        let k := String.length padded in
        ((if sg then "-" else "") ++
         match f with
         | O => padded
         | _ => substring 0 (k - f)%nat padded ++ "." ++
                substring (k - f)%nat f padded
         end)%string
  | S754_zero _ =>
      match f with
      | O => "0"
      | _ => ("0." ++ repeat0 f)%string
      end
  | _ => Number_toString x
  end.

End JsNumber.

(* ================================================================== *)
(** ** Values and objects *)

Module JsValue.
Import JsString JsNumber.

(** What a property read finds on [Object.prototype] when the object has
    no own property of that name: one of its built-in functions, or, for
    [__proto__], the prototype object itself. *)
Inductive Inherited : Type :=
| NativeFunction (name : string)
| ObjectPrototype.

(** The values an answer can hold: the JSON values other than objects,
    [undefined] for an absent entry, and the built-ins a property read can
    inherit. *)
Inductive JsVal : Type :=
| VUndefined
| VNull
| VBoolean (b : bool)
| VNumber (n : float)
| VString (s : string)
| VArray (elems : list JsVal)
| VBuiltin (i : Inherited).

(** The primitive a [string | number] variable holds. *)
Inductive NormalizedValue : Type :=
| Num (n : float)
| Str (s : string).

(** The text of a built-in.  The source text of a native function is
    implementation-defined; this is the one-line form V8 prints. *)
Definition inheritedToString (i : Inherited) : string :=
  match i with
  | NativeFunction name => "function " ++ name ++ "() { [native code] }"
  | ObjectPrototype => "[object Object]"
  end.

Definition objectPrototypeFunctions : list string :=
  [ "hasOwnProperty"; "isPrototypeOf"; "propertyIsEnumerable";
    "toLocaleString"; "toString"; "valueOf";
    "__defineGetter__"; "__defineSetter__";
    "__lookupGetter__"; "__lookupSetter__" ].

Definition objectPrototypeMember (key : string) : option Inherited :=
  if String.eqb key "constructor" then Some (NativeFunction "Object")
  else if String.eqb key "__proto__" then Some ObjectPrototype
  else if existsb (String.eqb key) objectPrototypeFunctions
       then Some (NativeFunction key)
  else None.

(** [!!v] *)
Definition ToBoolean (v : JsVal) : bool :=
  match v with
  | VUndefined | VNull => false
  | VBoolean b => b
  | VNumber n => negb (PrimFloat.eqb n zero || isNaN n)
  | VString s => negb (String.eqb s "")
  | VArray _ | VBuiltin _ => true
  end.

(** [String(v)]; an array prints its elements joined by commas, with
    [null] and [undefined] elements printed empty. *)
Fixpoint ToString (v : JsVal) : string :=
  match v with
  | VUndefined => "undefined"
  | VNull => "null"
  | VBoolean b => if b then "true" else "false"
  | VNumber n => Number_toString n
  | VString s => s
  | VArray elems =>
      join ","
        (map (fun x => match x with
                       | VUndefined | VNull => ""
                       | _ => ToString x
                       end) elems)
  | VBuiltin i => inheritedToString i
  end.

(** [arr.join(sep)] *)
Definition arrayJoin (sep : string) (elems : list JsVal) : string :=
  join sep (map (fun x => match x with
                          | VUndefined | VNull => ""
                          | _ => ToString x
                          end) elems).

(** [v === s] for a string [s] *)
Definition strictEqualsString (v : JsVal) (s : string) : bool :=
  match v with
  | VString t => String.eqb t s
  | _ => false
  end.

(** [arr.includes(s)] for a string [s] *)
Definition arrayIncludes (elems : list JsVal) (s : string) : bool :=
  existsb (fun v => strictEqualsString v s) elems.

(** Operators on [string | number] operands. *)
Definition toStr (a : NormalizedValue) : string :=
  match a with
  | Num n => Number_toString n
  | Str s => s
  end.

Definition toNum (a : NormalizedValue) : float :=
  match a with
  | Num n => n
  | Str s => StringToNumber s
  end.

(** [a === b]: same type and equal; on numbers NaN differs from itself
    and the two zeros are equal. *)
Definition strictEquals (a b : NormalizedValue) : bool :=
  match a, b with
  | Num x, Num y => PrimFloat.eqb x y
  | Str s, Str t => String.eqb s t
  | _, _ => false
  end.

(** [a + b]: a sum of two numbers, a concatenation otherwise. *)
Definition jsAdd (a b : NormalizedValue) : NormalizedValue :=
  match a, b with
  | Num x, Num y => Num (PrimFloat.add x y)
  | _, _ => Str (toStr a ++ toStr b)
  end.

(** [a * b] *)
Definition jsMul (a b : NormalizedValue) : NormalizedValue :=
  Num (PrimFloat.mul (toNum a) (toNum b)).

(** [a >= b] with a number on one side at least *)
Definition jsGe (a b : NormalizedValue) : bool :=
  PrimFloat.leb (toNum b) (toNum a).

(** Own properties of an object literal or of a JSON object, in the order
    they were created. *)
Definition OwnProperties (A : Type) : Type := list (string * A).

Fixpoint ownProperty {A : Type} (o : OwnProperties A) (key : string) : option A :=
  match o with
  | [] => None
  | (k, v) :: rest => if String.eqb k key then Some v else ownProperty rest key
  end.

(** The result of the read [o[key]] on an ordinary object. *)
Inductive Lookup (A : Type) : Type :=
| Own (a : A)
| FromPrototype (i : Inherited)
| Missing.
Arguments Own {A} a.
Arguments FromPrototype {A} i.
Arguments Missing {A}.

Definition getProperty {A : Type} (o : OwnProperties A) (key : string) : Lookup A :=
  match ownProperty o key with
  | Some v => Own v
  | None =>
      match objectPrototypeMember key with
      | Some i => FromPrototype i
      | None => Missing
      end
  end.

(** [o[key]] on an object of answers. *)
Definition getValue (o : OwnProperties JsVal) (key : string) : JsVal :=
  match getProperty o key with
  | Own v => v
  | FromPrototype i => VBuiltin i
  | Missing => VUndefined
  end.

End JsValue.

(* ================================================================== *)
(** ** The grading core of [ModeratorDashboard.tsx] *)

Import JsString JsNumber JsValue.

(** *** Data model ([Question], [Form], [Response] of [utils/mockStore]) *)

Record Question : Type := {
  id : string;
  text : string;
  type : string;
  options : list string;
  correctAnswer : option string
}.

Record Form : Type := {
  code : string;
  questions : list Question
}.

Record Response : Type := {
  answers : OwnProperties JsVal;
  submitted_at : option string
}.

(** The [filters] state: every field is the text of an input element, and
    the empty text is the unset filter. *)
Record Filters : Type := {
  dateFrom : string;
  dateTo : string;
  minScore : string;
  maxScore : string;
  questionId : string;
  answerKeyword : string
}.

(** A string in a condition: truthy when it is not empty. *)
Definition truthy (s : string) : bool := negb (String.eqb s "").

(** [!q.correctAnswer] is false: the answer is present and not empty. *)
Definition hasCorrectAnswer (q : Question) : bool :=
  match correctAnswer q with
  | Some s => truthy s
  | None => false
  end.

(** *** normalizeToNumberOrString *)

Definition numberWords : OwnProperties float :=
  [ ("zero", 0); ("one", 1); ("two", 2); ("three", 3); ("four", 4);
    ("five", 5); ("six", 6); ("seven", 7); ("eight", 8); ("nine", 9);
    ("ten", 10); ("eleven", 11); ("twelve", 12); ("thirteen", 13);
    ("fourteen", 14); ("fifteen", 15); ("sixteen", 16); ("seventeen", 17);
    ("eighteen", 18); ("nineteen", 19); ("twenty", 20); ("thirty", 30);
    ("forty", 40); ("fifty", 50); ("sixty", 60); ("seventy", 70);
    ("eighty", 80); ("ninety", 90); ("hundred", 100); ("thousand", 1000)
  ]%float.

(** [numberWords[part]] as the operand the loop computes with: [None] is
    [undefined]; an inherited built-in enters arithmetic as its text. *)
Definition numberWord (part : string) : option NormalizedValue :=
  match getProperty numberWords part with
  | Own n => Some (Num n)
  | FromPrototype i => Some (Str (inheritedToString i))
  | Missing => None
  end.

(** The [for (const part of parts)] loop, from the state
    [(total, subTotal)]; the boolean is [isNumberWord] at the exit, false
    when the loop left through [break]. *)
Fixpoint parseParts (parts : list string) (total subTotal : NormalizedValue)
  : NormalizedValue * NormalizedValue * bool :=
  match parts with
  | [] => (total, subTotal, true)
  | part :: rest =>
      if String.eqb part "and" then parseParts rest total subTotal
      else
        match numberWord part with
        | Some val =>
            if jsGe val (Num 100)
            then
              let subTotal1 :=
                jsMul (if strictEquals subTotal (Num 0) then Num 1 else subTotal) val in
              parseParts rest (jsAdd total subTotal1) (Num 0)
            else parseParts rest total (jsAdd subTotal val)
        | None => (total, subTotal, false)
        end
  end.

Definition normalizeToNumberOrString (val : JsVal) : NormalizedValue :=
  match val with
  | VNull | VUndefined => Str ""
  | _ =>
      let str := toLowerCase (trim (ToString val)) in
      let num := StringToNumber str in
      if negb (isNaN num) && negb (String.eqb str "") then Num num
      else
        let parts := split str in
        match parts with
        | [] => Str str
        | [ "" ] => Str str
        | _ =>
            let '(total, subTotal, isNumberWord) := parseParts parts (Num 0) (Num 0) in
            let total1 := jsAdd total subTotal in
            if isNumberWord then total1 else Str str
        end
  end.

(** *** checkAnswer and calculateScore *)

Definition checkAnswer (q : Question) (userAnswer : JsVal) : bool :=
  if negb (ToBoolean userAnswer) then false
  else
    match correctAnswer q with
    | None => false
    | Some expected =>
        if negb (truthy expected) then false
        else if String.eqb (type q) "short_answer" then
          let userNorm := normalizeToNumberOrString userAnswer in
          let correctNorm := normalizeToNumberOrString (VString expected) in
          strictEquals userNorm correctNorm
        else if String.eqb (type q) "multiple_choice" then
          strictEqualsString userAnswer expected
        else if String.eqb (type q) "checkbox" then
          match userAnswer with
          | VArray elems => arrayIncludes elems expected
          | _ => false
          end
        else false
    end.

Record Score : Type := { score : nat; total : nat }.

(** The body of [form.questions.forEach] in [calculateScore]. *)
Definition scoreStep (response : Response) (acc : Score) (q : Question) : Score :=
  if hasCorrectAnswer q then
    {| score := if checkAnswer q (getValue (answers response) (id q))
                then S (score acc) else score acc;
       total := S (total acc) |}
  else acc.

Definition calculateScore (form : Form) (response : Response) : Score :=
  fold_left (scoreStep response) (questions form) {| score := 0; total := 0 |}.

(** *** filteredResponses *)

Section Filtering.

(** The clock and calendar are the host's: [DateTime s] is the time value
    of [new Date(s)] in milliseconds, [None] for an invalid date, and
    [endOfDay t] is the time value after [setHours(23, 59, 59, 999)] in
    the local time zone. *)
Variable DateTime : string -> option Z.
Variable endOfDay : Z -> option Z.

(** [new Date(r.submitted_at || '')] *)
Definition submitDate (r : Response) : option Z :=
  DateTime (match submitted_at r with
            | Some s => if truthy s then s else ""
            | None => ""
            end).

(** [a < b] on two dates: false when either is invalid. *)
Definition dateBefore (a b : option Z) : bool :=
  match a, b with
  | Some x, Some y => (x <? y)%Z
  | _, _ => false
  end.

Definition passesDateFrom (filters : Filters) (r : Response) : bool :=
  if truthy (dateFrom filters)
  then negb (dateBefore (submitDate r) (DateTime (dateFrom filters)))
  else true.

Definition passesDateTo (filters : Filters) (r : Response) : bool :=
  if truthy (dateTo filters)
  then
    let toDate :=
      match DateTime (dateTo filters) with
      | Some t => endOfDay t
      | None => None
      end in
    negb (dateBefore toDate (submitDate r))
  else true.

(** [score < parseInt(s)] and [score > parseInt(s)]: false on NaN. *)
Definition scoreBelow (s : nat) (bound : option Z) : bool :=
  match bound with
  | Some v => (Z.of_nat s <? v)%Z
  | None => false
  end.

Definition scoreAbove (s : nat) (bound : option Z) : bool :=
  match bound with
  | Some v => (v <? Z.of_nat s)%Z
  | None => false
  end.

Definition passesScore (selectedForm : Form) (filters : Filters) (r : Response) : bool :=
  if truthy (minScore filters) || truthy (maxScore filters) then
    let s := score (calculateScore selectedForm r) in
    if truthy (minScore filters) && scoreBelow s (parseInt (minScore filters)) then false
    else if truthy (maxScore filters) && scoreAbove s (parseInt (maxScore filters)) then false
    else true
  else true.

Definition passesKeyword (filters : Filters) (r : Response) : bool :=
  if truthy (questionId filters) && truthy (answerKeyword filters) then
    let userVal := getValue (answers r) (questionId filters) in
    let keyword := toLowerCase (answerKeyword filters) in
    let answerStr :=
      match userVal with
      | VArray elems => arrayJoin " " elems
      | _ => if ToBoolean userVal then ToString userVal else ""
      end in
    includes (toLowerCase answerStr) keyword
  else true.

(** The predicate of [responses.filter]: each test that fails returns
    false at once, and a response that fails none is kept. *)
Definition keepResponse (selectedForm : Form) (filters : Filters) (r : Response) : bool :=
  if negb (passesDateFrom filters r) then false
  else if negb (passesDateTo filters r) then false
  else if negb (passesScore selectedForm filters r) then false
  else if negb (passesKeyword filters r) then false
  else true.

Definition filteredResponses (selectedForm : option Form)
  (responses : list Response) (filters : Filters) : list Response :=
  match selectedForm with
  | None => []
  | Some form => filter (keepResponse form filters) responses
  end.

End Filtering.

(** *** getAnalytics *)

(** A value of the [counts] table: a number of occurrences, or the text
    that [(inherited || 0) + 1] concatenates when the key names a member of
    [Object.prototype]. *)
Inductive CountValue : Type :=
| Count (n : nat)
| Garbled (s : string).

(** [{ counts, total }]; the field [total] is [answerTotal] here, as
    [total] names the field of [Score]. *)
Record QuestionStats : Type := {
  counts : OwnProperties CountValue;
  answerTotal : nat
}.

(** [o[key] = v], creating the property after the existing ones. *)
Fixpoint setOwn {A : Type} (o : OwnProperties A) (key : string) (v : A)
  : OwnProperties A :=
  match o with
  | [] => [(key, v)]
  | (k, x) :: rest =>
      if String.eqb k key then (k, v) :: rest else (k, x) :: setOwn rest key v
  end.

(** [counts[key] = v] for a primitive [v]: the inherited [__proto__] setter
    ignores it and creates no property. *)
Definition setCount (o : OwnProperties CountValue) (key : string) (v : CountValue)
  : OwnProperties CountValue :=
  if String.eqb key "__proto__" then o else setOwn o key v.

(** [(counts[key] || 0) + 1] *)
Definition incremented (found : Lookup CountValue) : CountValue :=
  match found with
  | Own (Count n) => Count (S n)
  | Own (Garbled s) => if truthy s then Garbled (s ++ "1") else Count 1
  | FromPrototype i => Garbled (inheritedToString i ++ "1")
  | Missing => Count 1
  end.

Definition answersToCount (answer : JsVal) : list string :=
  match answer with
  | VArray elems => map ToString elems
  | _ => if ToBoolean answer then [ToString answer] else []
  end.

Definition countingKey (q : Question) (ans : string) : string :=
  if String.eqb (type q) "short_answer"
  then toStr (normalizeToNumberOrString (VString ans))
  else ans.

(** The body of [answersToCount.forEach]. *)
Definition countAnswer (q : Question) (st : QuestionStats) (ans : string) : QuestionStats :=
  let key := countingKey q ans in
  {| counts := setCount (counts st) key (incremented (getProperty (counts st) key));
     answerTotal := S (answerTotal st) |}.

(** The object [questionStats]: its own properties in the order they
    were created and, once the id [__proto__] was given a table, that table
    as its prototype. *)
Record StatsObject : Type := {
  ownTables : OwnProperties QuestionStats;
  prototypeTable : option QuestionStats
}.

(** [questionStats[key]] where it is a table: an own property, or for
    the key [__proto__] the prototype.  Any other read ends on the
    prototype chain and finds no table. *)
Definition readStats (stats : StatsObject) (key : string) : option QuestionStats :=
  if String.eqb key "__proto__" then prototypeTable stats
  else ownProperty (ownTables stats) key.

(** [questionStats[key] = table]: the key [__proto__] sets the prototype
    and creates no property. *)
Definition writeStats (stats : StatsObject) (key : string) (table : QuestionStats)
  : StatsObject :=
  if String.eqb key "__proto__"
  then {| ownTables := ownTables stats; prototypeTable := Some table |}
  else {| ownTables := setOwn (ownTables stats) key table;
          prototypeTable := prototypeTable stats |}.

(** The body of the inner [selectedForm.questions.forEach]; every id was
    given its table before the responses are read, and the table is
    updated in place. *)
Definition countQuestion (r : Response) (stats : StatsObject) (q : Question)
  : StatsObject :=
  match readStats stats (id q) with
  | Some st =>
      writeStats stats (id q)
        (fold_left (countAnswer q) (answersToCount (getValue (answers r) (id q))) st)
  | None => stats
  end.

Record Tally : Type := {
  totalScore : nat;
  passingCount : nat;
  tallyStats : StatsObject
}.

(** [total > 0 && (score / total) >= 0.5] *)
Definition passes (s : Score) : bool :=
  (0 <? total s)%nat &&
  PrimFloat.leb 0.5%float (PrimFloat.div (ofNat (score s)) (ofNat (total s))).

(** The body of [dataSet.forEach]. *)
Definition tallyResponse (selectedForm : Form) (acc : Tally) (r : Response) : Tally :=
  let s := calculateScore selectedForm r in
  {| totalScore := totalScore acc + score s;
     passingCount := if passes s then S (passingCount acc) else passingCount acc;
     tallyStats := fold_left (countQuestion r) (questions selectedForm) (tallyStats acc) |}.

(** [{ counts: {}, total: 0 }] *)
Definition emptyStats : QuestionStats := {| counts := []; answerTotal := 0 |}.

(** [const questionStats = {}] *)
Definition noStats : StatsObject := {| ownTables := []; prototypeTable := None |}.

(** [questionStats[q.id] = { counts: {}, total: 0 }] for every question. *)
Definition initialStats (selectedForm : Form) : StatsObject :=
  fold_left (fun stats q => writeStats stats (id q) emptyStats)
    (questions selectedForm) noStats.

Record Analytics : Type := {
  totalResponses : nat;
  avgScore : string;
  formMaxPoints : nat;
  avgPercent : float;
  passingRate : float;
  questionStats : StatsObject
}.

(** [Math.round((a / b) * 100)] *)
Definition percentOf (a b : float) : float :=
  Math_round (PrimFloat.mul (PrimFloat.div a b) 100%float).

Definition getAnalytics (selectedForm : option Form) (dataSet : list Response)
  : option Analytics :=
  match selectedForm with
  | None => None
  | Some form =>
      if (List.length dataSet =? 0)%nat then None
      else
        let t := fold_left (tallyResponse form) dataSet
                   {| totalScore := 0; passingCount := 0;
                      tallyStats := initialStats form |} in
        let maxPoints := List.length (filter hasCorrectAnswer (questions form)) in
        let len := List.length dataSet in
        Some {|
          totalResponses := len;
          avgScore := if (0 <? len)%nat
                      then toFixed (PrimFloat.div (ofNat (totalScore t)) (ofNat len)) 1
                      else "0";
          formMaxPoints := maxPoints;
          avgPercent := if ((0 <? maxPoints) && (0 <? len))%nat
                        then percentOf (ofNat (totalScore t))
                               (PrimFloat.mul (ofNat len) (ofNat maxPoints))
                        else 0%float;
          passingRate := percentOf (ofNat (passingCount t)) (ofNat len);
          questionStats := tallyStats t
        |}
  end.

(** *** sortedAnswers: the five most frequent answers of a question *)

(** A property key that is an array index: the canonical decimal text of
    an integer from 0 to 2^32 - 2. *)
Definition arrayIndex (key : string) : option N :=
  match readDigits 10 key 0 0 with
  | (v, S _, EmptyString) =>
      if String.eqb (ofN (Z.to_N v)) key && (v <=? 4294967294)%Z
      then Some (Z.to_N v) else None
  | _ => None
  end.

Fixpoint insertByIndex {A : Type} (i : N) (e : string * A)
  (l : list (N * (string * A))) : list (N * (string * A)) :=
  match l with
  | [] => [(i, e)]
  | (j, e') :: rest =>
      if (i <? j)%N then (i, e) :: l else (j, e') :: insertByIndex i e rest
  end.

Fixpoint indexedEntries {A : Type} (o : OwnProperties A) : list (N * (string * A)) :=
  match o with
  | [] => []
  | (k, v) :: rest =>
      match arrayIndex k with
      | Some i => insertByIndex i (k, v) (indexedEntries rest)
      | None => indexedEntries rest
      end
  end.

Definition isNamed {A : Type} (e : string * A) : bool :=
  match arrayIndex (fst e) with
  | Some _ => false
  | None => true
  end.

(** [Object.entries(o)]: the array-index keys in ascending numeric order,
    then the other keys in the order they were created. *)
Definition objectEntries {A : Type} (o : OwnProperties A) : list (string * A) :=
  map snd (indexedEntries o) ++ filter isNamed o.

(** The number a count is in the difference [b - a]: a text is converted
    as [Number] converts it. *)
Definition countNumber (c : CountValue) : float :=
  match c with
  | Count n => ofNat n
  | Garbled s => StringToNumber s
  end.

(** The comparator [([, a], [, b]) => b - a] as the sort reads it:
    positive, negative, or zero, which a result NaN counts as.  Two counts
    that are numbers are whole numbers, and their difference has the sign
    of their order. *)
Definition compareCounts (a b : CountValue) : comparison :=
  match a, b with
  | Count n, Count m => Nat.compare m n
  | _, _ =>
      let v := PrimFloat.sub (countNumber b) (countNumber a) in
      if PrimFloat.ltb 0 v then Gt
      else if PrimFloat.ltb v 0 then Lt
      else Eq
  end.

Definition sameSign (c d : comparison) : bool :=
  match c, d with
  | Eq, Eq | Lt, Lt | Gt, Gt => true
  | _, _ => false
  end.

(** The conditions ECMAScript puts on a consistent comparator, at three
    values: being equal is reflexive, symmetric and transitive, and being
    less and being greater are transitive. *)
Definition consistentAt (a b c : CountValue) : bool :=
  sameSign (compareCounts a a) Eq
  && implb (sameSign (compareCounts a b) Eq) (sameSign (compareCounts b a) Eq)
  && implb (sameSign (compareCounts a b) Eq && sameSign (compareCounts b c) Eq)
           (sameSign (compareCounts a c) Eq)
  && implb (sameSign (compareCounts a b) Lt && sameSign (compareCounts b c) Lt)
           (sameSign (compareCounts a c) Lt)
  && implb (sameSign (compareCounts a b) Gt && sameSign (compareCounts b c) Gt)
           (sameSign (compareCounts a c) Gt).

Definition consistent (values : list CountValue) : bool :=
  forallb (fun a => forallb (fun b => forallb (consistentAt a b) values) values) values.

(** One insertion of the stable sort: the entry goes behind the entries it
    compares greater than, and before the first other one. *)
Fixpoint insertEntry (e : string * CountValue) (l : list (string * CountValue))
  : list (string * CountValue) :=
  match l with
  | [] => [e]
  | e' :: rest =>
      match compareCounts (snd e) (snd e') with
      | Gt => e' :: insertEntry e rest
      | _ => e :: l
      end
  end.

Fixpoint sortEntries (l : list (string * CountValue)) : list (string * CountValue) :=
  match l with
  | [] => []
  | e :: rest => insertEntry e (sortEntries rest)
  end.

(** [Object.entries(stats.counts).sort(([,a], [,b]) => b - a).slice(0, 5)].
    [Array.prototype.sort] is stable, so where the comparator is consistent
    on the counts the result is determined: always on counts that are
    numbers, and with a text among them when no two counts compare
    different, as in a table of one key.  Where the comparator is not
    consistent the order is left to the implementation, which is [None]
    here. *)
Definition sortedAnswers (stats : QuestionStats) : option (list (string * CountValue)) :=
  let entries := objectEntries (counts stats) in
  if consistent (map snd entries)
  then Some (firstn 5 (sortEntries entries))
  else None.

(** The sort on entries whose counts are numbers: one insertion puts the
    entry before the first entry with a count that is not larger. *)
Fixpoint insertByCount (e : string * nat) (l : list (string * nat))
  : list (string * nat) :=
  match l with
  | [] => [e]
  | e' :: rest =>
      if (snd e <? snd e')%nat then e' :: insertByCount e rest else e :: l
  end.

Fixpoint sortByCount (l : list (string * nat)) : list (string * nat) :=
  match l with
  | [] => []
  | e :: rest => insertByCount e (sortByCount rest)
  end.

(** The entries as numbers, when every count is one. *)
Fixpoint numericEntries (l : list (string * CountValue)) : option (list (string * nat)) :=
  match l with
  | [] => Some []
  | (k, Count n) :: rest => option_map (cons (k, n)) (numericEntries rest)
  | (_, Garbled _) :: _ => None
  end.

(* ================================================================== *)
(** ** Notions of the specification *)

(** The value the specification gives a token: the number it names. *)
Definition wordValue (token : string) : option float := ownProperty numberWords token.

(** A recognized token: the word [and], or a number word. *)
Definition recognized (token : string) : Prop :=
  token = "and" \/ exists v, wordValue token = Some v.

(** The specification's parsing rule over an accumulator and a running
    subtotal: a token valued at least 100 multiplies the subtotal, an empty
    subtotal counting as 1, and folds the product into the accumulator,
    which resets the subtotal; a smaller token adds to the subtotal; [and]
    is skipped; the result is accumulator plus subtotal. *)
Fixpoint wordsValue (tokens : list string) (acc sub : float) : float :=
  match tokens with
  | [] => PrimFloat.add acc sub
  | token :: rest =>
      if String.eqb token "and" then wordsValue rest acc sub
      else
        match wordValue token with
        | Some v =>
            if PrimFloat.leb 100 v
            then wordsValue rest
                   (PrimFloat.add acc
                      (PrimFloat.mul (if PrimFloat.eqb sub 0 then 1 else sub) v))
                   0
            else wordsValue rest acc (PrimFloat.add sub v)
        | None => PrimFloat.add acc sub
        end
  end%float.

(** The tokens of a raw answer: the pieces of its trimmed, lowercased text. *)
Definition tokensOf (raw : string) : list string :=
  split (toLowerCase (trim raw)).

(** The first step of normalization succeeds: the text parses as a number. *)
Definition parsesAsNumber (str : string) : bool :=
  negb (isNaN (StringToNumber str)) && negb (String.eqb str "").

(** Equality of normalized values: the same type, and equal under the
    native equality of that type. *)
Definition sameNormalized (a b : NormalizedValue) : Prop :=
  match a, b with
  | Num x, Num y => PrimFloat.eqb x y = true
  | Str s, Str t => s = t
  | _, _ => False
  end.

(** A score bound of the specification: absent, or a number of points.  The
    text of a filter field denotes the bound [parseInt] reads from it. *)
Definition fieldDenotes (field : string) (bound : option Z) : Prop :=
  match bound with
  | None => field = ""
  | Some v => field <> "" /\ parseInt field = Some v
  end.

(** The bound the filter takes from a field: none from the empty field,
    which is unset, and none from a text in which [parseInt] finds no
    integer; otherwise the integer [parseInt] reads. *)
Definition readBound (field : string) : option Z :=
  if truthy field then parseInt field else None.

(** The number a field of type number holds: the value of its text. *)
Definition fieldNumber (field : string) : float := StringToNumber field.

(** The decimal text of an integer, as a number input holds it, and the
    field of a bound. *)
Definition decimalText (v : Z) : string :=
  if (v <? 0)%Z then String "-" (ofN (Z.to_N (- v))) else ofN (Z.to_N v).

Definition boundField (bound : option Z) : string :=
  match bound with
  | None => ""
  | Some v => decimalText v
  end.

Definition withinBounds (lo hi : option Z) (points : nat) : bool :=
  match lo with
  | Some v => (v <=? Z.of_nat points)%Z
  | None => true
  end &&
  match hi with
  | Some v => (Z.of_nat points <=? v)%Z
  | None => true
  end.

Definition clearScoreBounds (f : Filters) : Filters :=
  {| dateFrom := dateFrom f; dateTo := dateTo f;
     minScore := ""; maxScore := "";
     questionId := questionId f; answerKeyword := answerKeyword f |}.

(** The exact rounding of the percentage [100 * p / n] to the nearest
    integer, a half rounding up. *)
Definition exactPercent (p n : nat) : Z :=
  ((200 * Z.of_nat p + Z.of_nat n) / (2 * Z.of_nat n))%Z.

(** The counting keys of a question over the responses, in the order the
    loops of [getAnalytics] meet them. *)
Definition questionTokens (q : Question) (rs : list Response) : list string :=
  flat_map (fun r => map (countingKey q) (answersToCount (getValue (answers r) (id q)))) rs.

(** The distinct keys in the order of their first occurrence. *)
Fixpoint firstSeen (toks : list string) : list string :=
  match toks with
  | [] => []
  | k :: rest => k :: filter (fun k' => negb (String.eqb k' k)) (firstSeen rest)
  end.

(** The position of the first occurrence of a key. *)
Fixpoint firstIndex (toks : list string) (k : string) : nat :=
  match toks with
  | [] => 0
  | k' :: rest => if String.eqb k' k then 0 else S (firstIndex rest k)
  end.

Fixpoint occurrences (toks : list string) (k : string) : nat :=
  match toks with
  | [] => 0
  | k' :: rest => (if String.eqb k' k then 1 else 0) + occurrences rest k
  end.

(** The order of the own keys of a JavaScript object: array indices in
    ascending numeric order, then the other keys by first occurrence. *)
Definition keyBefore (toks : list string) (k1 k2 : string) : Prop :=
  match arrayIndex k1, arrayIndex k2 with
  | Some i, Some j => (i < j)%N
  | Some _, None => True
  | None, Some _ => False
  | None, None => firstIndex toks k1 < firstIndex toks k2
  end.

(** The ranking of the answers: a larger count first, and among equal
    counts the key order of the object. *)
Definition rankedBefore (toks : list string) (e1 e2 : string * nat) : Prop :=
  snd e2 < snd e1 \/ (snd e1 = snd e2 /\ keyBefore toks (fst e1) (fst e2)).

(** Sample data of the examples. *)
Definition shortAnswer (expected : string) : Question :=
  {| id := "q1"; text := "How many?"; type := "short_answer";
     options := []; correctAnswer := Some expected |}.

Definition checkboxQuestion (expected : string) : Question :=
  {| id := "q1"; text := "Which?"; type := "checkbox";
     options := ["A"; "B"; "C"]; correctAnswer := Some expected |}.

Definition answering (entries : OwnProperties JsVal) : Response :=
  {| answers := entries; submitted_at := Some "2024-01-01T10:00:00Z" |}.

Definition noFilters : Filters :=
  {| dateFrom := ""; dateTo := ""; minScore := ""; maxScore := "";
     questionId := ""; answerKeyword := "" |}.

(** A text made of decimal digits only. *)
Fixpoint allDigits (s : string) : bool :=
  match s with
  | EmptyString => true
  | String c s' => isDigit c && allDigits s'
  end.

(** The first letters of the recognized tokens. *)
Definition wordInitials : list ascii :=
  ["z"; "o"; "t"; "f"; "s"; "e"; "n"; "h"; "a"]%char.

(** A host without a clock, for examples that set no date filter. *)
Definition noClock : string -> option Z := fun _ => None.
Definition noCalendar : Z -> option Z := fun _ => None.

Definition oneQuestionForm : Form :=
  {| code := "ABC123"; questions := [shortAnswer "8"] |}.

Definition scoreFilter (lo hi : string) : Filters :=
  {| dateFrom := ""; dateTo := ""; minScore := lo; maxScore := hi;
     questionId := ""; answerKeyword := "" |}.

Definition numbered (name expected : string) : Question :=
  {| id := name; text := "How many?"; type := "short_answer";
     options := []; correctAnswer := Some expected |}.

(** Five gradable questions, and four responses that answer five, three,
    two and none of them correctly. *)
Definition fiveQuestionForm : Form :=
  {| code := "FIVE05";
     questions := [numbered "a" "1"; numbered "b" "2"; numbered "c" "3";
                   numbered "d" "4"; numbered "e" "5"] |}.

Definition answersOf (a b c d e : string) : Response :=
  answering [("a", VString a); ("b", VString b); ("c", VString c);
             ("d", VString d); ("e", VString e)].

Definition fourResponses : list Response :=
  [ answersOf "one" "two" "three" "four" "five";
    answersOf "1" "2" "3" "x" "y";
    answersOf "1" "2" "x" "y" "z";
    answersOf "v" "w" "x" "y" "z" ].

(** Forty responses to one gradable question, 23 of them correct. *)
Definition fortyResponses : list Response :=
  repeat (answering [("q1", VString "8")]) 23
  ++ repeat (answering [("q1", VString "7")]) 17.

(** The responses that pass, in the words of [getAnalytics]. *)
Definition passing (form : Form) (rs : list Response) : list Response :=
  filter (fun r => passes (calculateScore form r)) rs.

(** [counts[key] = (counts[key] || 0) + 1] on the table alone. *)
Definition countKey (c : OwnProperties CountValue) (key : string)
  : OwnProperties CountValue :=
  setCount c key (incremented (getProperty c key)).

(** The table of a token list, by the specification: each distinct key
    with the number of its occurrences, in order of first occurrence. *)
Definition tallied (toks : list string) : list (string * nat) :=
  map (fun k => (k, occurrences toks k)) (firstSeen toks).

Definition asCount (e : string * nat) : string * CountValue :=
  (fst e, Count (snd e)).


(** The key order of [keyBefore], on entries. *)
Definition entryBefore (toks : list string) (e1 e2 : string * nat) : Prop :=
  keyBefore toks (fst e1) (fst e2).

(** [analytics.questionStats[q.id]] and its five notable answers, their
    counts being numbers. *)
Definition notableAnswers (form : Form) (rs : list Response) (q : Question)
  : option (list (string * nat)) :=
  match getAnalytics (Some form) rs with
  | Some a =>
      match readStats (questionStats a) (id q) with
      | Some st =>
          match sortedAnswers st with
          | Some listed => numericEntries listed
          | None => None
          end
      | None => None
      end
  | None => None
  end.

Definition cityQuestion : Question :=
  {| id := "q1"; text := "Which city?"; type := "multiple_choice";
     options := ["Rome"; "Paris"; "Oslo"]; correctAnswer := Some "Paris" |}.

Definition cityForm : Form := {| code := "CITY01"; questions := [cityQuestion] |}.

(** The order of a stable sort by descending count on an input that is in
    the order [before]: a larger count first, and [before] among equal
    counts. *)
Definition byCountThen (before : string * nat -> string * nat -> Prop)
  (e1 e2 : string * nat) : Prop :=
  snd e2 < snd e1 \/ (snd e1 = snd e2 /\ before e1 e2).


(* ================================================================== *)
(** ** Notions for the properties of the grading core *)

(** The questions that count toward a score. *)
Definition gradable (form : Form) : list Question :=
  filter hasCorrectAnswer (questions form).

(** [checkAnswer(q, response.answers[q.id])] *)
Definition answeredCorrectly (response : Response) (q : Question) : bool :=
  checkAnswer q (getValue (answers response) (id q)).

(** A normalized value other than the number NaN. *)
Definition notNaN (v : NormalizedValue) : bool :=
  match v with
  | Num x => negb (isNaN x)
  | Str _ => true
  end.

(** A question type that [checkAnswer] matches. *)
Definition knownType (t : string) : bool :=
  String.eqb t "short_answer" || String.eqb t "multiple_choice"
  || String.eqb t "checkbox".

Definition choiceQuestion (expected : string) : Question :=
  {| id := "q2"; text := "Which city?"; type := "multiple_choice";
     options := ["Rome"; "Paris"]; correctAnswer := Some expected |}.

Definition essayQuestion : Question :=
  {| id := "q3"; text := "Why?"; type := "short_answer";
     options := []; correctAnswer := Some "" |}.

Definition mixedForm : Form :=
  {| code := "MIX001";
     questions := [shortAnswer "8"; choiceQuestion "Paris"; essayQuestion] |}.

(** What [trimStart] leaves is empty or starts with a character that is
    not white space. *)
Definition startsClean (s : string) : bool :=
  match s with
  | EmptyString => true
  | String c _ => negb (isWhiteSpace c)
  end.


(** [l1] keeps some of the elements of [l2], in their order. *)
Inductive Subsequence {A : Type} : list A -> list A -> Prop :=
| Subsequence_nil : Subsequence [] []
| Subsequence_keep (x : A) (l1 l2 : list A) :
    Subsequence l1 l2 -> Subsequence (x :: l1) (x :: l2)
| Subsequence_skip (x : A) (l1 l2 : list A) :
    Subsequence l1 l2 -> Subsequence l1 (x :: l2).

(** The criteria of one dimension alone. *)
Definition onlyDates (f : Filters) : Filters :=
  {| dateFrom := dateFrom f; dateTo := dateTo f; minScore := ""; maxScore := "";
     questionId := ""; answerKeyword := "" |}.

Definition onlyScore (f : Filters) : Filters :=
  {| dateFrom := ""; dateTo := ""; minScore := minScore f; maxScore := maxScore f;
     questionId := ""; answerKeyword := "" |}.

Definition onlyKeyword (f : Filters) : Filters :=
  {| dateFrom := ""; dateTo := ""; minScore := ""; maxScore := "";
     questionId := questionId f; answerKeyword := answerKeyword f |}.


Definition dateFilter (from to : string) : Filters :=
  {| dateFrom := from; dateTo := to; minScore := ""; maxScore := "";
     questionId := ""; answerKeyword := "" |}.

(** The end of a day in local time, as ECMAScript defines
    [setHours(23, 59, 59, 999)]: the time value is taken to local time,
    the time within the day is replaced, and the result is taken back to
    UTC and clipped to the range of time values.  [LocalTZA t isUTC] is
    the offset of the host's time zone in milliseconds, at the UTC time
    [t] or at the local time [t]. *)
Definition msPerDay : Z := 86400000.

Definition Day (t : Z) : Z := (t / msPerDay)%Z.

Definition TimeClip (time : Z) : option Z :=
  if (Z.abs time <=? 8640000000000000)%Z then Some time else None.

Definition LocalTime (LocalTZA : Z -> bool -> Z) (t : Z) : Z :=
  (t + LocalTZA t true)%Z.

Definition UTC (LocalTZA : Z -> bool -> Z) (t : Z) : Z :=
  (t - LocalTZA t false)%Z.

Definition setHoursEndOfDay (LocalTZA : Z -> bool -> Z) (thisTimeValue : Z) : option Z :=
  let t := LocalTime LocalTZA thisTimeValue in
  let time := (23 * 3600000 + 59 * 60000 + 59 * 1000 + 999)%Z in
  let date := (Day t * msPerDay + time)%Z in
  TimeClip (UTC LocalTZA date).

(** A host clock for examples: it reads one date and finds every other
    text invalid; a day lasts to its last millisecond. *)
Definition sampleClock (s : string) : option Z :=
  if String.eqb s "2024-01-01" then Some 1704067200000%Z
  else if String.eqb s "2024-01-01T10:00:00Z" then Some 1704103200000%Z
  else None.

Definition sampleEndOfDay (t : Z) : option Z := Some (t + 86399999)%Z.

(** ** Notions for the properties of getAnalytics *)

(** The answers of a question over the responses, before their keys are
    taken, in the order the loops of [getAnalytics] meet them. *)
Definition rawAnswers (q : Question) (rs : list Response) : list string :=
  flat_map (fun r => answersToCount (getValue (answers r) (id q))) rs.

(** The sum of the counts of a table, when every count is a number. *)
Fixpoint tableTotal (c : OwnProperties CountValue) : option nat :=
  match c with
  | [] => Some 0
  | (_, Count n) :: rest => option_map (Nat.add n) (tableTotal rest)
  | (_, Garbled _) :: _ => None
  end.

Definition sumOfScores (form : Form) (rs : list Response) : nat :=
  list_sum (map (fun r => score (calculateScore form r)) rs).

(** [analytics.questionStats[q.id]] *)
Definition questionStatsOf (form : Form) (rs : list Response) (q : Question)
  : option QuestionStats :=
  match getAnalytics (Some form) rs with
  | Some a => readStats (questionStats a) (id q)
  | None => None
  end.

(** The order of the counts alone: the first is not below the second. *)
Definition countNotBelow (e1 e2 : string * nat) : Prop := snd e2 <= snd e1.

Definition anyOrder (e1 e2 : string * nat) : Prop := True.

Definition sampleStats : QuestionStats :=
  {| counts := [("rome", Count 1); ("7", Count 3); ("oslo", Count 2); ("3", Count 1);
                ("paris", Count 4); ("bern", Count 1); ("wien", Count 2)];
     answerTotal := 14 |}.

(* ================================================================== *)
(** ** ViewerDashboard: the timer and the answers of a viewer *)

(** The form a viewer fills in, with [time_limit] in minutes: a number,
    or [None] for [null]. *)
Record ActiveForm : Type := {
  activeQuestions : Form;
  time_limit : option float
}.

(** [setTimeLimit(e.target.value ? parseInt(e.target.value) : null)] of
    the form builder; [parseInt] gives the Number value of the integer it
    reads, and NaN when it reads none. *)
Definition readTimeLimit (value : string) : option float :=
  if truthy value
  then Some (match parseInt value with
             | Some z => ofZ z
             | None => nan
             end)
  else None.

(** The first part of the timer effect: [setTimeLeft(null)] without a
    form, with a time limit that is [null], zero or NaN, and after the
    submission; [setTimeLeft(activeForm.time_limit * 60)] otherwise. *)
Definition startTimer (activeForm : option ActiveForm) (submitted : bool)
  : option float :=
  match activeForm with
  | None => None
  | Some form =>
      match time_limit form with
      | None => None
      | Some minutes =>
          if (PrimFloat.eqb minutes 0 || isNaN minutes) || submitted then None
          else Some (PrimFloat.mul minutes 60)
      end
  end.

(** The updater the interval passes to [setTimeLeft] every second. *)
Definition tick (prev : option float) : option float :=
  match prev with
  | None => None
  | Some p => if PrimFloat.leb p 1 then Some 0%float else Some (PrimFloat.sub p 1)
  end.

(** [timeLeft === 0], the time expiration the second effect watches for. *)
Definition expired (timeLeft : option float) : bool :=
  match timeLeft with
  | Some t => PrimFloat.eqb t 0
  | None => false
  end.

(** [s.padStart(targetLength, '0')] *)
Definition padStart (targetLength : nat) (s : string) : string :=
  (repeat0 (targetLength - String.length s) ++ s)%string.

(** [formatTime] *)
Definition formatTime (seconds : float) : string :=
  let mins := Math_floor (PrimFloat.div seconds 60) in
  let secs := remainder seconds 60 in
  (Number_toString mins ++ ":" ++ padStart 2 (Number_toString secs))%string.

(** The text of a clock for a whole number of seconds: the whole minutes
    in decimal, a colon, and the seconds of the minute in two digits. *)
Definition clockText (seconds : Z) : string :=
  let mins := (seconds / 60)%Z in
  let secs := Z.rem seconds 60 in
  (decimalText mins ++ ":" ++ padStart 2 (decimalText secs))%string.

(** The whole numbers from 0 to [n]. *)
Definition upTo (n : Z) : list Z := map Z.of_nat (seq 0 (S (Z.to_nat n))).

(** [{...answers, [key]: value}]: the copy is created in the key order of
    [answers], and a computed key is defined as an own property. *)
Definition withAnswer (answers : OwnProperties JsVal) (key : string) (value : JsVal)
  : OwnProperties JsVal :=
  setOwn (objectEntries answers) key value.







(** *** The flag of a listed answer in the question breakdown *)

(** [q.correctAnswer && (q.type === 'short_answer' ? normAnswer ===
    normCorrect : answer === q.correctAnswer)], as the condition it is
    used for; [answer] is a key of the table of counts. *)
Definition listedAnswerIsCorrect (q : Question) (answer : string) : bool :=
  match correctAnswer q with
  | None => false
  | Some expected =>
      truthy expected &&
      (if String.eqb (type q) "short_answer"
       then strictEquals (normalizeToNumberOrString (VString answer))
                         (normalizeToNumberOrString (VString expected))
       else String.eqb answer expected)
  end.

(** The keys a response adds to the table of a question. *)
Definition countedKeys (q : Question) (answer : JsVal) : list string :=
  map (countingKey q) (answersToCount answer).

(* ================================================================== *)
(** ** FormBuilder: the history of edits and the question list *)

Module FormBuilder.

(** The three states of [useHistory]. *)
Record History (T : Type) : Type := {
  past : list T;
  present : T;
  future : list T
}.
Arguments past {T} h.
Arguments present {T} h.
Arguments future {T} h.

(** The argument of [set]: a new state, or a function of the previous one. *)
Inductive NewState (T : Type) : Type :=
| Value (v : T)
| Updater (f : T -> T).
Arguments Value {T} v.
Arguments Updater {T} f.

(** The callbacks of the hook.  A callback reads [past], [present] and
    [future] of the render that made it, [render], and queues its updates
    on the states as they are, [h]; the functional updates
    [(prev) => ...] read [h]. *)
Definition set {T : Type} (render : History T) (newState : NewState T)
  (h : History T) : History T :=
  let value := match newState with
               | Updater f => f (present render)
               | Value v => v
               end in
  {| past := past h ++ [present render]; present := value; future := [] |}.

(** [past[past.length - 1]] is defined, as the array is not empty. *)
Definition undo {T : Type} (render h : History T) : History T :=
  if (List.length (past render) =? 0)%nat then h
  else
    match nth_error (past render) (List.length (past render) - 1) with
    | Some previous =>
        {| past := firstn (List.length (past render) - 1) (past render);
           present := previous;
           future := present render :: future h |}
    | None => h
    end.

Definition redo {T : Type} (render h : History T) : History T :=
  match future render with
  | [] => h
  | next :: newFuture =>
      {| past := past h ++ [present render]; present := next; future := newFuture |}
  end.

Definition canUndo {T : Type} (h : History T) : bool := (0 <? List.length (past h))%nat.

Definition canRedo {T : Type} (h : History T) : bool := (0 <? List.length (future h))%nat.

(** The state of the form under construction. *)
Record FormState : Type := {
  title : string;
  description : string;
  questions : list Question
}.

(** The function [addQuestion] passes to [setFormState]; [newId] is the
    random identifier. *)
Definition addQuestion (newId : string) (prev : FormState) : FormState :=
  let newQuestion := {| id := newId; text := ""; type := "short_answer";
                        options := ["Option 1"]; correctAnswer := Some "" |} in
  {| title := title prev; description := description prev;
     questions := questions prev ++ [newQuestion] |}.

(** [Partial<Question>]: the fields an update carries. *)
Record Updates : Type := {
  newId : option string;
  newText : option string;
  newType : option string;
  newOptions : option (list string);
  newCorrectAnswer : option (option string)
}.

Definition orElse {A : Type} (given : option A) (old : A) : A :=
  match given with
  | Some v => v
  | None => old
  end.

(** [{ ...q, ...updates }] *)
Definition merged (q : Question) (updates : Updates) : Question :=
  {| id := orElse (newId updates) (id q);
     text := orElse (newText updates) (text q);
     type := orElse (newType updates) (type q);
     options := orElse (newOptions updates) (options q);
     correctAnswer := orElse (newCorrectAnswer updates) (correctAnswer q) |}.

(** The function [updateQuestion] passes to [setFormState]. *)
Definition updateQuestion (qid : string) (updates : Updates) (prev : FormState)
  : FormState :=
  {| title := title prev; description := description prev;
     questions := map (fun q => if String.eqb (id q) qid then merged q updates else q)
                      (questions prev) |}.

(** The function [removeQuestion] passes to [setFormState]. *)
Definition removeQuestion (qid : string) (prev : FormState) : FormState :=
  {| title := title prev; description := description prev;
     questions := filter (fun q => negb (String.eqb (id q) qid)) (questions prev) |}.

Definition onlyOptions (opts : list string) : Updates :=
  {| newId := None; newText := None; newType := None;
     newOptions := Some opts; newCorrectAnswer := None |}.

(** The label of a new option, [`Option ${n + 1}`]. *)
Definition optionLabel (opts : list string) : string :=
  ("Option " ++ ofN (N.of_nat (List.length opts + 1)))%string.

(** [addOption]: the update it passes on for the question found in
    [formState], or nothing when no question has the id.  Every question
    holds an array of options. *)
Definition addOption (qId : string) (formState : FormState)
  : option (FormState -> FormState) :=
  match find (fun q => String.eqb (id q) qId) (questions formState) with
  | Some q =>
      Some (updateQuestion qId (onlyOptions (options q ++ [optionLabel (options q)])))
  | None => None
  end.

(** [opts.filter((_, i) => i !== optIdx)] *)
Definition withoutIndex {A : Type} (optIdx : nat) (opts : list A) : list A :=
  map snd (filter (fun p => negb (fst p =? optIdx)%nat)
             (combine (seq 0 (List.length opts)) opts)).

(** The click on the remove button of option [optIdx] of question [q]. *)
Definition removeOption (q : Question) (optIdx : nat) : FormState -> FormState :=
  updateQuestion (id q) (onlyOptions (withoutIndex optIdx (options q))).

End FormBuilder.

(** The callbacks of the latest render, which has the states as they are. *)
Definition edit {T : Type} (newState : FormBuilder.NewState T)
  (h : FormBuilder.History T) : FormBuilder.History T :=
  FormBuilder.set h newState h.

Definition undone {T : Type} (h : FormBuilder.History T) : FormBuilder.History T :=
  FormBuilder.undo h h.

Definition redone {T : Type} (h : FormBuilder.History T) : FormBuilder.History T :=
  FormBuilder.redo h h.

(** Edits made one after the other, each from the render that follows the
    one before. *)
Definition edits {T : Type} (us : list (FormBuilder.NewState T))
  (h : FormBuilder.History T) : FormBuilder.History T :=
  fold_left (fun g u => edit u g) us h.

(** All the states a history holds, oldest first. *)
Definition timeline {T : Type} (h : FormBuilder.History T) : list T :=
  FormBuilder.past h ++ FormBuilder.present h :: FormBuilder.future h.

(** The options of a new question after [n] clicks on "add option". *)
Definition grownOptions (n : nat) : list string :=
  Nat.iter n (fun opts => opts ++ [FormBuilder.optionLabel opts]) ["Option 1"].

Definition cityState : FormBuilder.FormState :=
  {| FormBuilder.title := "Cities"; FormBuilder.description := "";
     FormBuilder.questions := [cityQuestion; choiceQuestion "Paris"] |}.

(* ================================================================== *)
(** ** The colour of a score in the list of individual responses *)

Definition getScoreColor (percentage : float) : string :=
  if PrimFloat.leb 80 percentage then "text-green-400"
  else if PrimFloat.leb 50 percentage then "text-yellow-400"
  else "text-red-400".

(** [total > 0 ? Math.round((score / total) * 100) : 0] *)
Definition responsePercentage (s : Score) : float :=
  if (0 <? total s)%nat
  then percentOf (ofNat (score s)) (ofNat (total s))
  else 0%float.

(** The colour in terms of the points: green from 79.5 percent on, then
    yellow for a response that passes. *)
Definition colourOfPoints (s : Score) : string :=
  if (159 * total s <=? 200 * score s)%nat then "text-green-400"
  else if passes s then "text-yellow-400"
  else "text-red-400".

(* ================================================================== *)
(** ** Properties of checkAnswer *)

Lemma truthy_true (s : string) : s <> "" -> truthy s = true.
Proof.
  intros H. unfold truthy. destruct (String.eqb_spec s ""); [contradiction | reflexivity].
Qed.

Lemma strictEquals_sameNormalized (a b : NormalizedValue) :
  strictEquals a b = true <-> sameNormalized a b.
Proof.
  destruct a as [x | s], b as [y | t]; simpl; try tauto.
  - split; [discriminate | contradiction].
  - split; [discriminate | contradiction].
  - apply String.eqb_eq.
Qed.

Lemma strictEqualsString_iff (v : JsVal) (s : string) :
  strictEqualsString v s = true <-> v = VString s.
Proof.
  destruct v; simpl; try (split; [discriminate | intros H; inversion H]).
  rewrite String.eqb_eq. split; [intros -> | intros H; inversion H]; reflexivity.
Qed.

Lemma arrayIncludes_In (elems : list JsVal) (s : string) :
  arrayIncludes elems s = true <-> In (VString s) elems.
Proof.
  unfold arrayIncludes. rewrite existsb_exists. split.
  - intros [v [Hin Hv]]. apply strictEqualsString_iff in Hv. now subst.
  - intros Hin. exists (VString s). split; [assumption | now apply strictEqualsString_iff].
Qed.

(** C2. A short_answer question with a non-empty expected answer judges a
    non-empty (truthy) submitted answer correct exactly when the two
    normalized values are equal as values of the same type; with the expected
    answer "8", the answers "8", "Eight", " eight " and "08" are correct. *)
Theorem short_answer_correct_iff_normalized_equal :
  (forall (q : Question) (expected : string) (rawAnswer : JsVal),
      type q = "short_answer" ->
      correctAnswer q = Some expected ->
      expected <> "" ->
      ToBoolean rawAnswer = true ->
      (checkAnswer q rawAnswer = true <->
       sameNormalized (normalizeToNumberOrString rawAnswer)
                      (normalizeToNumberOrString (VString expected))))
  /\ checkAnswer (shortAnswer "8") (VString "8") = true
  /\ checkAnswer (shortAnswer "8") (VString "Eight") = true
  /\ checkAnswer (shortAnswer "8") (VString " eight ") = true
  /\ checkAnswer (shortAnswer "8") (VString "08") = true
  /\ normalizeToNumberOrString (VString "08") = Num 8.
Proof.
  split; [ | repeat split; vm_compute; reflexivity ].
  intros q expected rawAnswer Hty Hexp Hne Hraw.
  unfold checkAnswer. rewrite Hraw, Hexp, Hty, (truthy_true _ Hne). simpl.
  apply strictEquals_sameNormalized.
Qed.

Lemma short_answer_correct_witness :
  checkAnswer (shortAnswer "8") (VString "Eight") = true <->
  sameNormalized (normalizeToNumberOrString (VString "Eight"))
                 (normalizeToNumberOrString (VString "8")).
Proof.
  apply (proj1 short_answer_correct_iff_normalized_equal
           (shortAnswer "8") "8" (VString "Eight")).
  - reflexivity.
  - reflexivity.
  - discriminate.
  - reflexivity.
Defined.

(** C7. A checkbox question with a non-empty expected answer judges a
    submitted sequence correct exactly when the expected answer is one of its
    members, whatever else is selected: with the expected answer "B",
    ["A","B","C"] is correct and ["A","C"] is not. *)
Theorem checkbox_correct_iff_member :
  (forall (q : Question) (expected : string) (selected : list JsVal),
      type q = "checkbox" ->
      correctAnswer q = Some expected ->
      expected <> "" ->
      (checkAnswer q (VArray selected) = true <-> In (VString expected) selected))
  /\ checkAnswer (checkboxQuestion "B")
       (VArray [VString "A"; VString "B"; VString "C"]) = true
  /\ checkAnswer (checkboxQuestion "B")
       (VArray [VString "A"; VString "C"]) = false.
Proof.
  split; [ | split; vm_compute; reflexivity ].
  intros q expected selected Hty Hexp Hne.
  unfold checkAnswer. rewrite Hexp, Hty, (truthy_true _ Hne). simpl.
  apply arrayIncludes_In.
Qed.

Lemma checkbox_correct_witness :
  checkAnswer (checkboxQuestion "B") (VArray [VString "A"; VString "B"; VString "C"]) = true
  <-> In (VString "B") [VString "A"; VString "B"; VString "C"].
Proof.
  apply (proj1 checkbox_correct_iff_member (checkboxQuestion "B") "B").
  - reflexivity.
  - reflexivity.
  - discriminate.
Defined.

(** C10. A falsy raw answer (the number 0, the empty string, null,
    undefined among them) is judged incorrect for every question, before any
    matching by type; so the number 0 is incorrect for a short_answer
    question that expects "0", although both normalize to the number 0. *)
Theorem falsy_answer_is_incorrect :
  (forall (q : Question) (rawAnswer : JsVal),
      ToBoolean rawAnswer = false -> checkAnswer q rawAnswer = false)
  /\ ToBoolean (VNumber 0) = false
  /\ ToBoolean (VString "") = false
  /\ ToBoolean VNull = false
  /\ ToBoolean VUndefined = false
  /\ checkAnswer (shortAnswer "0") (VNumber 0) = false
  /\ normalizeToNumberOrString (VNumber 0) = Num 0
  /\ normalizeToNumberOrString (VString "0") = Num 0
  /\ strictEquals (normalizeToNumberOrString (VNumber 0))
                  (normalizeToNumberOrString (VString "0")) = true.
Proof.
  split; [ | repeat split; vm_compute; reflexivity ].
  intros q rawAnswer H. unfold checkAnswer. now rewrite H.
Qed.

Lemma falsy_answer_witness :
  checkAnswer (shortAnswer "0") (VNumber 0) = false.
Proof.
  apply (proj1 falsy_answer_is_incorrect (shortAnswer "0") (VNumber 0)).
  reflexivity.
Defined.

(** C9. With no responses [getAnalytics] returns null, whatever the form:
    no report is built and no statistic is computed. *)
Theorem analytics_of_no_responses_is_null :
  forall selectedForm : option Form, getAnalytics selectedForm [] = None.
Proof.
  intros [form | ]; reflexivity.
Qed.
(* ================================================================== *)
(** ** Properties of normalizeToNumberOrString *)

Lemma split_not_nil (s : string) : split s <> [].
Proof.
  induction s as [ | c s IH]; simpl; [discriminate | ].
  destruct (split s) as [ | t ts]; [discriminate | ].
  destruct (isSeparator c); [destruct (startsWithSeparator s) | ]; discriminate.
Qed.

(** The first piece of a split: empty when the text is empty or starts
    with a separator, and otherwise starting with the first character. *)
Lemma split_first (s t : string) (ts : list string) :
  split s = t :: ts ->
  match s with
  | EmptyString => t = ""
  | String c _ => if isSeparator c then t = "" else exists t', t = String c t'
  end.
Proof.
  revert t ts. induction s as [ | c s IH]; intros t ts; simpl.
  - intros H; now inversion H.
  - destruct (split s) as [ | t0 ts0] eqn:E; [now destruct (split_not_nil s) | ].
    specialize (IH t0 ts0 eq_refl).
    destruct (isSeparator c).
    + destruct s as [ | c' s']; simpl.
      * intros H; now inversion H.
      * simpl in IH. destruct (isSeparator c'); intros H; inversion H; subst; auto.
    + intros H; inversion H; eauto.
Qed.

Lemma recognized_initial (c : ascii) (t : string) :
  recognized (String c t) -> In c wordInitials.
Proof.
  intros [H | [v H]].
  - inversion H; subst. simpl; tauto.
  - unfold wordValue, numberWords in H. cbn [ownProperty] in H.
    repeat match type of H with
           | (if String.eqb ?k ?s then _ else _) = _ =>
               destruct (String.eqb_spec k s) as [E | _];
               [ inversion E; subst; simpl; tauto | ]
           end.
    discriminate.
Qed.

Lemma recognized_not_empty : ~ recognized "".
Proof.
  intros [H | [v H]]; [discriminate | ]. vm_compute in H. discriminate.
Qed.

Lemma trim_cons (c : ascii) (r : string) :
  isWhiteSpace c = false -> exists r', trim (String c r) = String c r'.
Proof.
  intros Hc. unfold trim. cbn [trimStart]. rewrite Hc. cbn [trimEnd].
  destruct (trimEnd r); [rewrite Hc | ]; eauto.
Qed.

(** A text that starts like a number word is not a numeric literal. *)
Lemma StringToNumber_word (c : ascii) (r : string) :
  In c wordInitials -> StringToNumber (String c r) = nan.
Proof.
  intros Hin. unfold StringToNumber.
  assert (Hws : isWhiteSpace c = false).
  { simpl in Hin. decompose [or] Hin; subst; try reflexivity; contradiction. }
  destruct (trim_cons c r Hws) as [r' ->].
  simpl in Hin. decompose [or] Hin; subst; try contradiction; reflexivity.
Qed.

Lemma numberWord_of_wordValue (tok : string) (v : float) :
  wordValue tok = Some v -> numberWord tok = Some (Num v).
Proof.
  unfold wordValue, numberWord, getProperty. now intros ->.
Qed.

(** On recognized tokens the loop of the source runs to its end with
    numbers in both variables, and computes the specification's value. *)
Lemma parseParts_recognized (toks : list string) :
  Forall recognized toks ->
  forall acc sub : float,
  exists t s : float,
    parseParts toks (Num acc) (Num sub) = (Num t, Num s, true) /\
    PrimFloat.add t s = wordsValue toks acc sub.
Proof.
  induction 1 as [ | tok toks Htok _ IH]; intros acc sub.
  - exists acc, sub. split; reflexivity.
  - cbn [parseParts wordsValue].
    destruct (String.eqb tok "and") eqn:Eand; [apply IH | ].
    destruct Htok as [-> | [v Hv]]; [discriminate | ].
    rewrite (numberWord_of_wordValue _ _ Hv), Hv.
    unfold jsGe, jsMul, strictEquals. cbn [toNum].
    destruct (PrimFloat.leb 100 v).
    + destruct (PrimFloat.eqb sub 0); cbn [toNum jsAdd]; apply IH.
    + cbn [jsAdd]. apply IH.
Qed.

(** One token the lookup does not find, other than [and], makes the loop
    leave with [isNumberWord] false, wherever the token stands. *)
Lemma parseParts_unrecognized (parts : list string) :
  (exists tok, In tok parts /\ tok <> "and" /\ numberWord tok = None) ->
  forall total subTotal, snd (parseParts parts total subTotal) = false.
Proof.
  induction parts as [ | part rest IH]; intros [tok [Hin [Hand Hnone]]] total subTotal.
  - destruct Hin.
  - cbn [parseParts].
    assert (Hrest : part <> tok ->
                    exists tok, In tok rest /\ tok <> "and" /\ numberWord tok = None).
    { intros Hne. exists tok. destruct Hin as [-> | Hin]; [contradiction | auto]. }
    destruct (String.eqb_spec part "and") as [-> | _].
    + apply IH, Hrest. congruence.
    + destruct (numberWord part) as [val | ] eqn:Eval; [ | reflexivity].
      assert (Hne : part <> tok) by (intros ->; congruence).
      destruct (jsGe val (Num 100)); apply IH, Hrest, Hne.
Qed.

Lemma normalize_fallback (parts : list string) (str : string) :
  snd (parseParts parts (Num 0) (Num 0)) = false ->
  (let '(total, subTotal, isNumberWord) := parseParts parts (Num 0) (Num 0) in
   let total1 := jsAdd total subTotal in
   if isNumberWord then total1 else Str str) = Str str.
Proof.
  destruct (parseParts parts (Num 0) (Num 0)) as [[t s] b]. simpl. now intros ->.
Qed.

(** C1. On a phrase whose pieces are all recognized, normalization returns
    the number the accumulator-and-subtotal rule computes; so "eight" and
    "8" give 8, "twenty one" gives 21, "one hundred five" gives 105, and
    "Paris" stays the text "paris". *)
Theorem normalize_number_words :
  (forall raw : string,
      Forall recognized (tokensOf raw) ->
      normalizeToNumberOrString (VString raw)
      = Num (wordsValue (tokensOf raw) 0 0))
  /\ normalizeToNumberOrString (VString "eight") = Num 8
  /\ normalizeToNumberOrString (VString "8") = Num 8
  /\ normalizeToNumberOrString (VString "twenty one") = Num 21
  /\ normalizeToNumberOrString (VString "one hundred five") = Num 105
  /\ normalizeToNumberOrString (VString "Paris") = Str "paris".
Proof.
  split; [ | repeat split; vm_compute; reflexivity ].
  intros raw Hall. unfold tokensOf in *.
  unfold normalizeToNumberOrString. cbn [ToString].
  set (str := toLowerCase (trim raw)) in *.
  destruct (split str) as [ | t ts] eqn:Esplit; [now destruct (split_not_nil str) | ].
  pose proof (split_first _ _ _ Esplit) as Hfirst.
  assert (Ht : recognized t) by now inversion Hall.
  destruct str as [ | c s'].
  - subst t. now destruct recognized_not_empty.
  - destruct (isSeparator c).
    + subst t. now destruct recognized_not_empty.
    + destruct Hfirst as [t' ->].
      rewrite (StringToNumber_word c s' (recognized_initial _ _ Ht)).
      cbn [isNaN is_nan negb andb].
      change (negb (isNaN nan)) with false. cbn [andb].
      destruct (parseParts_recognized _ Hall 0%float 0%float) as [a [b [Hrun Hval]]].
      rewrite Hrun. cbn [jsAdd]. now rewrite Hval.
Qed.

Lemma normalize_number_words_witness :
  normalizeToNumberOrString (VString "One Hundred and Twenty-Five")
  = Num (wordsValue ["one"; "hundred"; "and"; "twenty"; "five"] 0 0).
Proof.
  apply (proj1 normalize_number_words "One Hundred and Twenty-Five").
  change (Forall recognized ["one"; "hundred"; "and"; "twenty"; "five"]).
  repeat (apply Forall_cons;
          [ first [ left; reflexivity | right; eexists; vm_compute; reflexivity ] | ]).
  apply Forall_nil.
Defined.

(** C6, as amended.  When the trimmed, lowercased text does not parse as a
    number and one of its pieces is neither [and] nor found by the lookup
    in the table of number words, normalization gives up the word parsing
    and returns that whole text; "twenty dollars" stays "twenty dollars". *)
Theorem normalize_unrecognized_token_keeps_text :
  (forall raw : string,
      parsesAsNumber (toLowerCase (trim raw)) = false ->
      (exists tok, In tok (tokensOf raw) /\ tok <> "and" /\ numberWord tok = None) ->
      normalizeToNumberOrString (VString raw) = Str (toLowerCase (trim raw)))
  /\ normalizeToNumberOrString (VString "twenty dollars") = Str "twenty dollars".
Proof.
  split; [ | vm_compute; reflexivity ].
  intros raw Hnum Htok. unfold tokensOf in Htok.
  unfold normalizeToNumberOrString. cbn [ToString].
  unfold parsesAsNumber in Hnum. rewrite Hnum.
  pose proof (parseParts_unrecognized _ Htok (Num 0) (Num 0)) as Hflag.
  destruct (split (toLowerCase (trim raw))) as [ | p rest]; [reflexivity | ].
  destruct p as [ | c p'].
  - destruct rest; [reflexivity | ]. now apply normalize_fallback.
  - now apply normalize_fallback.
Qed.

Lemma normalize_unrecognized_token_witness :
  normalizeToNumberOrString (VString " Twenty Dollars ") = Str "twenty dollars".
Proof.
  apply (proj1 normalize_unrecognized_token_keeps_text " Twenty Dollars ").
  - vm_compute; reflexivity.
  - exists "dollars". split; [ | split ].
    + vm_compute. tauto.
    + discriminate.
    + vm_compute; reflexivity.
Defined.

(** The claim C6 as it is stated fails on a text that is itself numeric:
    the only piece of "12" is neither [and] nor a number word, and the
    result is the number 12, not the text "12". *)
Lemma numeric_text_is_not_kept_as_text :
  tokensOf "12" = ["12"]
  /\ String.eqb "12" "and" = false
  /\ wordValue "12" = None
  /\ normalizeToNumberOrString (VString "12") = Num 12
  /\ strictEquals (normalizeToNumberOrString (VString "12")) (Str "12") = false.
Proof.
  repeat split; vm_compute; reflexivity.
Qed.

(* ================================================================== *)
(** ** Properties of parseInt *)

Lemma readDigits_uint_acc (d : Decimal.uint) :
  forall (acc : positive) (cnt : nat),
    readDigits 10 (NilEmpty.string_of_uint d) (Zpos acc) cnt
    = (Zpos (Pos.of_uint_acc d acc),
       (cnt + String.length (NilEmpty.string_of_uint d))%nat, "").
Proof.
  induction d; intros acc cnt;
    cbn [NilEmpty.string_of_uint readDigits Pos.of_uint_acc String.length].
  1: now rewrite Nat.add_0_r.
  all: change (digitValue _) with (Some 0%Z) || change (digitValue _) with (Some 1%Z)
       || change (digitValue _) with (Some 2%Z) || change (digitValue _) with (Some 3%Z)
       || change (digitValue _) with (Some 4%Z) || change (digitValue _) with (Some 5%Z)
       || change (digitValue _) with (Some 6%Z) || change (digitValue _) with (Some 7%Z)
       || change (digitValue _) with (Some 8%Z) || change (digitValue _) with (Some 9%Z).
  all: cbn [Z.ltb Z.compare Pos.compare Pos.compare_cont].
  all: rewrite <- Nat.add_succ_comm.
  all: rewrite <- IHd; f_equal; lia.
Qed.

Lemma readDigits_uint (d : Decimal.uint) :
  forall cnt : nat,
    readDigits 10 (NilEmpty.string_of_uint d) 0 cnt
    = (Z.of_N (Pos.of_uint d),
       (cnt + String.length (NilEmpty.string_of_uint d))%nat, "").
Proof.
  induction d; intros cnt;
    cbn [NilEmpty.string_of_uint readDigits Pos.of_uint String.length].
  1: now rewrite Nat.add_0_r.
  1: { change (digitValue "0") with (Some 0%Z). cbn [Z.ltb Z.compare].
       rewrite <- Nat.add_succ_comm. apply IHd. }
  all: change (digitValue _) with (Some 1%Z)
       || change (digitValue _) with (Some 2%Z) || change (digitValue _) with (Some 3%Z)
       || change (digitValue _) with (Some 4%Z) || change (digitValue _) with (Some 5%Z)
       || change (digitValue _) with (Some 6%Z) || change (digitValue _) with (Some 7%Z)
       || change (digitValue _) with (Some 8%Z) || change (digitValue _) with (Some 9%Z).
  all: cbn [Z.ltb Z.compare Pos.compare Pos.compare_cont Z.mul Z.add].
  all: rewrite <- Nat.add_succ_comm.
  all: apply readDigits_uint_acc.
Qed.

Lemma ofN_uint (n : N) : ofN n = NilEmpty.string_of_uint (N.to_uint n).
Proof.
  unfold ofN, NilZero.string_of_uint.
  destruct n as [ | p]; [reflexivity | ].
  cbn [N.to_uint]. pose proof (DecimalPos.Unsigned.to_uint_nonnil p) as H.
  now destruct (Pos.to_uint p).
Qed.

Lemma ofN_not_empty (n : N) : ofN n <> "".
Proof.
  rewrite ofN_uint. destruct n as [ | p]; [discriminate | ].
  cbn [N.to_uint]. pose proof (DecimalPos.Unsigned.to_uint_nonnil p) as H.
  now destruct (Pos.to_uint p).
Qed.

(** Reading the decimal text of a number gives the number back. *)
Lemma readDigits_ofN (n : N) :
  exists c : nat, readDigits 10 (ofN n) 0 0 = (Z.of_N n, S c, "").
Proof.
  pose proof (ofN_not_empty n) as Hne.
  rewrite ofN_uint in *. rewrite readDigits_uint.
  change (Pos.of_uint (N.to_uint n)) with (N.of_uint (N.to_uint n)).
  rewrite DecimalN.Unsigned.of_to. cbn [Nat.add].
  destruct (NilEmpty.string_of_uint (N.to_uint n)) as [ | c s]; [contradiction | ].
  now exists (String.length s).
Qed.

Lemma uint_allDigits (d : Decimal.uint) : allDigits (NilEmpty.string_of_uint d) = true.
Proof.
  induction d; cbn [NilEmpty.string_of_uint allDigits]; [reflexivity | .. ];
    now rewrite IHd.
Qed.

Lemma readInteger_decimal (c : ascii) (s : string) :
  allDigits (String c s) = true ->
  readInteger (String c s)
  = match readDigits 10 (String c s) 0 0 with
    | (v, S _, _) => Some v
    | _ => None
    end.
Proof.
  cbn [allDigits]. intros H. apply andb_true_iff in H. destruct H as [Hc Hs].
  unfold readInteger.
  destruct s as [ | c' s'].
  - destruct c as [[] [] [] [] [] [] [] []]; reflexivity.
  - cbn [allDigits] in Hs. apply andb_true_iff in Hs. destruct Hs as [Hc' _].
    assert (Hx : isOneOf c' "x" "X" = false).
    { destruct c' as [[] [] [] [] [] [] [] []]; try discriminate; reflexivity. }
    destruct c as [[] [] [] [] [] [] [] []]; try reflexivity.
    now rewrite Hx.
Qed.

Lemma parseInt_ofN (n : N) : parseInt (ofN n) = Some (Z.of_N n).
Proof.
  destruct (readDigits_ofN n) as [c Hread].
  pose proof (ofN_not_empty n) as Hne.
  pose proof (uint_allDigits (N.to_uint n)) as Hall. rewrite <- ofN_uint in Hall.
  destruct (ofN n) as [ | a s]; [contradiction | ].
  assert (Hparse : parseInt (String a s) = readInteger (String a s)).
  { cbn [allDigits] in Hall. apply andb_true_iff in Hall. destruct Hall as [Ha _].
    unfold parseInt.
    destruct a as [[] [] [] [] [] [] [] []]; try discriminate; reflexivity. }
  now rewrite Hparse, (readInteger_decimal a s Hall), Hread.
Qed.

Lemma parseInt_decimalText (v : Z) : parseInt (decimalText v) = Some v.
Proof.
  unfold decimalText. destruct (Z.ltb_spec v 0) as [Hneg | Hpos].
  - pose proof (parseInt_ofN (Z.to_N (- v))) as H.
    destruct (readDigits_ofN (Z.to_N (- v))) as [c Hread].
    pose proof (ofN_not_empty (Z.to_N (- v))) as Hne.
    pose proof (uint_allDigits (N.to_uint (Z.to_N (- v)))) as Hall.
    rewrite <- ofN_uint in Hall.
    destruct (ofN (Z.to_N (- v))) as [ | a s]; [contradiction | ].
    unfold parseInt. cbn [trimStart]. change (isWhiteSpace "-") with false. cbn iota.
    rewrite (readInteger_decimal a s Hall), Hread. cbn [option_map].
    f_equal. lia.
  - rewrite parseInt_ofN. f_equal. lia.
Qed.

Lemma decimalText_not_empty (v : Z) : decimalText v <> "".
Proof.
  unfold decimalText. destruct (v <? 0)%Z; [discriminate | apply ofN_not_empty].
Qed.

(** Every bound of the specification is denoted by its field. *)
Lemma boundField_denotes (bound : option Z) : fieldDenotes (boundField bound) bound.
Proof.
  destruct bound as [v | ]; [ | reflexivity].
  split; [apply decimalText_not_empty | apply parseInt_decimalText].
Qed.

(* ================================================================== *)
(** ** Properties of filteredResponses *)

Section FilterProperties.

Variable DateTime : string -> option Z.
Variable endOfDay : Z -> option Z.

Lemma keepResponse_conjunction (form : Form) (f : Filters) (r : Response) :
  keepResponse DateTime endOfDay form f r
  = passesDateFrom DateTime f r && passesDateTo DateTime endOfDay f r
    && passesScore form f r && passesKeyword f r.
Proof.
  unfold keepResponse.
  destruct (passesDateFrom DateTime f r), (passesDateTo DateTime endOfDay f r),
    (passesScore form f r), (passesKeyword f r); reflexivity.
Qed.

Lemma fieldDenotes_truthy (field : string) (v : Z) :
  fieldDenotes field (Some v) -> truthy field = true /\ parseInt field = Some v.
Proof.
  intros [Hne Hv]. split; [now apply truthy_true | assumption].
Qed.

Lemma fieldDenotes_unset (field : string) :
  fieldDenotes field None -> truthy field = false.
Proof.
  simpl. now intros ->.
Qed.

(** The score test keeps exactly the responses within the bounds the two
    fields denote. *)
Lemma passesScore_withinBounds (form : Form) (f : Filters) (r : Response)
  (lo hi : option Z) :
  fieldDenotes (minScore f) lo ->
  fieldDenotes (maxScore f) hi ->
  passesScore form f r = withinBounds lo hi (score (calculateScore form r)).
Proof.
  intros Hlo Hhi. unfold passesScore, withinBounds.
  destruct lo as [lo | ], hi as [hi | ].
  - destruct (fieldDenotes_truthy _ _ Hlo) as [-> ->].
    destruct (fieldDenotes_truthy _ _ Hhi) as [-> ->].
    cbn [orb andb scoreBelow scoreAbove].
    rewrite (Z.leb_antisym _ lo), (Z.leb_antisym hi _).
    destruct (Z.of_nat _ <? lo)%Z, (hi <? Z.of_nat _)%Z; reflexivity.
  - destruct (fieldDenotes_truthy _ _ Hlo) as [-> ->].
    rewrite (fieldDenotes_unset _ Hhi).
    cbn [orb andb scoreBelow scoreAbove].
    rewrite (Z.leb_antisym _ lo).
    destruct (Z.of_nat _ <? lo)%Z; reflexivity.
  - rewrite (fieldDenotes_unset _ Hlo).
    destruct (fieldDenotes_truthy _ _ Hhi) as [-> ->].
    cbn [orb andb scoreBelow scoreAbove].
    rewrite (Z.leb_antisym hi _).
    destruct (hi <? Z.of_nat _)%Z; reflexivity.
  - rewrite (fieldDenotes_unset _ Hlo), (fieldDenotes_unset _ Hhi). reflexivity.
Qed.

(** The score test keeps exactly the responses within the bounds read
    from the two fields. *)
Lemma passesScore_readBound (form : Form) (f : Filters) (r : Response) :
  passesScore form f r
  = withinBounds (readBound (minScore f)) (readBound (maxScore f))
      (score (calculateScore form r)).
Proof.
  unfold passesScore, withinBounds, readBound.
  destruct (truthy (minScore f)), (truthy (maxScore f)); cbn [orb andb];
    try reflexivity.
  - destruct (parseInt (minScore f)) as [lo | ], (parseInt (maxScore f)) as [hi | ];
      cbn [scoreBelow scoreAbove];
      rewrite ?(Z.leb_antisym _ lo), ?(Z.leb_antisym hi _);
      repeat match goal with
             | |- context [(?a <? ?b)%Z] => destruct (a <? b)%Z
             end; reflexivity.
  - destruct (parseInt (minScore f)) as [lo | ]; cbn [scoreBelow];
      rewrite ?(Z.leb_antisym _ lo);
      repeat match goal with
             | |- context [(?a <? ?b)%Z] => destruct (a <? b)%Z
             end; reflexivity.
  - destruct (parseInt (maxScore f)) as [hi | ]; cbn [scoreAbove];
      rewrite ?(Z.leb_antisym hi _);
      repeat match goal with
             | |- context [(?a <? ?b)%Z] => destruct (a <? b)%Z
             end; reflexivity.
Qed.

Lemma filter_twice {A : Type} (p q : A -> bool) (l : list A) :
  filter p (filter q l) = filter (fun x => q x && p x) l.
Proof.
  induction l as [ | x l IH]; simpl; [reflexivity | ].
  destruct (q x); simpl; [destruct (p x) | ]; now rewrite IH.
Qed.

Lemma keepResponse_clearScoreBounds (form : Form) (f : Filters) (r : Response) :
  keepResponse DateTime endOfDay form (clearScoreBounds f) r
  = passesDateFrom DateTime f r && passesDateTo DateTime endOfDay f r
    && passesKeyword f r.
Proof.
  rewrite keepResponse_conjunction.
  change (passesScore form (clearScoreBounds f) r) with true.
  change (passesDateFrom DateTime (clearScoreBounds f) r)
    with (passesDateFrom DateTime f r).
  change (passesDateTo DateTime endOfDay (clearScoreBounds f) r)
    with (passesDateTo DateTime endOfDay f r).
  change (passesKeyword (clearScoreBounds f) r) with (passesKeyword f r).
  now rewrite andb_true_r.
Qed.

(** Inverted bounds reject every response. *)
Lemma passesScore_inverted (form : Form) (f : Filters) (r : Response) (lo hi : Z) :
  fieldDenotes (minScore f) (Some lo) ->
  fieldDenotes (maxScore f) (Some hi) ->
  (hi < lo)%Z ->
  passesScore form f r = false.
Proof.
  intros Hlo Hhi Hinv.
  rewrite (passesScore_withinBounds form f r _ _ Hlo Hhi).
  unfold withinBounds. apply andb_false_iff.
  destruct (Z.leb_spec lo (Z.of_nat (score (calculateScore form r)))); [right | now left].
  apply Z.leb_gt. lia.
Qed.

End FilterProperties.

(** C3, as amended.  A score bound is set when its field is not empty,
    and it is the integer [parseInt] reads from the text of the field: the
    filtered list is the list filtered without score bounds, restricted to
    the scores that are not below the minimum read and not above the
    maximum read.  The empty field gives no bound, the decimal text of an
    integer gives that integer, the value 0 included; a fraction is cut to
    its integer part, an exponent is not read, and a text that starts with
    no digit gives no bound.  A maximum of 0 removes a response that earned
    1 point, which no maximum keeps. *)
Theorem score_bounds_filter_exactly :
  (forall (DateTime : string -> option Z) (endOfDay : Z -> option Z)
          (form : Form) (rs : list Response) (f : Filters),
      filteredResponses DateTime endOfDay (Some form) rs f
      = filter (fun r => withinBounds (readBound (minScore f)) (readBound (maxScore f))
                           (score (calculateScore form r)))
          (filteredResponses DateTime endOfDay (Some form) rs (clearScoreBounds f)))
  /\ readBound "" = None
  /\ (forall v : Z, readBound (decimalText v) = Some v)
  /\ readBound "0.9" = Some 0%Z
  /\ readBound "1e1" = Some 1%Z
  /\ readBound ".5" = None
  /\ filteredResponses noClock noCalendar (Some oneQuestionForm)
       [answering [("q1", VString "eight")]] (scoreFilter "" "0") = []
  /\ filteredResponses noClock noCalendar (Some oneQuestionForm)
       [answering [("q1", VString "eight")]] (scoreFilter "0" "")
     = [answering [("q1", VString "eight")]]
  /\ filteredResponses noClock noCalendar (Some oneQuestionForm)
       [answering [("q1", VString "eight")]] (scoreFilter "" "")
     = [answering [("q1", VString "eight")]].
Proof.
  split; [ | split; [reflexivity | split; [ | repeat split; vm_compute; reflexivity ] ] ].
  - intros DateTime endOfDay form rs f. unfold filteredResponses.
    rewrite filter_twice. apply filter_ext. intros r.
    rewrite keepResponse_conjunction, keepResponse_clearScoreBounds.
    rewrite passesScore_readBound.
    destruct (passesDateFrom DateTime f r), (passesDateTo DateTime endOfDay f r),
      (passesKeyword f r), (withinBounds _ _ _); reflexivity.
  - intros v. unfold readBound.
    now rewrite (truthy_true _ (decimalText_not_empty v)), parseInt_decimalText.
Qed.

(** The claim C3 as it is stated fails on a bound that is no whole number.
    With the minimum 0.9 a response that earned 0 points is below the set
    minimum and is kept; with the maximum .5 a response that earned 1 point
    is above the set maximum and is kept. *)
Lemma fractional_score_bounds_are_not_applied_as_set :
  score (calculateScore oneQuestionForm (answering [("q1", VString "seven")])) = 0
  /\ PrimFloat.ltb (ofNat 0) (fieldNumber "0.9") = true
  /\ filteredResponses noClock noCalendar (Some oneQuestionForm)
       [answering [("q1", VString "seven")]] (scoreFilter "0.9" "")
     = [answering [("q1", VString "seven")]]
  /\ score (calculateScore oneQuestionForm (answering [("q1", VString "eight")])) = 1
  /\ PrimFloat.ltb (fieldNumber ".5") (ofNat 1) = true
  /\ filteredResponses noClock noCalendar (Some oneQuestionForm)
       [answering [("q1", VString "eight")]] (scoreFilter "" ".5")
     = [answering [("q1", VString "eight")]].
Proof.
  repeat split; vm_compute; reflexivity.
Qed.

(** C5, as amended.  When both score bounds are set and the integer
    [parseInt] reads from the minimum exceeds the one it reads from the
    maximum, the filter returns the empty list, for every form, response
    list and other criteria: nothing is validated and nothing fails.  This
    holds for every pair of inverted whole numbers written in decimal. *)
Theorem inverted_score_bounds_filter_everything :
  (forall (DateTime : string -> option Z) (endOfDay : Z -> option Z)
          (selectedForm : option Form) (rs : list Response) (f : Filters) (lo hi : Z),
      fieldDenotes (minScore f) (Some lo) ->
      fieldDenotes (maxScore f) (Some hi) ->
      (hi < lo)%Z ->
      filteredResponses DateTime endOfDay selectedForm rs f = [])
  /\ (forall (DateTime : string -> option Z) (endOfDay : Z -> option Z)
             (selectedForm : option Form) (rs : list Response) (f : Filters) (lo hi : Z),
         minScore f = decimalText lo ->
         maxScore f = decimalText hi ->
         (hi < lo)%Z ->
         filteredResponses DateTime endOfDay selectedForm rs f = []).
Proof.
  assert (Hgeneral :
    forall (DateTime : string -> option Z) (endOfDay : Z -> option Z)
           (selectedForm : option Form) (rs : list Response) (f : Filters) (lo hi : Z),
      fieldDenotes (minScore f) (Some lo) ->
      fieldDenotes (maxScore f) (Some hi) ->
      (hi < lo)%Z ->
      filteredResponses DateTime endOfDay selectedForm rs f = []).
  { intros DateTime endOfDay [form | ] rs f lo hi Hlo Hhi Hinv; [ | reflexivity].
    unfold filteredResponses.
    induction rs as [ | r rs IH]; [reflexivity | ].
    cbn [filter]. rewrite keepResponse_conjunction.
    rewrite (passesScore_inverted form f r lo hi Hlo Hhi Hinv).
    rewrite andb_false_r. cbn [andb]. exact IH. }
  split; [exact Hgeneral | ].
  intros DateTime endOfDay selectedForm rs f lo hi Hlo Hhi Hinv.
  apply (Hgeneral DateTime endOfDay selectedForm rs f lo hi); [ | | exact Hinv].
  - rewrite Hlo. apply (boundField_denotes (Some lo)).
  - rewrite Hhi. apply (boundField_denotes (Some hi)).
Qed.

Lemma inverted_score_bounds_witness :
  filteredResponses noClock noCalendar (Some oneQuestionForm)
    [answering [("q1", VString "eight")]; answering [("q1", VString "seven")]]
    (scoreFilter "1" "0") = [].
Proof.
  apply (proj1 inverted_score_bounds_filter_everything noClock noCalendar
           (Some oneQuestionForm) _ (scoreFilter "1" "0") 1%Z 0%Z).
  - split; [discriminate | reflexivity].
  - split; [discriminate | reflexivity].
  - reflexivity.
Defined.

(** The claim C5 as it is stated fails on bounds that are inverted in
    the part [parseInt] does not read.  The minimum 0.9 exceeds the maximum
    0.5, both read as 0 and a response that earned 0 points is kept; the
    minimum 1e1, which is 10, exceeds the maximum 5, it reads as 1 and a
    response that earned 1 point is kept. *)
Lemma inverted_fractional_bounds_keep_a_response :
  truthy "0.9" = true /\ truthy "0.5" = true
  /\ PrimFloat.ltb (fieldNumber "0.5") (fieldNumber "0.9") = true
  /\ filteredResponses noClock noCalendar (Some oneQuestionForm)
       [answering [("q1", VString "seven")]] (scoreFilter "0.9" "0.5")
     = [answering [("q1", VString "seven")]]
  /\ PrimFloat.ltb (fieldNumber "5") (fieldNumber "1e1") = true
  /\ filteredResponses noClock noCalendar (Some oneQuestionForm)
       [answering [("q1", VString "eight")]] (scoreFilter "1e1" "5")
     = [answering [("q1", VString "eight")]].
Proof.
  repeat split; vm_compute; reflexivity.
Qed.

(* ================================================================== *)
(** ** Properties of getAnalytics: the pass rate *)

Lemma tally_passingCount (form : Form) (rs : list Response) (t : Tally) :
  passingCount (fold_left (tallyResponse form) rs t)
  = passingCount t + List.length (passing form rs).
Proof.
  revert t. induction rs as [ | r rs IH]; intros t; cbn [fold_left].
  - cbn. lia.
  - rewrite IH. unfold passing. cbn [filter tallyResponse passingCount].
    destruct (passes (calculateScore form r)); cbn [List.length]; lia.
Qed.

(** What [getAnalytics] computes for the pass rate.  For a non-empty
    response list, a response passes exactly when it has gradable points
    and the binary64 quotient of its earned by its gradable points is at
    least 0.5, so never with no gradable question; the reported pass rate
    is [Math.round] of the binary64 product
    [(passingCount / totalResponses) * 100]; four responses at 100%, 60%,
    40% and 0% give 50. *)
Theorem pass_rate_of_analytics :
  (forall (form : Form) (rs : list Response),
      rs <> [] ->
      exists a : Analytics,
        getAnalytics (Some form) rs = Some a
        /\ totalResponses a = List.length rs
        /\ passingRate a
           = Math_round
               (PrimFloat.mul
                  (PrimFloat.div (ofNat (List.length (passing form rs)))
                                 (ofNat (List.length rs)))
                  100))
  /\ (forall s : Score,
         passes s = true <->
         0 < total s /\
         PrimFloat.leb 0.5 (PrimFloat.div (ofNat (score s)) (ofNat (total s))) = true)
  /\ (forall s : Score, total s = 0 -> passes s = false)
  /\ map (calculateScore fiveQuestionForm) fourResponses
     = [ {| score := 5; total := 5 |}; {| score := 3; total := 5 |};
         {| score := 2; total := 5 |}; {| score := 0; total := 5 |} ]
  /\ option_map passingRate (getAnalytics (Some fiveQuestionForm) fourResponses)
     = Some 50%float.
Proof.
  split; [ | split; [ | split; [ | split; vm_compute; reflexivity ] ] ].
  - intros form rs Hne. unfold getAnalytics.
    destruct rs as [ | r rs]; [contradiction | ].
    cbn [List.length Nat.eqb].
    eexists. split; [reflexivity | ]. split; [reflexivity | ].
    cbn [passingRate]. unfold percentOf.
    rewrite tally_passingCount. reflexivity.
  - intros s. unfold passes. rewrite andb_true_iff, Nat.ltb_lt. reflexivity.
  - intros s H. unfold passes. now rewrite H.
Qed.

Lemma pass_rate_witness :
  exists a : Analytics,
    getAnalytics (Some fiveQuestionForm) fourResponses = Some a
    /\ totalResponses a = 4
    /\ passingRate a
       = Math_round
           (PrimFloat.mul
              (PrimFloat.div
                 (ofNat (List.length (passing fiveQuestionForm fourResponses)))
                 (ofNat 4))
              100).
Proof.
  apply (proj1 pass_rate_of_analytics fiveQuestionForm fourResponses).
  discriminate.
Defined.

(** C8.  The pass rate the source reports is not always the rounded
    percentage [round(100 * passingCount / totalResponses)] it is meant to
    be.  Of forty responses 23 pass; the exact percentage 57.5 rounds to
    58, and the source reports 57: it divides before it multiplies, and
    the binary64 product [(23 / 40) * 100] lies below 57.5.  Multiplying
    first, [Math.round(100 * 23 / 40)], gives 58. *)
Lemma pass_rate_is_not_the_exact_rounding :
  List.length fortyResponses = 40
  /\ List.length (passing oneQuestionForm fortyResponses) = 23
  /\ exactPercent 23 40 = 58%Z
  /\ option_map passingRate (getAnalytics (Some oneQuestionForm) fortyResponses)
     = Some 57%float
  /\ PrimFloat.ltb (PrimFloat.mul (PrimFloat.div (ofNat 23) (ofNat 40)) 100) 57.5 = true
  /\ Math_round (PrimFloat.div (PrimFloat.mul 100 (ofNat 23)) (ofNat 40)) = 58%float.
Proof.
  repeat split; vm_compute; reflexivity.
Qed.

(* ================================================================== *)
(** ** Properties of getAnalytics: the answer-frequency table *)

(** *** Own properties *)

Lemma ownProperty_setOwn {A : Type} (o : OwnProperties A) (k k' : string) (v : A) :
  ownProperty (setOwn o k v) k'
  = if String.eqb k k' then Some v else ownProperty o k'.
Proof.
  induction o as [ | [k0 x] o IH]; cbn [setOwn ownProperty].
  - destruct (String.eqb k k'); reflexivity.
  - destruct (String.eqb_spec k0 k) as [-> | Hne]; cbn [ownProperty].
    + destruct (String.eqb k k'); reflexivity.
    + rewrite IH. destruct (String.eqb_spec k0 k') as [-> | _]; [ | reflexivity].
      destruct (String.eqb_spec k k') as [-> | _]; [contradiction | reflexivity].
Qed.

Lemma ownProperty_map_absent {A : Type} (g : string -> A) (l : list string) (k : string) :
  ~ In k l -> ownProperty (map (fun k' => (k', g k')) l) k = None.
Proof.
  induction l as [ | k0 l IH]; intros Hin; cbn [map ownProperty]; [reflexivity | ].
  destruct (String.eqb_spec k0 k) as [-> | _].
  - destruct Hin. now left.
  - apply IH. intros H. apply Hin. now right.
Qed.

Lemma ownProperty_map_present {A : Type} (g : string -> A) (l : list string) (k : string) :
  In k l -> ownProperty (map (fun k' => (k', g k')) l) k = Some (g k).
Proof.
  induction l as [ | k0 l IH]; intros Hin; [destruct Hin | ].
  cbn [map ownProperty].
  destruct (String.eqb_spec k0 k) as [-> | Hne]; [reflexivity | ].
  apply IH. destruct Hin; [contradiction | assumption].
Qed.

Lemma setOwn_map_absent {A : Type} (g : string -> A) (l : list string) (k : string) (v : A) :
  ~ In k l ->
  setOwn (map (fun k' => (k', g k')) l) k v
  = map (fun k' => (k', g k')) l ++ [(k, v)].
Proof.
  induction l as [ | k0 l IH]; intros Hin; cbn [map setOwn app]; [reflexivity | ].
  destruct (String.eqb_spec k0 k) as [-> | _].
  - destruct Hin. now left.
  - rewrite IH; [reflexivity | ]. intros H. apply Hin. now right.
Qed.

Lemma setOwn_map_present {A : Type} (g : string -> A) (l : list string) (k : string) (v : A) :
  NoDup l -> In k l ->
  setOwn (map (fun k' => (k', g k')) l) k v
  = map (fun k' => (k', if String.eqb k' k then v else g k')) l.
Proof.
  induction 1 as [ | k0 l Hnot Hnd IH]; intros Hin; [destruct Hin | ].
  cbn [map setOwn].
  destruct (String.eqb_spec k0 k) as [-> | Hne].
  - f_equal. apply map_ext_in. intros k' Hk'.
    destruct (String.eqb_spec k' k) as [-> | _]; [contradiction | reflexivity].
  - f_equal. apply IH. destruct Hin; [contradiction | assumption].
Qed.

(** *** Keys in order of first occurrence *)

Lemma firstSeen_In (toks : list string) (k : string) :
  In k (firstSeen toks) <-> In k toks.
Proof.
  induction toks as [ | k0 toks IH]; cbn [firstSeen]; [tauto | ].
  cbn [In]. rewrite filter_In, IH.
  destruct (String.eqb_spec k k0) as [-> | Hne]; cbn [negb].
  - intuition discriminate.
  - intuition congruence.
Qed.

Lemma firstSeen_NoDup (toks : list string) : NoDup (firstSeen toks).
Proof.
  induction toks as [ | k0 toks IH]; cbn [firstSeen]; constructor.
  - rewrite filter_In. intros [_ H]. now rewrite String.eqb_refl in H.
  - now apply NoDup_filter.
Qed.

Lemma firstSeen_snoc (toks : list string) (k : string) :
  firstSeen (toks ++ [k])
  = if in_dec string_dec k toks then firstSeen toks else firstSeen toks ++ [k].
Proof.
  induction toks as [ | k0 toks IH]; cbn [app firstSeen].
  - reflexivity.
  - rewrite IH.
    destruct (in_dec string_dec k (k0 :: toks)) as [Hin | Hout];
      destruct (in_dec string_dec k toks) as [Hin' | Hout']; cbn [app].
    + reflexivity.
    + assert (k0 = k) as -> by (destruct Hin; [assumption | contradiction]).
      rewrite filter_app. cbn [filter]. rewrite String.eqb_refl. cbn [negb].
      now rewrite app_nil_r.
    + destruct Hout. now right.
    + rewrite filter_app. cbn [filter].
      destruct (String.eqb_spec k k0) as [-> | _]; [ | reflexivity].
      destruct Hout. now left.
Qed.

Lemma occurrences_snoc (toks : list string) (k k' : string) :
  occurrences (toks ++ [k]) k'
  = occurrences toks k' + (if String.eqb k k' then 1 else 0).
Proof.
  induction toks as [ | k0 toks IH]; cbn [app occurrences]; [lia | ].
  rewrite IH. lia.
Qed.

Lemma occurrences_absent (toks : list string) (k : string) :
  ~ In k toks -> occurrences toks k = 0.
Proof.
  induction toks as [ | k0 toks IH]; intros Hout; cbn [occurrences]; [reflexivity | ].
  destruct (String.eqb_spec k0 k) as [-> | _].
  - destruct Hout. now left.
  - rewrite IH; [reflexivity | ]. intros H. apply Hout. now right.
Qed.

(** *** The table that the counting loop builds *)

Lemma countKey_snoc_law (toks : list string) (k : string) :
  objectPrototypeMember k = None ->
  countKey (map asCount (tallied toks)) k = map asCount (tallied (toks ++ [k])).
Proof.
  intros Hk. unfold countKey, setCount.
  assert (Hproto : String.eqb k "__proto__" = false).
  { destruct (String.eqb_spec k "__proto__") as [-> | _]; [discriminate | reflexivity]. }
  rewrite Hproto. unfold tallied. rewrite !map_map. cbn [asCount fst snd].
  unfold getProperty. rewrite firstSeen_snoc.
  destruct (in_dec string_dec k toks) as [Hin | Hout].
  - rewrite (ownProperty_map_present (fun k' => Count (occurrences toks k'))).
    2: now apply firstSeen_In.
    cbn [incremented].
    rewrite (setOwn_map_present (fun k' => Count (occurrences toks k'))).
    2: apply firstSeen_NoDup. 2: now apply firstSeen_In.
    apply map_ext. intros k'. rewrite occurrences_snoc.
    rewrite (String.eqb_sym k' k).
    destruct (String.eqb_spec k k') as [-> | _];
      now rewrite ?Nat.add_1_r, ?Nat.add_0_r.
  - rewrite (ownProperty_map_absent (fun k' => Count (occurrences toks k'))).
    2: now rewrite firstSeen_In.
    rewrite Hk. cbn [incremented].
    rewrite (setOwn_map_absent (fun k' => Count (occurrences toks k'))).
    2: now rewrite firstSeen_In.
    rewrite map_app. cbn [map]. f_equal.
    + apply map_ext_in. intros k' Hk'. rewrite occurrences_snoc.
      destruct (String.eqb_spec k k') as [-> | _]; [ | now rewrite Nat.add_0_r].
      apply (proj1 (firstSeen_In _ _)) in Hk'. contradiction.
    + rewrite occurrences_snoc, String.eqb_refl, (occurrences_absent _ _ Hout).
      reflexivity.
Qed.

Lemma countKey_tallied (toks : list string) :
  (forall k, In k toks -> objectPrototypeMember k = None) ->
  fold_left countKey toks [] = map asCount (tallied toks).
Proof.
  induction toks as [ | k toks IH] using rev_ind; intros Hall; [reflexivity | ].
  rewrite fold_left_app. cbn [fold_left].
  rewrite IH.
  - apply countKey_snoc_law. apply Hall, in_or_app. right. now left.
  - intros k' Hk'. apply Hall, in_or_app. now left.
Qed.

Lemma countAnswer_counts (q : Question) (raws : list string) (st : QuestionStats) :
  counts (fold_left (countAnswer q) raws st)
  = fold_left countKey (map (countingKey q) raws) (counts st).
Proof.
  revert st. induction raws as [ | a raws IH]; intros st; cbn [fold_left map]; [reflexivity | ].
  now rewrite IH.
Qed.

(** *** The table of one question among the tables of the form *)

Lemma readStats_writeStats (stats : StatsObject) (k k' : string) (v : QuestionStats) :
  readStats (writeStats stats k v) k'
  = if String.eqb k k' then Some v else readStats stats k'.
Proof.
  unfold readStats, writeStats.
  destruct (String.eqb_spec k "__proto__") as [-> | Hk];
    cbn [ownTables prototypeTable].
  - destruct (String.eqb_spec k' "__proto__") as [-> | Hk'].
    + now rewrite String.eqb_refl.
    + now rewrite (proj2 (String.eqb_neq "__proto__" k')) by congruence.
  - destruct (String.eqb_spec k' "__proto__") as [-> | Hk'].
    + now rewrite (proj2 (String.eqb_neq k "__proto__")) by congruence.
    + apply ownProperty_setOwn.
Qed.

Lemma countQuestion_other (r : Response) (stats : StatsObject) (q q' : Question) :
  id q' <> id q ->
  readStats (countQuestion r stats q') (id q) = readStats stats (id q).
Proof.
  intros Hne. unfold countQuestion.
  destruct (readStats stats (id q')); [ | reflexivity].
  rewrite readStats_writeStats.
  destruct (String.eqb_spec (id q') (id q)); [contradiction | reflexivity].
Qed.

Lemma countQuestion_same (r : Response) (stats : StatsObject)
  (q : Question) (st : QuestionStats) :
  readStats stats (id q) = Some st ->
  readStats (countQuestion r stats q) (id q)
  = Some (fold_left (countAnswer q) (answersToCount (getValue (answers r) (id q))) st).
Proof.
  intros H. unfold countQuestion. rewrite H, readStats_writeStats.
  now rewrite String.eqb_refl.
Qed.

Lemma countQuestions_absent (r : Response) (qs : list Question) (q : Question) :
  ~ In (id q) (map id qs) ->
  forall stats,
    readStats (fold_left (countQuestion r) qs stats) (id q)
    = readStats stats (id q).
Proof.
  induction qs as [ | q0 qs IH]; intros Hout stats; cbn [fold_left]; [reflexivity | ].
  cbn [map In] in Hout. rewrite IH by tauto.
  apply countQuestion_other. tauto.
Qed.

Lemma countQuestions_present (r : Response) (qs : list Question) (q : Question) :
  NoDup (map id qs) -> In q qs ->
  forall stats st,
    readStats stats (id q) = Some st ->
    readStats (fold_left (countQuestion r) qs stats) (id q)
    = Some (fold_left (countAnswer q) (answersToCount (getValue (answers r) (id q))) st).
Proof.
  induction qs as [ | q0 qs IH]; intros Hnd Hin stats st Hst; [destruct Hin | ].
  cbn [map] in Hnd. inversion Hnd as [ | x l Hnot Hnd']; subst.
  cbn [fold_left]. destruct Hin as [-> | Hin].
  - rewrite countQuestions_absent by assumption.
    now apply countQuestion_same.
  - apply IH; try assumption.
    rewrite countQuestion_other; [assumption | ].
    intros Heq. apply Hnot. rewrite Heq. now apply in_map.
Qed.

Lemma initialStats_absent (qs : list Question) (k : string) :
  ~ In k (map id qs) ->
  forall stats,
    readStats
      (fold_left (fun stats q => writeStats stats (id q) emptyStats) qs stats) k
    = readStats stats k.
Proof.
  induction qs as [ | q0 qs IH]; intros Hout stats; cbn [fold_left]; [reflexivity | ].
  cbn [map In] in Hout. rewrite IH by tauto. rewrite readStats_writeStats.
  destruct (String.eqb_spec (id q0) k); [tauto | reflexivity].
Qed.

Lemma initialStats_present (qs : list Question) (k : string) :
  In k (map id qs) ->
  forall stats,
    readStats
      (fold_left (fun stats q => writeStats stats (id q) emptyStats) qs stats) k
    = Some emptyStats.
Proof.
  induction qs as [ | q0 qs IH]; intros Hin stats; [destruct Hin | ].
  cbn [fold_left]. destruct (in_dec string_dec k (map id qs)) as [Hin' | Hout].
  - now apply IH.
  - rewrite initialStats_absent by assumption. rewrite readStats_writeStats.
    destruct Hin as [-> | Hin]; [now rewrite String.eqb_refl | contradiction].
Qed.

Lemma questionTokens_cons (q : Question) (r : Response) (rs : list Response) :
  questionTokens q (r :: rs)
  = map (countingKey q) (answersToCount (getValue (answers r) (id q)))
    ++ questionTokens q rs.
Proof. reflexivity. Qed.

(** After the loop over the responses, the table of a question holds the
    counts of its tokens, met in the order of the responses. *)
Lemma tally_question_counts (form : Form) (q : Question) (rs : list Response) :
  NoDup (map id (questions form)) -> In q (questions form) ->
  forall (t : Tally) (st0 : QuestionStats),
    readStats (tallyStats t) (id q) = Some st0 ->
    exists st,
      readStats (tallyStats (fold_left (tallyResponse form) rs t)) (id q) = Some st
      /\ counts st = fold_left countKey (questionTokens q rs) (counts st0).
Proof.
  intros Hnd Hin. induction rs as [ | r rs IH]; intros t st0 Hst0.
  - exists st0. split; [assumption | reflexivity].
  - cbn [fold_left]. rewrite questionTokens_cons, fold_left_app.
    rewrite <- countAnswer_counts.
    apply IH. cbn [tallyResponse tallyStats].
    now apply countQuestions_present.
Qed.

(** *** Object.entries on a table of numbers *)

Lemma insertByIndex_map {A B : Type} (F : string * A -> string * B)
  (i : N) (e : string * A) (l : list (N * (string * A))) :
  insertByIndex i (F e) (map (fun x => (fst x, F (snd x))) l)
  = map (fun x => (fst x, F (snd x))) (insertByIndex i e l).
Proof.
  induction l as [ | [j e'] l IH]; cbn [map insertByIndex fst snd]; [reflexivity | ].
  destruct (i <? j)%N; cbn [map fst snd]; [reflexivity | now rewrite IH].
Qed.

Lemma indexedEntries_map {A B : Type} (F : string * A -> string * B)
  (o : OwnProperties A) :
  (forall e, fst (F e) = fst e) ->
  indexedEntries (map F o) = map (fun x => (fst x, F (snd x))) (indexedEntries o).
Proof.
  intros HF. induction o as [ | [k v] o IH]; cbn [map indexedEntries]; [reflexivity | ].
  destruct (F (k, v)) as [k' v'] eqn:E.
  assert (k' = k) as -> by (specialize (HF (k, v)); now rewrite E in HF).
  destruct (arrayIndex k); [ | exact IH].
  rewrite IH, <- E. apply insertByIndex_map.
Qed.

Lemma filter_isNamed_map {A B : Type} (F : string * A -> string * B)
  (o : OwnProperties A) :
  (forall e, fst (F e) = fst e) ->
  filter isNamed (map F o) = map F (filter isNamed o).
Proof.
  intros HF. induction o as [ | e o IH]; cbn [map filter]; [reflexivity | ].
  assert (Hsame : isNamed (F e) = isNamed e) by (unfold isNamed; now rewrite HF).
  rewrite Hsame, IH. now destruct (isNamed e).
Qed.

Lemma objectEntries_map {A B : Type} (F : string * A -> string * B)
  (o : OwnProperties A) :
  (forall e, fst (F e) = fst e) ->
  objectEntries (map F o) = map F (objectEntries o).
Proof.
  intros HF. unfold objectEntries.
  rewrite (indexedEntries_map F o HF), (filter_isNamed_map F o HF).
  now rewrite map_app, !map_map.
Qed.

Lemma numericEntries_asCount (l : list (string * nat)) :
  numericEntries (map asCount l) = Some l.
Proof.
  induction l as [ | [k n] l IH]; cbn [map numericEntries asCount fst snd]; [reflexivity | ].
  now rewrite IH.
Qed.

(** On counts that are numbers the comparator is the order of the
    counts, it is consistent, and the sort is the sort by count. *)
Lemma compareCounts_numbers (n m : nat) :
  compareCounts (Count n) (Count m) = Nat.compare m n.
Proof. reflexivity. Qed.

Lemma consistentAt_numbers (n m k : nat) :
  consistentAt (Count n) (Count m) (Count k) = true.
Proof.
  unfold consistentAt. rewrite !compareCounts_numbers.
  destruct (Nat.compare_spec n n), (Nat.compare_spec m n), (Nat.compare_spec n m),
    (Nat.compare_spec k m), (Nat.compare_spec k n);
    cbn; try reflexivity; lia.
Qed.

Lemma consistent_numbers (l : list (string * nat)) :
  consistent (map snd (map asCount l)) = true.
Proof.
  unfold consistent. rewrite map_map.
  apply forallb_forall. intros a Ha. apply forallb_forall. intros b Hb.
  apply forallb_forall. intros c Hc.
  apply in_map_iff in Ha. destruct Ha as (ea & <- & _).
  apply in_map_iff in Hb. destruct Hb as (eb & <- & _).
  apply in_map_iff in Hc. destruct Hc as (ec & <- & _).
  apply consistentAt_numbers.
Qed.

Lemma insertEntry_numbers (e : string * nat) (l : list (string * nat)) :
  insertEntry (asCount e) (map asCount l) = map asCount (insertByCount e l).
Proof.
  induction l as [ | e' l IH]; cbn [map insertEntry insertByCount]; [reflexivity | ].
  cbn [asCount snd]. rewrite compareCounts_numbers.
  destruct (Nat.compare_spec (snd e') (snd e)) as [Heq | Hlt | Hgt];
    destruct (Nat.ltb_spec (snd e) (snd e')) as [Hlt' | Hge']; try lia;
    cbn [map]; try reflexivity.
  fold (asCount e'). now rewrite IH.
Qed.

Lemma sortEntries_numbers (l : list (string * nat)) :
  sortEntries (map asCount l) = map asCount (sortByCount l).
Proof.
  induction l as [ | e l IH]; cbn [map sortEntries sortByCount]; [reflexivity | ].
  now rewrite IH, insertEntry_numbers.
Qed.

Lemma sortedAnswers_numbers (st : QuestionStats) (t : list (string * nat)) :
  counts st = map asCount t ->
  sortedAnswers st = Some (map asCount (firstn 5 (sortByCount (objectEntries t)))).
Proof.
  intros H. unfold sortedAnswers. rewrite H.
  rewrite (objectEntries_map asCount) by reflexivity.
  now rewrite consistent_numbers, sortEntries_numbers, firstn_map.
Qed.

Lemma sortedAnswers_tallied (st : QuestionStats) (toks : list string) :
  counts st = map asCount (tallied toks) ->
  match sortedAnswers st with
  | Some listed => numericEntries listed
  | None => None
  end
  = Some (firstn 5 (sortByCount (objectEntries (tallied toks)))).
Proof.
  intros H. rewrite (sortedAnswers_numbers st _ H). apply numericEntries_asCount.
Qed.

(** *** Sorted lists *)

Section SortedLists.
Context {A : Type}.

Lemma StronglySorted_filter (R : A -> A -> Prop) (p : A -> bool) (l : list A) :
  StronglySorted R l -> StronglySorted R (filter p l).
Proof.
  induction 1 as [ | a l Hl IH Ha]; cbn [filter]; [constructor | ].
  destruct (p a); [ | exact IH].
  constructor; [exact IH | ].
  rewrite Forall_forall in *. intros x Hx. apply filter_In in Hx. now apply Ha.
Qed.

Lemma StronglySorted_weaken (R R' : A -> A -> Prop) (l : list A) :
  StronglySorted R l ->
  (forall x y, In x l -> In y l -> R x y -> R' x y) ->
  StronglySorted R' l.
Proof.
  induction 1 as [ | a l Hl IH Ha]; intros Himp; constructor.
  - apply IH. intros x y Hx Hy. apply Himp; now right.
  - rewrite Forall_forall in *. intros x Hx.
    apply Himp; [now left | now right | now apply Ha].
Qed.

Lemma StronglySorted_map {B : Type} (R : B -> B -> Prop) (f : A -> B) (l : list A) :
  StronglySorted (fun a b => R (f a) (f b)) l -> StronglySorted R (map f l).
Proof.
  induction 1 as [ | a l Hl IH Ha]; cbn [map]; constructor; [exact IH | ].
  rewrite Forall_forall in *. intros y Hy. apply in_map_iff in Hy.
  destruct Hy as [x [<- Hx]]. now apply Ha.
Qed.

Lemma StronglySorted_app (R : A -> A -> Prop) (l1 l2 : list A) :
  StronglySorted R l1 -> StronglySorted R l2 ->
  (forall x y, In x l1 -> In y l2 -> R x y) ->
  StronglySorted R (l1 ++ l2).
Proof.
  induction 1 as [ | a l Hl IH Ha]; intros H2 Hcross; cbn [app]; [exact H2 | ].
  constructor.
  - apply IH; [exact H2 | ]. intros x y Hx Hy. apply Hcross; [now right | exact Hy].
  - rewrite Forall_forall in *. intros x Hx. apply in_app_or in Hx.
    destruct Hx as [Hx | Hx]; [now apply Ha | apply Hcross; [now left | exact Hx]].
Qed.
End SortedLists.

(** *** The stable sort by count *)

Lemma insertByCount_perm (e : string * nat) (l : list (string * nat)) :
  Permutation (insertByCount e l) (e :: l).
Proof.
  induction l as [ | e' l IH]; cbn [insertByCount]; [reflexivity | ].
  destruct (snd e <? snd e')%nat; [ | reflexivity].
  rewrite IH. apply perm_swap.
Qed.

Lemma sortByCount_perm (l : list (string * nat)) : Permutation (sortByCount l) l.
Proof.
  induction l as [ | e l IH]; cbn [sortByCount]; [reflexivity | ].
  rewrite insertByCount_perm. now constructor.
Qed.

Section StableSort.
(** An order [before] on the entries, in which the input is sorted. *)
Variable before : string * nat -> string * nat -> Prop.

Lemma insertByCount_sorted (e : string * nat) (l : list (string * nat)) :
  StronglySorted (byCountThen before) l ->
  Forall (before e) l ->
  StronglySorted (byCountThen before) (insertByCount e l).
Proof.
  induction 1 as [ | e' l Hl IH He']; intros Hbefore; cbn [insertByCount].
  - repeat constructor.
  - inversion Hbefore as [ | x y Hee' Hel]; subst.
    destruct (Nat.ltb_spec (snd e) (snd e')) as [Hlt | Hge].
    + constructor; [now apply IH | ].
      apply (Permutation_Forall (Permutation_sym (insertByCount_perm e l))).
      constructor; [now left | exact He'].
    + constructor; [now constructor | ].
      constructor.
      * destruct (Nat.eq_dec (snd e) (snd e')) as [Heq | Hne];
          [right; now split | left; lia].
      * rewrite Forall_forall in *. intros x Hx.
        specialize (He' x Hx). specialize (Hel x Hx).
        destruct (Nat.eq_dec (snd e) (snd x)) as [Heq | Hne];
          [right; now split | left].
        destruct He' as [Hlt | [Heq _]]; lia.
Qed.

(** Sorting an input that is in [before] order puts the larger counts
    first and leaves equal counts in [before] order. *)
Lemma sortByCount_stable (l : list (string * nat)) :
  StronglySorted before l -> StronglySorted (byCountThen before) (sortByCount l).
Proof.
  induction 1 as [ | e l Hl IH He]; cbn [sortByCount]; [constructor | ].
  apply insertByCount_sorted; [exact IH | ].
  apply (Permutation_Forall (Permutation_sym (sortByCount_perm l))). exact He.
Qed.
End StableSort.

(** *** Object.entries: the order of the keys *)

Lemma arrayIndex_canonical (k : string) (i : N) :
  arrayIndex k = Some i -> ofN i = k.
Proof.
  unfold arrayIndex.
  destruct (readDigits 10 k 0 0) as [[v c] rest].
  destruct c; [discriminate | ]. destruct rest; [ | discriminate].
  destruct (String.eqb_spec (ofN (Z.to_N v)) k) as [E | _]; [ | discriminate].
  cbn [andb]. destruct (v <=? 4294967294)%Z; [ | discriminate].
  intros H. injection H as <-. exact E.
Qed.

Lemma insertByIndex_perm {A : Type} (i : N) (e : string * A) (l : list (N * (string * A))) :
  Permutation (insertByIndex i e l) ((i, e) :: l).
Proof.
  induction l as [ | [j e'] l IH]; cbn [insertByIndex]; [reflexivity | ].
  destruct (i <? j)%N; [reflexivity | ].
  rewrite IH. apply perm_swap.
Qed.

Lemma indexedEntries_perm {A : Type} (o : OwnProperties A) :
  Permutation (map snd (indexedEntries o)) (filter (fun e => negb (isNamed e)) o).
Proof.
  induction o as [ | [k v] o IH]; cbn [indexedEntries filter]; [reflexivity | ].
  unfold isNamed at 1. cbn [fst].
  destruct (arrayIndex k) as [i | ]; cbn [negb]; [ | exact IH].
  rewrite (Permutation_map snd (insertByIndex_perm i (k, v) (indexedEntries o))).
  cbn [map snd]. now constructor.
Qed.

Lemma filter_partition_perm {A : Type} (p : A -> bool) (l : list A) :
  Permutation (filter (fun x => negb (p x)) l ++ filter p l) l.
Proof.
  induction l as [ | x l IH]; cbn [filter]; [reflexivity | ].
  destruct (p x); cbn [negb app].
  - rewrite <- Permutation_middle. now constructor.
  - now constructor.
Qed.

Lemma objectEntries_perm {A : Type} (o : OwnProperties A) :
  Permutation (objectEntries o) o.
Proof.
  unfold objectEntries. rewrite indexedEntries_perm. apply filter_partition_perm.
Qed.

(** Every indexed entry carries the index of its key and comes from the
    object. *)
Lemma indexedEntries_sound {A : Type} (o : OwnProperties A) :
  Forall (fun x => arrayIndex (fst (snd x)) = Some (fst x) /\ In (snd x) o)
    (indexedEntries o).
Proof.
  induction o as [ | [k v] o IH]; cbn [indexedEntries]; [constructor | ].
  assert (IH' : Forall (fun x => arrayIndex (fst (snd x)) = Some (fst x)
                                 /\ In (snd x) ((k, v) :: o)) (indexedEntries o)).
  { eapply Forall_impl; [ | exact IH]. intros x [H1 H2]. split; [exact H1 | now right]. }
  destruct (arrayIndex k) as [i | ] eqn:Ei; [ | exact IH'].
  apply (Permutation_Forall (Permutation_sym (insertByIndex_perm i (k, v) _))).
  constructor; [ | exact IH']. split; [exact Ei | now left].
Qed.

Lemma insertByIndex_sorted {A : Type} (i : N) (e : string * A)
  (l : list (N * (string * A))) :
  StronglySorted (fun a b => (fst a < fst b)%N) l ->
  Forall (fun x => fst x <> i) l ->
  StronglySorted (fun a b => (fst a < fst b)%N) (insertByIndex i e l).
Proof.
  induction 1 as [ | [j e'] l Hl IH Hj]; intros Hne; cbn [insertByIndex].
  - repeat constructor.
  - inversion Hne as [ | x y Hji Hrest]; subst. cbn [fst] in Hji.
    destruct (N.ltb_spec i j) as [Hlt | Hge].
    + constructor; [now constructor | ].
      constructor; [exact Hlt | ].
      eapply Forall_impl; [ | exact Hj]. cbn [fst]. intros x Hx. lia.
    + constructor; [now apply IH | ].
      apply (Permutation_Forall (Permutation_sym (insertByIndex_perm i e l))).
      constructor; [cbn [fst]; lia | exact Hj].
Qed.

Lemma indexedEntries_sorted {A : Type} (o : OwnProperties A) :
  NoDup (map fst o) ->
  StronglySorted (fun a b => (fst a < fst b)%N) (indexedEntries o).
Proof.
  induction o as [ | [k v] o IH]; cbn [map fst indexedEntries]; intros Hnd; [constructor | ].
  inversion Hnd as [ | x l Hout Hnd']; subst.
  destruct (arrayIndex k) as [i | ] eqn:Ei; [ | now apply IH].
  apply insertByIndex_sorted; [now apply IH | ].
  pose proof (indexedEntries_sound o) as Hsound.
  rewrite Forall_forall in *. intros x Hx Heq.
  destruct (Hsound x Hx) as [Hidx Hin]. rewrite Heq in Hidx.
  apply Hout. rewrite <- (arrayIndex_canonical _ _ Ei), (arrayIndex_canonical _ _ Hidx).
  now apply in_map.
Qed.

(** *** First occurrences *)

Lemma firstSeen_sorted (toks : list string) :
  StronglySorted (fun a b => firstIndex toks a < firstIndex toks b) (firstSeen toks).
Proof.
  induction toks as [ | k toks IH]; cbn [firstSeen]; [constructor | ].
  constructor.
  - apply (StronglySorted_weaken (fun a b => firstIndex toks a < firstIndex toks b)).
    + now apply StronglySorted_filter.
    + intros x y Hx Hy Hlt. apply filter_In in Hx, Hy.
      destruct Hx as [_ Hx], Hy as [_ Hy]. cbn [firstIndex].
      rewrite (String.eqb_sym k x), (String.eqb_sym k y).
      destruct (String.eqb x k); [discriminate | ].
      destruct (String.eqb y k); [discriminate | ]. lia.
  - rewrite Forall_forall. intros x Hx. apply filter_In in Hx. destruct Hx as [_ Hx].
    cbn [firstIndex]. rewrite String.eqb_refl, (String.eqb_sym k x).
    destruct (String.eqb x k); [discriminate | lia].
Qed.

Lemma tallied_keys (toks : list string) : map fst (tallied toks) = firstSeen toks.
Proof.
  unfold tallied. rewrite map_map. cbn [fst]. apply map_id.
Qed.

Lemma filter_map_swap {A B : Type} (p : B -> bool) (f : A -> B) (l : list A) :
  filter p (map f l) = map f (filter (fun x => p (f x)) l).
Proof.
  induction l as [ | x l IH]; cbn [map filter]; [reflexivity | ].
  destruct (p (f x)); cbn [map]; now rewrite IH.
Qed.

Lemma isNamed_arrayIndex {A : Type} (e : string * A) :
  isNamed e = true -> arrayIndex (fst e) = None.
Proof.
  unfold isNamed. now destruct (arrayIndex (fst e)).
Qed.

(** The entries of the table of a token list come in the key order of the
    object: array indices ascending, then first occurrences. *)
Lemma objectEntries_tallied_sorted (toks : list string) :
  StronglySorted (entryBefore toks) (objectEntries (tallied toks)).
Proof.
  pose proof (indexedEntries_sound (tallied toks)) as Hsound.
  rewrite Forall_forall in Hsound.
  unfold objectEntries. apply StronglySorted_app.
  - assert (Hsorted : StronglySorted (fun a b => (fst a < fst b)%N)
                        (indexedEntries (tallied toks))).
    { apply indexedEntries_sorted. rewrite tallied_keys. apply firstSeen_NoDup. }
    apply StronglySorted_map.
    apply (StronglySorted_weaken _ _ _ Hsorted).
    intros x y Hx Hy Hlt. unfold entryBefore, keyBefore.
    destruct (Hsound x Hx) as [-> _]. destruct (Hsound y Hy) as [-> _]. exact Hlt.
  - unfold tallied. rewrite filter_map_swap. apply StronglySorted_map.
    apply (StronglySorted_weaken
             (fun a b => firstIndex toks a < firstIndex toks b)).
    + apply StronglySorted_filter, firstSeen_sorted.
    + intros x y Hx Hy Hlt. apply filter_In in Hx, Hy.
      destruct Hx as [_ Hx], Hy as [_ Hy].
      apply isNamed_arrayIndex in Hx, Hy. cbn [fst] in Hx, Hy.
      unfold entryBefore, keyBefore. cbn [fst]. now rewrite Hx, Hy.
  - intros x y Hx Hy. apply in_map_iff in Hx. destruct Hx as [x' [<- Hx']].
    apply filter_In in Hy. destruct Hy as [_ Hy]. apply isNamed_arrayIndex in Hy.
    destruct (Hsound x' Hx') as [Hidx _].
    unfold entryBefore, keyBefore. now rewrite Hidx, Hy.
Qed.

(** C4, as amended.  For a question of a form with distinct question ids
    and answers that name no member of [Object.prototype], the notable
    answers are the first five of a ranking of the distinct keys with their
    numbers of occurrences: a larger count comes first, and among equal
    counts the keys keep the order of the object's own keys, which is array
    indices (canonical decimal integers) in ascending numeric order and then
    the other keys in the order of their first occurrence over the
    responses.  So the texts "Rome" and "Paris", once each, stay in the order
    they were met. *)
Theorem notable_answers_ranking :
  (forall (form : Form) (rs : list Response) (q : Question),
      NoDup (map id (questions form)) ->
      In q (questions form) ->
      rs <> [] ->
      (forall k, In k (questionTokens q rs) -> objectPrototypeMember k = None) ->
      exists ranked : list (string * nat),
        notableAnswers form rs q = Some (firstn 5 ranked)
        /\ Permutation ranked (tallied (questionTokens q rs))
        /\ StronglySorted (rankedBefore (questionTokens q rs)) ranked)
  /\ notableAnswers cityForm
       [answering [("q1", VString "Rome")]; answering [("q1", VString "Paris")];
        answering [("q1", VString "Oslo")]; answering [("q1", VString "Oslo")]]
       cityQuestion
     = Some [("Oslo", 2); ("Rome", 1); ("Paris", 1)]
  /\ notableAnswers oneQuestionForm
       [answering [("q1", VString "8")]; answering [("q1", VString "eight")];
        answering [("q1", VString "7")]]
       (shortAnswer "8")
     = Some [("8", 2); ("7", 1)].
Proof.
  split; [ | split; vm_compute; reflexivity ].
  intros form rs q Hnd Hin Hne Hkeys.
  unfold notableAnswers, getAnalytics.
  destruct rs as [ | r rs]; [contradiction | ].
  cbn [List.length Nat.eqb questionStats].
  set (toks := questionTokens q (r :: rs)) in *.
  destruct (tally_question_counts form q (r :: rs) Hnd Hin
              {| totalScore := 0; passingCount := 0; tallyStats := initialStats form |}
              emptyStats) as [st [Hst Hcounts]].
  { cbn [tallyStats]. apply initialStats_present. now apply in_map. }
  rewrite Hst. fold toks in Hcounts. cbn [counts emptyStats] in Hcounts.
  rewrite (countKey_tallied toks Hkeys) in Hcounts.
  exists (sortByCount (objectEntries (tallied toks))). split; [ | split ].
  - now apply sortedAnswers_tallied.
  - rewrite sortByCount_perm. apply objectEntries_perm.
  - apply (sortByCount_stable (entryBefore toks)).
    apply objectEntries_tallied_sorted.
Qed.

Lemma notable_answers_witness :
  exists ranked : list (string * nat),
    notableAnswers cityForm
      [answering [("q1", VString "Rome")]; answering [("q1", VString "Paris")]]
      cityQuestion = Some (firstn 5 ranked)
    /\ Permutation ranked (tallied ["Rome"; "Paris"])
    /\ StronglySorted (rankedBefore ["Rome"; "Paris"]) ranked.
Proof.
  apply (proj1 notable_answers_ranking cityForm
           [answering [("q1", VString "Rome")]; answering [("q1", VString "Paris")]]
           cityQuestion).
  - repeat constructor. intros H; exact H.
  - left. reflexivity.
  - discriminate.
  - intros k Hk. cbn in Hk.
    destruct Hk as [<- | [<- | []]]; reflexivity.
Defined.

(** The claim C4 as it is stated fails on keys that are array indices: the
    answer "9" is met before the answer "8", each once, and "8" is listed
    before "9". *)
Lemma equal_counts_do_not_keep_encounter_order :
  questionTokens (shortAnswer "8")
    [answering [("q1", VString "9")]; answering [("q1", VString "8")]]
  = ["9"; "8"]
  /\ notableAnswers oneQuestionForm
       [answering [("q1", VString "9")]; answering [("q1", VString "8")]]
       (shortAnswer "8")
     = Some [("8", 1); ("9", 1)].
Proof.
  split; vm_compute; reflexivity.
Qed.

(* ================================================================== *)
(** ** The built-ins on sample values *)

(** [Number(s)] and [String(n)] on decimal, exponent, hexadecimal and
    non-numeric texts. *)
Lemma number_conversions_samples :
  map (fun s => Number_toString (StringToNumber s))
    ["8"; "08"; "8.0"; " 12 "; "1e3"; "0x1f"; "-5"; ".5"; "0.1"; "1e21";
     "0.0000001"; "123456789012345678901"; "abc"; "infinity"; "1 2"; ""]
  = ["8"; "8"; "8"; "12"; "1000"; "31"; "-5"; "0.5"; "0.1"; "1e+21";
     "1e-7"; "123456789012345680000"; "NaN"; "NaN"; "NaN"; "0"].
Proof. vm_compute. reflexivity. Qed.

(** [Math.round] rounds a half toward +infinity, and [toFixed] prints the
    nearest decimal. *)
Lemma rounding_samples :
  map Math_round [14.5; 57.5; 2.25; -0.5; -1.5; 50]%float
  = [15; 58; 2; -0; -1; 50]%float
  /\ map (fun x => toFixed x 1) [2.75; 0.25; 3; 0; 12.5]%float
     = ["2.8"; "0.3"; "3.0"; "0.0"; "12.5"].
Proof. split; vm_compute; reflexivity. Qed.

(** A token that names a member of [Object.prototype] is found by the
    lookup [numberWords[part]] and enters the arithmetic as text. *)
Lemma inherited_key_is_taken_for_a_number_word :
  numberWord "constructor" = Some (Str "function Object() { [native code] }")
  /\ normalizeToNumberOrString (VString "constructor")
     = Str "00function Object() { [native code] }"
  /\ normalizeToNumberOrString (VString "constructor foo") = Str "constructor foo".
Proof. repeat split; vm_compute; reflexivity. Qed.

(** [split], [trim] and [toLowerCase] on sample texts. *)
Lemma string_samples :
  map split ["one hundred-five"; "twenty - one"; "-a"; "a-"; ""; "--"]
  = [["one"; "hundred"; "five"]; ["twenty"; "one"]; [""; "a"]; ["a"; ""];
     [""]; [""; ""]]
  /\ trim "  Twenty One " = "Twenty One"
  /\ toLowerCase "Twenty-ONE 21" = "twenty-one 21".
Proof. repeat split; vm_compute; reflexivity. Qed.

(** Text beyond ASCII: the no-break space U+00A0 is white space for
    [trim], for [Number] and for the separators of [split]; [toLowerCase]
    maps the capital U with diaeresis, U+00DC, to U+00FC and leaves the
    multiplication sign U+00D7; the answer of capital letters is correct
    for the expected answer in small ones. *)
Lemma latin1_samples :
  normalizeToNumberOrString (VString (String (ascii_of_nat 160) "8")) = Num 8
  /\ split ("twenty" ++ String (ascii_of_nat 160) "one") = ["twenty"; "one"]
  /\ toLowerCase ("M" ++ String (ascii_of_nat 220) "NCHEN")
     = ("m" ++ String (ascii_of_nat 252) "nchen")%string
  /\ toLowerCase (String (ascii_of_nat 215) "") = String (ascii_of_nat 215) ""
  /\ checkAnswer (shortAnswer ("M" ++ String (ascii_of_nat 252) "nchen"))
       (VString ("M" ++ String (ascii_of_nat 220) "NCHEN")) = true.
Proof. repeat split; vm_compute; reflexivity. Qed.

(** The binary64 test [score / total >= 0.5] agrees with the exact test
    [total <= 2 * score] on every score out of at most 100 points. *)
Lemma passes_is_exact_up_to_100_points :
  forallb
    (fun t =>
       forallb
         (fun s =>
            Bool.eqb (passes {| score := s; total := t |})
                     ((0 <? t) && (t <=? 2 * s))%nat)
         (seq 0 (S t)))
    (seq 0 101)
  = true.
Proof. vm_compute. reflexivity. Qed.

(** Below forty responses the reported percentage is the exact rounding. *)
Lemma percentOf_is_exact_below_40 :
  forallb
    (fun n =>
       forallb
         (fun p => PrimFloat.eqb (percentOf (ofNat p) (ofNat n)) (ofZ (exactPercent p n)))
         (seq 0 (S n)))
    (seq 1 39)
  = true.
Proof. vm_compute. reflexivity. Qed.

(* ================================================================== *)
(** ** Properties of calculateScore *)

Lemma scoreStep_fold (response : Response) (qs : list Question) (acc : Score) :
  fold_left (scoreStep response) qs acc
  = {| score := score acc
                + List.length (filter (answeredCorrectly response)
                                 (filter hasCorrectAnswer qs));
       total := total acc + List.length (filter hasCorrectAnswer qs) |}.
Proof.
  revert acc. induction qs as [ | q qs IH]; intros [s t]; cbn [fold_left filter].
  - cbn. now rewrite !Nat.add_0_r.
  - rewrite IH. unfold scoreStep. destruct (hasCorrectAnswer q); [ | reflexivity].
    cbn [score total filter]. unfold answeredCorrectly at 2.
    destruct (checkAnswer q (getValue (answers response) (id q)));
      cbn [List.length]; f_equal; lia.
Qed.

(** The score counts the gradable questions, and among them the ones
    answered correctly. *)
Lemma calculateScore_counts (form : Form) (response : Response) :
  calculateScore form response
  = {| score := List.length (filter (answeredCorrectly response) (gradable form));
       total := List.length (gradable form) |}.
Proof.
  unfold calculateScore. rewrite scoreStep_fold. reflexivity.
Qed.

Lemma filter_length_full {A : Type} (p : A -> bool) (l : list A) :
  List.length (filter p l) = List.length l <-> Forall (fun x => p x = true) l.
Proof.
  induction l as [ | x l IH]; cbn [filter List.length].
  - split; [constructor | reflexivity].
  - pose proof (filter_length_le p l) as Hle. destruct (p x) eqn:Ex; cbn [List.length].
    + split.
      * intros H. constructor; [assumption | apply IH; lia].
      * intros H. inversion H; subst. f_equal. now apply IH.
    + split; [lia | ]. intros H. inversion H; subst. congruence.
Qed.

Lemma filter_length_none {A : Type} (p : A -> bool) (l : list A) :
  List.length (filter p l) = 0 <-> Forall (fun x => p x = false) l.
Proof.
  induction l as [ | x l IH]; cbn [filter List.length].
  - split; [constructor | reflexivity].
  - destruct (p x) eqn:Ex; cbn [List.length].
    + split; [discriminate | ]. intros H. inversion H; subst. congruence.
    + rewrite IH. split; [now constructor | intros H; now inversion H].
Qed.

(** X1. The total of a score is the number of questions with a non-empty
    expected answer, whatever the response holds, and the earned points
    never exceed it. *)
Theorem score_total_is_gradable_count :
  forall (form : Form) (response : Response),
    total (calculateScore form response) = List.length (gradable form)
    /\ score (calculateScore form response) <= total (calculateScore form response).
Proof.
  intros form response. rewrite calculateScore_counts. cbn [score total].
  split; [reflexivity | apply filter_length_le].
Qed.

(** X2. A response earns full marks exactly when every gradable question
    is answered correctly, and no point exactly when none is. *)
Theorem score_full_and_zero :
  forall (form : Form) (response : Response),
    (score (calculateScore form response) = total (calculateScore form response)
     <-> Forall (fun q => answeredCorrectly response q = true) (gradable form))
    /\ (score (calculateScore form response) = 0
        <-> Forall (fun q => answeredCorrectly response q = false) (gradable form)).
Proof.
  intros form response. rewrite calculateScore_counts. cbn [score total].
  split; [apply filter_length_full | apply filter_length_none].
Qed.

Lemma getValue_absent (o : OwnProperties JsVal) (key : string) :
  ownProperty o key = None -> objectPrototypeMember key = None ->
  getValue o key = VUndefined.
Proof.
  intros Hown Hproto. unfold getValue, getProperty. now rewrite Hown, Hproto.
Qed.

(** X3. A response that holds no entry for any gradable question earns no
    point, provided no question id names a member of [Object.prototype]
    (a read of such a key finds the inherited member instead of nothing). *)
Theorem unanswered_response_scores_zero :
  forall (form : Form) (response : Response),
    (forall q, In q (gradable form) ->
               ownProperty (answers response) (id q) = None
               /\ objectPrototypeMember (id q) = None) ->
    score (calculateScore form response) = 0.
Proof.
  intros form response Hmissing. rewrite calculateScore_counts. cbn [score].
  apply filter_length_none, Forall_forall. intros q Hq.
  destruct (Hmissing q Hq) as [Hown Hproto].
  unfold answeredCorrectly. now rewrite (getValue_absent _ _ Hown Hproto).
Qed.

Lemma unanswered_response_witness :
  score (calculateScore mixedForm {| answers := []; submitted_at := None |}) = 0.
Proof.
  apply unanswered_response_scores_zero.
  intros q Hq. cbn in Hq.
  destruct Hq as [<- | [<- | []]]; split; reflexivity.
Defined.

(* ================================================================== *)
(** ** More properties of checkAnswer *)

(** X4. A multiple_choice question with a non-empty expected answer is
    answered correctly by the expected string itself and by nothing else:
    the comparison is verbatim, with no normalization. *)
Theorem multiple_choice_correct_iff_verbatim :
  forall (q : Question) (expected : string) (rawAnswer : JsVal),
    type q = "multiple_choice" ->
    correctAnswer q = Some expected ->
    expected <> "" ->
    (checkAnswer q rawAnswer = true <-> rawAnswer = VString expected).
Proof.
  intros q expected rawAnswer Hty Hexp Hne.
  unfold checkAnswer. rewrite Hexp, Hty, (truthy_true _ Hne). cbn [negb String.eqb].
  change (String.eqb "multiple_choice" "short_answer") with false.
  change (String.eqb "multiple_choice" "multiple_choice") with true. cbn iota.
  destruct (ToBoolean rawAnswer) eqn:Htruthy; cbn [negb].
  - apply strictEqualsString_iff.
  - split; [discriminate | ]. intros ->.
    change (truthy expected = false) in Htruthy.
    rewrite (truthy_true _ Hne) in Htruthy. discriminate.
Qed.

Lemma multiple_choice_witness :
  checkAnswer (choiceQuestion "Paris") (VString "paris") = true
  <-> VString "paris" = VString "Paris".
Proof.
  apply (multiple_choice_correct_iff_verbatim (choiceQuestion "Paris") "Paris").
  - reflexivity.
  - reflexivity.
  - discriminate.
Defined.

(** X5. No answer is correct for a question without an expected answer,
    with an empty one, or of a type other than short_answer,
    multiple_choice and checkbox. *)
Theorem ungraded_or_unknown_question_is_never_correct :
  forall (q : Question) (rawAnswer : JsVal),
    hasCorrectAnswer q = false \/ knownType (type q) = false ->
    checkAnswer q rawAnswer = false.
Proof.
  intros q rawAnswer H. unfold checkAnswer.
  destruct (ToBoolean rawAnswer); [cbn [negb] | reflexivity].
  unfold hasCorrectAnswer, knownType in H.
  destruct (correctAnswer q) as [expected | ]; [ | reflexivity].
  destruct (truthy expected); cbn [negb]; [ | reflexivity].
  destruct H as [H | H]; [discriminate | ].
  destruct (String.eqb (type q) "short_answer"); [discriminate | ].
  destruct (String.eqb (type q) "multiple_choice"); [discriminate | ].
  destruct (String.eqb (type q) "checkbox"); [discriminate | reflexivity].
Qed.

Lemma ungraded_question_witness :
  checkAnswer essayQuestion (VString "because") = false.
Proof.
  apply ungraded_or_unknown_question_is_never_correct. left. reflexivity.
Defined.

(* ================================================================== *)
(** ** More properties of normalizeToNumberOrString *)

Lemma lowerChar_idempotent (c : ascii) : lowerChar (lowerChar c) = lowerChar c.
Proof. destruct c as [[] [] [] [] [] [] [] []]; reflexivity. Qed.

Lemma lowerChar_isWhiteSpace (c : ascii) : isWhiteSpace (lowerChar c) = isWhiteSpace c.
Proof. destruct c as [[] [] [] [] [] [] [] []]; reflexivity. Qed.

Lemma toLowerCase_idempotent (s : string) : toLowerCase (toLowerCase s) = toLowerCase s.
Proof.
  induction s as [ | c s IH]; cbn [toLowerCase]; [reflexivity | ].
  now rewrite lowerChar_idempotent, IH.
Qed.

Lemma trimStart_toLowerCase (s : string) :
  trimStart (toLowerCase s) = toLowerCase (trimStart s).
Proof.
  induction s as [ | c s IH]; cbn [toLowerCase trimStart]; [reflexivity | ].
  rewrite lowerChar_isWhiteSpace. now destruct (isWhiteSpace c).
Qed.

Lemma trimEnd_toLowerCase (s : string) :
  trimEnd (toLowerCase s) = toLowerCase (trimEnd s).
Proof.
  induction s as [ | c s IH]; cbn [toLowerCase trimEnd]; [reflexivity | ].
  rewrite IH, lowerChar_isWhiteSpace.
  destruct (trimEnd s); cbn [toLowerCase]; [now destruct (isWhiteSpace c) | reflexivity].
Qed.

Lemma trim_toLowerCase (s : string) : trim (toLowerCase s) = toLowerCase (trim s).
Proof.
  unfold trim. now rewrite trimStart_toLowerCase, trimEnd_toLowerCase.
Qed.

Lemma trimEnd_idempotent (s : string) : trimEnd (trimEnd s) = trimEnd s.
Proof.
  induction s as [ | c s IH]; cbn [trimEnd]; [reflexivity | ].
  destruct (trimEnd s) as [ | c' t] eqn:E.
  - destruct (isWhiteSpace c) eqn:Ec; cbn [trimEnd]; [reflexivity | now rewrite Ec].
  - cbn [trimEnd]. cbn [trimEnd] in IH.
    destruct (trimEnd t) as [ | c'' t'] eqn:Et.
    + destruct (isWhiteSpace c'); [discriminate | now rewrite IH].
    + now rewrite IH.
Qed.

Lemma trimStart_startsClean (s : string) : startsClean (trimStart s) = true.
Proof.
  induction s as [ | c s IH]; cbn [trimStart]; [reflexivity | ].
  destruct (isWhiteSpace c) eqn:Ec; [exact IH | cbn [startsClean]; now rewrite Ec].
Qed.

Lemma trimEnd_startsClean (s : string) :
  startsClean s = true -> startsClean (trimEnd s) = true.
Proof.
  destruct s as [ | c s]; [reflexivity | ]. cbn [startsClean trimEnd]. intros Hc.
  destruct (isWhiteSpace c) eqn:Ec; [discriminate | ].
  destruct (trimEnd s); cbn [startsClean]; now rewrite Ec.
Qed.

Lemma trimStart_clean (s : string) : startsClean s = true -> trimStart s = s.
Proof.
  destruct s as [ | c s]; [reflexivity | ]. cbn [startsClean trimStart].
  now destruct (isWhiteSpace c).
Qed.

Lemma trim_idempotent (s : string) : trim (trim s) = trim s.
Proof.
  unfold trim.
  rewrite (trimStart_clean (trimEnd (trimStart s))).
  - apply trimEnd_idempotent.
  - apply trimEnd_startsClean, trimStart_startsClean.
Qed.

(** The text that normalization works on is a fixed point of its own
    preparation. *)
Lemma prepared_text_is_fixed (s : string) :
  toLowerCase (trim (toLowerCase (trim s))) = toLowerCase (trim s).
Proof.
  now rewrite trim_toLowerCase, toLowerCase_idempotent, trim_idempotent.
Qed.

(** Normalization of a string depends on its trimmed, lowercased text only. *)
Lemma normalize_by_text (s t : string) :
  toLowerCase (trim s) = toLowerCase (trim t) ->
  normalizeToNumberOrString (VString s) = normalizeToNumberOrString (VString t).
Proof.
  intros H. unfold normalizeToNumberOrString. cbn [ToString]. now rewrite H.
Qed.

(** X6. Normalization ignores letter case and surrounding white space:
    a string of code units below 256, its lowercased text, its trimmed text
    and its trimmed, lowercased text all normalize alike. *)
Theorem normalize_ignores_case_and_padding :
  forall s : string,
    normalizeToNumberOrString (VString (toLowerCase s))
    = normalizeToNumberOrString (VString s)
    /\ normalizeToNumberOrString (VString (trim s))
       = normalizeToNumberOrString (VString s)
    /\ normalizeToNumberOrString (VString (toLowerCase (trim s)))
       = normalizeToNumberOrString (VString s).
Proof.
  intros s. repeat split; apply normalize_by_text.
  - now rewrite trim_toLowerCase, toLowerCase_idempotent.
  - now rewrite trim_idempotent.
  - apply prepared_text_is_fixed.
Qed.

Lemma strictEquals_reflexive (v : NormalizedValue) :
  strictEquals v v = notNaN v.
Proof.
  destruct v as [x | s]; cbn [strictEquals notNaN].
  - unfold isNaN, is_nan. now rewrite negb_involutive.
  - apply String.eqb_refl.
Qed.

(** X7. A short_answer question accepts every non-empty answer that has the
    trimmed, lowercased text of its expected answer, provided the expected
    answer does not normalize to NaN. *)
Theorem short_answer_accepts_variants_of_expected :
  forall (q : Question) (expected raw : string),
    type q = "short_answer" ->
    correctAnswer q = Some expected ->
    expected <> "" ->
    raw <> "" ->
    toLowerCase (trim raw) = toLowerCase (trim expected) ->
    notNaN (normalizeToNumberOrString (VString expected)) = true ->
    checkAnswer q (VString raw) = true.
Proof.
  intros q expected raw Hty Hexp Hne Hraw Htext Hnan.
  unfold checkAnswer. cbn [ToBoolean]. fold (truthy raw).
  rewrite (truthy_true _ Hraw), Hexp, Hty, (truthy_true _ Hne). cbn [negb].
  change (String.eqb "short_answer" "short_answer") with true. cbn iota.
  rewrite (normalize_by_text raw expected Htext).
  now rewrite strictEquals_reflexive.
Qed.

Lemma short_answer_variant_witness :
  checkAnswer (shortAnswer "Twenty One") (VString "  TWENTY one ") = true.
Proof.
  apply (short_answer_accepts_variants_of_expected
           (shortAnswer "Twenty One") "Twenty One").
  - reflexivity.
  - reflexivity.
  - discriminate.
  - discriminate.
  - vm_compute; reflexivity.
  - vm_compute; reflexivity.
Defined.

(** X8. A blank text, empty or of white space only, normalizes to the empty
    text, as null and undefined do.  So a blank answer that is not empty
    is judged correct for a short_answer question whose expected answer is
    blank, and incorrect when the expected answer parses as a number. *)
Theorem blank_text_normalizes_to_empty :
  (forall s : string, trim s = "" -> normalizeToNumberOrString (VString s) = Str "")
  /\ normalizeToNumberOrString VNull = Str ""
  /\ normalizeToNumberOrString VUndefined = Str ""
  /\ (forall (q : Question) (expected raw : string),
         type q = "short_answer" ->
         correctAnswer q = Some expected ->
         expected <> "" -> raw <> "" -> trim raw = "" ->
         (trim expected = "" -> checkAnswer q (VString raw) = true)
         /\ (parsesAsNumber (toLowerCase (trim expected)) = true ->
             checkAnswer q (VString raw) = false)).
Proof.
  assert (Hblank : forall s : string,
             trim s = "" -> normalizeToNumberOrString (VString s) = Str "").
  { intros s H. unfold normalizeToNumberOrString. cbn [ToString]. now rewrite H. }
  split; [exact Hblank | ]. split; [reflexivity | ]. split; [reflexivity | ].
  intros q expected raw Hty Hexp Hne Hraw Hblankraw.
  unfold checkAnswer. cbn [ToBoolean]. fold (truthy raw).
  rewrite (truthy_true _ Hraw), Hexp, Hty, (truthy_true _ Hne). cbn [negb].
  change (String.eqb "short_answer" "short_answer") with true. cbn iota.
  rewrite (Hblank raw Hblankraw). split.
  - intros Hblankexp. now rewrite (Hblank expected Hblankexp).
  - intros Hnum. unfold normalizeToNumberOrString. cbn [ToString].
    unfold parsesAsNumber in Hnum. now rewrite Hnum.
Qed.

Lemma blank_text_witness :
  normalizeToNumberOrString (VString "   ") = Str "".
Proof.
  apply (proj1 blank_text_normalizes_to_empty "   "). reflexivity.
Defined.

(* ================================================================== *)
(** ** More properties of filteredResponses *)

Lemma filter_Subsequence {A : Type} (p : A -> bool) (l : list A) :
  Subsequence (filter p l) l.
Proof.
  induction l as [ | x l IH]; cbn [filter]; [constructor | ].
  destruct (p x); now constructor.
Qed.

Lemma filter_idempotent {A : Type} (p : A -> bool) (l : list A) :
  filter p (filter p l) = filter p l.
Proof.
  induction l as [ | x l IH]; cbn [filter]; [reflexivity | ].
  destruct (p x) eqn:Ex; cbn [filter]; [rewrite Ex; now f_equal | exact IH].
Qed.

Lemma filter_all {A : Type} (p : A -> bool) (l : list A) :
  (forall x, p x = true) -> filter p l = l.
Proof.
  intros H. induction l as [ | x l IH]; cbn [filter]; [reflexivity | ].
  rewrite H. now f_equal.
Qed.

Section MoreFilterProperties.

Variable DateTime : string -> option Z.
Variable endOfDay : Z -> option Z.

Lemma keepResponse_split (form : Form) (f : Filters) (r : Response) :
  keepResponse DateTime endOfDay form f r
  = keepResponse DateTime endOfDay form (onlyDates f) r
    && keepResponse DateTime endOfDay form (onlyScore f) r
    && keepResponse DateTime endOfDay form (onlyKeyword f) r.
Proof.
  rewrite !keepResponse_conjunction.
  change (passesDateFrom DateTime (onlyDates f) r) with (passesDateFrom DateTime f r).
  change (passesDateTo DateTime endOfDay (onlyDates f) r)
    with (passesDateTo DateTime endOfDay f r).
  change (passesScore form (onlyDates f) r) with true.
  change (passesKeyword (onlyDates f) r) with true.
  change (passesDateFrom DateTime (onlyScore f) r) with true.
  change (passesDateTo DateTime endOfDay (onlyScore f) r) with true.
  change (passesScore form (onlyScore f) r) with (passesScore form f r).
  change (passesKeyword (onlyScore f) r) with true.
  change (passesDateFrom DateTime (onlyKeyword f) r) with true.
  change (passesDateTo DateTime endOfDay (onlyKeyword f) r) with true.
  change (passesScore form (onlyKeyword f) r) with true.
  change (passesKeyword (onlyKeyword f) r) with (passesKeyword f r).
  destruct (passesDateFrom DateTime f r), (passesDateTo DateTime endOfDay f r),
    (passesScore form f r), (passesKeyword f r); reflexivity.
Qed.

Lemma filteredResponses_in_turn (selectedForm : option Form) (rs : list Response)
  (f : Filters) :
  filteredResponses DateTime endOfDay selectedForm rs f
  = filteredResponses DateTime endOfDay selectedForm
      (filteredResponses DateTime endOfDay selectedForm
         (filteredResponses DateTime endOfDay selectedForm rs (onlyDates f))
         (onlyScore f))
      (onlyKeyword f).
Proof.
  destruct selectedForm as [form | ]; [ | reflexivity].
  unfold filteredResponses. rewrite !filter_twice.
  apply filter_ext. intros r. rewrite (keepResponse_split form f r).
  now rewrite andb_assoc.
Qed.

Lemma filteredResponses_membership (form : Form) (rs : list Response)
  (f : Filters) (r : Response) :
  In r (filteredResponses DateTime endOfDay (Some form) rs f)
  <-> In r (filteredResponses DateTime endOfDay (Some form) rs (onlyDates f))
      /\ In r (filteredResponses DateTime endOfDay (Some form) rs (onlyScore f))
      /\ In r (filteredResponses DateTime endOfDay (Some form) rs (onlyKeyword f)).
Proof.
  unfold filteredResponses. rewrite !filter_In, keepResponse_split.
  rewrite !andb_true_iff. tauto.
Qed.

End MoreFilterProperties.

(** X9. The filtered list keeps some of the responses in their order;
    filtering it again by the same criteria changes nothing; with every
    criterion unset all responses are kept, and with no form selected none. *)
Theorem filtered_responses_are_a_stable_selection :
  forall (DateTime : string -> option Z) (endOfDay : Z -> option Z)
         (selectedForm : option Form) (rs : list Response) (f : Filters),
    Subsequence (filteredResponses DateTime endOfDay selectedForm rs f) rs
    /\ filteredResponses DateTime endOfDay selectedForm
         (filteredResponses DateTime endOfDay selectedForm rs f) f
       = filteredResponses DateTime endOfDay selectedForm rs f
    /\ (forall form, filteredResponses DateTime endOfDay (Some form) rs noFilters = rs)
    /\ filteredResponses DateTime endOfDay None rs f = [].
Proof.
  intros DateTime endOfDay selectedForm rs f. repeat split.
  - destruct selectedForm as [form | ]; cbn [filteredResponses].
    + apply filter_Subsequence.
    + induction rs; now constructor.
  - destruct selectedForm as [form | ]; cbn [filteredResponses];
      [apply filter_idempotent | reflexivity].
  - intros form. cbn [filteredResponses]. apply filter_all. reflexivity.
Qed.

(** X10. The criteria combine by conjunction: filtering by all of them is
    filtering by the dates, then by the score bounds, then by the keyword,
    and a response is kept exactly when each dimension alone keeps it. *)
Theorem filter_dimensions_combine_by_conjunction :
  forall (DateTime : string -> option Z) (endOfDay : Z -> option Z)
         (form : Form) (rs : list Response) (f : Filters),
    filteredResponses DateTime endOfDay (Some form) rs f
    = filteredResponses DateTime endOfDay (Some form)
        (filteredResponses DateTime endOfDay (Some form)
           (filteredResponses DateTime endOfDay (Some form) rs (onlyDates f))
           (onlyScore f))
        (onlyKeyword f)
    /\ (forall r,
          In r (filteredResponses DateTime endOfDay (Some form) rs f)
          <-> In r (filteredResponses DateTime endOfDay (Some form) rs (onlyDates f))
              /\ In r (filteredResponses DateTime endOfDay (Some form) rs (onlyScore f))
              /\ In r (filteredResponses DateTime endOfDay (Some form) rs (onlyKeyword f))).
Proof.
  intros. split.
  - apply filteredResponses_in_turn.
  - intros r. apply filteredResponses_membership.
Qed.





(** X13. The date bounds never remove a response whose timestamp is
    invalid, and a bound whose text is no valid date removes nothing: a
    comparison with an invalid date is false. *)
Theorem invalid_dates_filter_nothing :
  forall (DateTime : string -> option Z) (endOfDay : Z -> option Z)
         (f : Filters) (r : Response),
    (submitDate DateTime r = None ->
     passesDateFrom DateTime f r = true /\ passesDateTo DateTime endOfDay f r = true)
    /\ (DateTime (dateFrom f) = None -> passesDateFrom DateTime f r = true)
    /\ (DateTime (dateTo f) = None -> passesDateTo DateTime endOfDay f r = true).
Proof.
  intros DateTime endOfDay f r. unfold passesDateFrom, passesDateTo.
  split; [ | split].
  - intros H. rewrite H. split.
    + now destruct (truthy (dateFrom f)).
    + destruct (truthy (dateTo f)); [ | reflexivity].
      destruct (DateTime (dateTo f)) as [t | ]; [ | reflexivity].
      now destruct (endOfDay t).
  - intros H. rewrite H. destruct (truthy (dateFrom f)); [ | reflexivity].
    now destruct (submitDate DateTime r).
  - intros H. rewrite H. now destruct (truthy (dateTo f)).
Qed.

Lemma invalid_dates_witness :
  passesDateFrom sampleClock (dateFilter "2024-01-01" "2024-01-01")
    {| answers := []; submitted_at := None |} = true
  /\ passesDateTo sampleClock sampleEndOfDay (dateFilter "2024-01-01" "2024-01-01")
       {| answers := []; submitted_at := None |} = true.
Proof.
  apply (proj1 (invalid_dates_filter_nothing sampleClock sampleEndOfDay
                  (dateFilter "2024-01-01" "2024-01-01")
                  {| answers := []; submitted_at := None |})).
  reflexivity.
Defined.

Lemma Day_of_local_midnight (d o : Z) :
  (- msPerDay < o < msPerDay)%Z ->
  Day (d * msPerDay + o) = if (0 <=? o)%Z then d else (d - 1)%Z.
Proof.
  unfold Day, msPerDay. intros Ho.
  destruct (Z.leb_spec 0 o) as [Hpos | Hneg].
  - symmetry. apply (Z.div_unique _ _ d o); lia.
  - symmetry. apply (Z.div_unique _ _ (d - 1) (o + 86400000)); lia.
Qed.

Lemma Day_le (t d : Z) : (Day t <= d)%Z <-> (t <= d * msPerDay + (msPerDay - 1))%Z.
Proof.
  unfold Day, msPerDay.
  pose proof (Z.div_mod t 86400000 ltac:(lia)) as Hdiv.
  pose proof (Z.mod_pos_bound t 86400000 ltac:(lia)) as Hmod.
  split; intros H; nia.
Qed.

(** X14. The upper date bound, in a time zone at a fixed offset from UTC
    and for a bound that parses to midnight UTC of a day, as a date without
    a time does.  East of UTC and at UTC the filter keeps the responses
    submitted up to the end of that day in local time.  West of UTC it
    keeps them up to the end of the day before: a response submitted on the
    bound's own day, local time, is removed. *)
Theorem date_upper_bound_ends_a_local_day :
  forall (DateTime : string -> option Z) (o : Z) (f : Filters) (r : Response)
         (submitted d : Z),
    (- msPerDay < o < msPerDay)%Z ->
    (Z.abs (d * msPerDay) <= 8640000000000000 - 2 * msPerDay)%Z ->
    dateTo f <> "" ->
    DateTime (dateTo f) = Some (d * msPerDay)%Z ->
    submitDate DateTime r = Some submitted ->
    (passesDateTo DateTime (setHoursEndOfDay (fun _ _ => o)) f r = true
     <-> (Day (submitted + o) <= (if (0 <=? o)%Z then d else d - 1))%Z).
Proof.
  intros DateTime o f r submitted d Ho Hrange Hto Hparse Hsub.
  unfold passesDateTo. rewrite (truthy_true _ Hto), Hparse, Hsub.
  unfold setHoursEndOfDay, LocalTime, UTC, TimeClip.
  rewrite (Day_of_local_midnight d o Ho), Day_le.
  set (day := if (0 <=? o)%Z then d else (d - 1)%Z).
  assert (Hday : (d - 1 <= day <= d)%Z).
  { unfold day. destruct (0 <=? o)%Z; lia. }
  unfold msPerDay in *.
  change (23 * 3600000 + 59 * 60000 + 59 * 1000 + 999)%Z with 86399999%Z.
  destruct (Z.leb_spec (Z.abs (day * 86400000 + 86399999 - o)) 8640000000000000)
    as [Hin | Hout]; [ | lia].
  cbn [dateBefore]. rewrite negb_true_iff, Z.ltb_ge. lia.
Qed.

Lemma date_upper_bound_witness :
  passesDateTo sampleClock (setHoursEndOfDay (fun _ _ => (-18000000)%Z))
    (dateFilter "" "2024-01-01") (answering [("q1", VString "8")]) = true
  <-> (Day (1704103200000 + -18000000) <= (if (0 <=? -18000000)%Z then 19723 else 19723 - 1))%Z.
Proof.
  apply (date_upper_bound_ends_a_local_day sampleClock (-18000000)
           (dateFilter "" "2024-01-01") (answering [("q1", VString "8")])
           1704103200000 19723).
  - unfold msPerDay. lia.
  - unfold msPerDay. lia.
  - discriminate.
  - reflexivity.
  - reflexivity.
Defined.

(** Five hours west of UTC, a response submitted at 05:00 local time on
    the day of the upper bound is removed. *)
Lemma west_of_utc_the_bound_day_is_cut :
  submitDate sampleClock (answering [("q1", VString "8")]) = Some 1704103200000%Z
  /\ passesDateTo sampleClock (setHoursEndOfDay (fun _ _ => (-18000000)%Z))
       (dateFilter "" "2024-01-01") (answering [("q1", VString "8")]) = false
  /\ passesDateTo sampleClock (setHoursEndOfDay (fun _ _ => 0%Z))
       (dateFilter "" "2024-01-01") (answering [("q1", VString "8")]) = true.
Proof. repeat split; vm_compute; reflexivity. Qed.

(* ================================================================== *)
(** ** More properties of getAnalytics *)

Lemma countAnswer_total (q : Question) (raws : list string) (st : QuestionStats) :
  answerTotal (fold_left (countAnswer q) raws st) = answerTotal st + List.length raws.
Proof.
  revert st. induction raws as [ | a raws IH]; intros st; cbn [fold_left List.length].
  - now rewrite Nat.add_0_r.
  - rewrite IH. cbn [countAnswer answerTotal]. lia.
Qed.

Lemma questionTokens_raw (q : Question) (rs : list Response) :
  questionTokens q rs = map (countingKey q) (rawAnswers q rs).
Proof.
  unfold questionTokens, rawAnswers. induction rs as [ | r rs IH]; cbn [flat_map].
  - reflexivity.
  - now rewrite map_app, IH.
Qed.

(** After the loop over the responses, the table of a question is the one
    its answers build, met in the order of the responses. *)
Lemma tally_question_stats (form : Form) (q : Question) (rs : list Response) :
  NoDup (map id (questions form)) -> In q (questions form) ->
  forall (t : Tally) (st0 : QuestionStats),
    readStats (tallyStats t) (id q) = Some st0 ->
    readStats (tallyStats (fold_left (tallyResponse form) rs t)) (id q)
    = Some (fold_left (countAnswer q) (rawAnswers q rs) st0).
Proof.
  intros Hnd Hin. induction rs as [ | r rs IH]; intros t st0 Hst0.
  - exact Hst0.
  - cbn [fold_left]. unfold rawAnswers. cbn [flat_map]. rewrite fold_left_app.
    apply IH. cbn [tallyResponse tallyStats].
    now apply countQuestions_present.
Qed.

Lemma questionStatsOf_fold (form : Form) (q : Question) (rs : list Response) :
  NoDup (map id (questions form)) -> In q (questions form) -> rs <> [] ->
  questionStatsOf form rs q
  = Some (fold_left (countAnswer q) (rawAnswers q rs) emptyStats).
Proof.
  intros Hnd Hin Hrs. unfold questionStatsOf, getAnalytics.
  destruct rs as [ | r rs]; [contradiction | ].
  cbn [List.length Nat.eqb questionStats].
  apply tally_question_stats; [assumption | assumption | ].
  cbn [tallyStats]. unfold initialStats.
  apply initialStats_present. now apply in_map.
Qed.

Lemma tableTotal_increment (c : OwnProperties CountValue) (k : string) :
  objectPrototypeMember k = None ->
  forall n, tableTotal c = Some n ->
  tableTotal (setOwn c k (incremented (getProperty c k))) = Some (S n).
Proof.
  intros Hk. unfold getProperty. rewrite Hk.
  induction c as [ | [k' v] c IH]; intros n Hn.
  - cbn in Hn. injection Hn as <-. reflexivity.
  - cbn [tableTotal] in Hn. destruct v as [m | s]; [ | discriminate].
    destruct (tableTotal c) as [n' | ] eqn:Et; [ | discriminate].
    cbn [option_map] in Hn. injection Hn as <-.
    cbn [ownProperty setOwn]. destruct (String.eqb k' k) eqn:Ek.
    + cbn [incremented tableTotal]. rewrite Et. reflexivity.
    + cbn [tableTotal]. rewrite (IH n' eq_refl). cbn [option_map].
      f_equal. lia.
Qed.

Lemma countAnswer_tableTotal (q : Question) (raws : list string) :
  (forall a, In a raws -> objectPrototypeMember (countingKey q a) = None) ->
  forall st,
    tableTotal (counts st) = Some (answerTotal st) ->
    tableTotal (counts (fold_left (countAnswer q) raws st))
    = Some (answerTotal (fold_left (countAnswer q) raws st)).
Proof.
  induction raws as [ | a raws IH]; intros Hkeys st Hst; cbn [fold_left].
  - exact Hst.
  - apply IH; [intros b Hb; apply Hkeys; now right | ].
    cbn [countAnswer counts answerTotal]. unfold setCount.
    pose proof (Hkeys a (or_introl eq_refl)) as Hk.
    destruct (String.eqb (countingKey q a) "__proto__") eqn:Ep.
    + apply String.eqb_eq in Ep. rewrite Ep in Hk. discriminate.
    + now apply tableTotal_increment.
Qed.

(** X15. In the statistics of a question (distinct question ids, answer
    keys that name no member of [Object.prototype]) the field [total] is
    the number of answers counted over all responses, and it is the sum of
    the counts of the table. *)
Theorem question_total_is_sum_of_counts :
  forall (form : Form) (rs : list Response) (q : Question),
    NoDup (map id (questions form)) ->
    In q (questions form) ->
    rs <> [] ->
    (forall k, In k (questionTokens q rs) -> objectPrototypeMember k = None) ->
    exists st,
      questionStatsOf form rs q = Some st
      /\ answerTotal st = List.length (rawAnswers q rs)
      /\ tableTotal (counts st) = Some (answerTotal st).
Proof.
  intros form rs q Hnd Hin Hrs Hkeys.
  exists (fold_left (countAnswer q) (rawAnswers q rs) emptyStats). repeat split.
  - now apply questionStatsOf_fold.
  - now rewrite countAnswer_total.
  - apply countAnswer_tableTotal; [ | reflexivity].
    intros a Ha. apply Hkeys. rewrite questionTokens_raw. now apply in_map.
Qed.

Lemma question_total_witness :
  exists st,
    questionStatsOf cityForm
      [answering [("q1", VString "Rome")]; answering [("q1", VString "Paris")];
       answering [("q1", VString "Rome")]; answering []] cityQuestion = Some st
    /\ answerTotal st = 3
    /\ tableTotal (counts st) = Some (answerTotal st).
Proof.
  apply (question_total_is_sum_of_counts cityForm
           [answering [("q1", VString "Rome")]; answering [("q1", VString "Paris")];
            answering [("q1", VString "Rome")]; answering []] cityQuestion).
  - repeat constructor. intros [].
  - left. reflexivity.
  - discriminate.
  - intros k Hk. vm_compute in Hk.
    destruct Hk as [<- | [<- | [<- | []]]]; reflexivity.
Defined.

Lemma setOwn_keys_present {A : Type} (o : OwnProperties A) (k : string) (v v' : A) :
  ownProperty o k = Some v -> map fst (setOwn o k v') = map fst o.
Proof.
  induction o as [ | [k' x] o IH]; cbn [ownProperty setOwn]; [discriminate | ].
  destruct (String.eqb k' k); intros H; cbn [map fst]; [reflexivity | ].
  f_equal. now apply IH.
Qed.

Lemma ownProperty_keys {A : Type} (o : OwnProperties A) (k : string) :
  In k (map fst o) <-> exists v, ownProperty o k = Some v.
Proof.
  induction o as [ | [k' x] o IH]; cbn [ownProperty map fst In].
  - split; [intros [] | intros [v Hv]; discriminate].
  - destruct (String.eqb_spec k' k) as [-> | Hne].
    + split; [intros _; now exists x | intros _; now left].
    + rewrite IH. split; [intros [Hk | Hk]; [contradiction | exact Hk] | now right].
Qed.

Lemma setOwn_keys_absent {A : Type} (o : OwnProperties A) (k : string) (v : A) :
  ownProperty o k = None -> map fst (setOwn o k v) = map fst o ++ [k].
Proof.
  induction o as [ | [k' x] o IH]; cbn [ownProperty setOwn]; [reflexivity | ].
  destruct (String.eqb k' k); intros H; [discriminate | ].
  cbn [map fst app]. f_equal. now apply IH.
Qed.

Lemma firstSeen_snoc_named (seen : list string) (k : string) :
  filter (fun k' => negb (String.eqb k' "__proto__")) (firstSeen (seen ++ [k]))
  = if String.eqb k "__proto__" || if in_dec string_dec k seen then true else false
    then filter (fun k' => negb (String.eqb k' "__proto__")) (firstSeen seen)
    else filter (fun k' => negb (String.eqb k' "__proto__")) (firstSeen seen) ++ [k].
Proof.
  rewrite firstSeen_snoc.
  destruct (in_dec string_dec k seen) as [Hin | Hout].
  - now rewrite orb_true_r.
  - rewrite orb_false_r, filter_app. cbn [filter].
    destruct (String.eqb k "__proto__"); cbn [negb]; [apply app_nil_r | reflexivity].
Qed.

Lemma initialStats_keys (qs : list Question) :
  forall (stats : StatsObject) (seen : list string),
    map fst (ownTables stats)
    = filter (fun k => negb (String.eqb k "__proto__")) (firstSeen seen) ->
    map fst (ownTables
               (fold_left (fun stats q => writeStats stats (id q) emptyStats) qs stats))
    = filter (fun k => negb (String.eqb k "__proto__")) (firstSeen (seen ++ map id qs)).
Proof.
  induction qs as [ | q qs IH]; intros stats seen Hkeys; cbn [fold_left map].
  - now rewrite app_nil_r.
  - replace (seen ++ id q :: map id qs) with ((seen ++ [id q]) ++ map id qs)
      by now rewrite <- app_assoc.
    apply IH. rewrite firstSeen_snoc_named. unfold writeStats.
    destruct (String.eqb_spec (id q) "__proto__") as [Hproto | Hnamed];
      cbn [ownTables orb]; [exact Hkeys | ].
    assert (Hmem : In (id q) (map fst (ownTables stats)) <-> In (id q) seen).
    { rewrite Hkeys, filter_In, firstSeen_In, negb_true_iff, String.eqb_neq. tauto. }
    destruct (in_dec string_dec (id q) seen) as [Hin | Hout].
    + apply (proj2 Hmem) in Hin.
      apply (proj1 (ownProperty_keys _ _)) in Hin. destruct Hin as [v Hv].
      now rewrite (setOwn_keys_present _ _ _ _ Hv).
    + rewrite <- Hkeys. apply setOwn_keys_absent.
      destruct (ownProperty (ownTables stats) (id q)) as [v | ] eqn:Ev; [ | reflexivity].
      exfalso. apply Hout, Hmem. apply (proj2 (ownProperty_keys _ _)). now exists v.
Qed.

Lemma countQuestion_keys (r : Response) (stats : StatsObject) (q : Question) :
  map fst (ownTables (countQuestion r stats q)) = map fst (ownTables stats).
Proof.
  unfold countQuestion, readStats, writeStats.
  destruct (String.eqb (id q) "__proto__").
  - now destruct (prototypeTable stats).
  - destruct (ownProperty (ownTables stats) (id q)) as [st | ] eqn:E; [ | reflexivity].
    cbn [ownTables]. now apply (setOwn_keys_present _ _ st).
Qed.

Lemma countQuestions_keys (r : Response) (qs : list Question) :
  forall stats,
    map fst (ownTables (fold_left (countQuestion r) qs stats))
    = map fst (ownTables stats).
Proof.
  induction qs as [ | q qs IH]; intros stats; cbn [fold_left]; [reflexivity | ].
  now rewrite IH, countQuestion_keys.
Qed.

Lemma tally_keys (form : Form) (rs : list Response) :
  forall t, map fst (ownTables (tallyStats (fold_left (tallyResponse form) rs t)))
            = map fst (ownTables (tallyStats t)).
Proof.
  induction rs as [ | r rs IH]; intros t; cbn [fold_left]; [reflexivity | ].
  rewrite IH. cbn [tallyResponse tallyStats]. apply countQuestions_keys.
Qed.

(** A table that can be read can be read after the counting. *)
Lemma countQuestion_defined (r : Response) (stats : StatsObject) (q : Question)
  (k : string) :
  (exists st, readStats stats k = Some st) ->
  exists st, readStats (countQuestion r stats q) k = Some st.
Proof.
  intros [st Hst]. unfold countQuestion.
  destruct (readStats stats (id q)) as [st' | ]; [ | now exists st].
  rewrite readStats_writeStats. destruct (String.eqb (id q) k); eauto.
Qed.

Lemma tally_defined (form : Form) (rs : list Response) (k : string) :
  forall t,
    (exists st, readStats (tallyStats t) k = Some st) ->
    exists st, readStats (tallyStats (fold_left (tallyResponse form) rs t)) k = Some st.
Proof.
  induction rs as [ | r rs IH]; intros t Ht; cbn [fold_left]; [exact Ht | ].
  apply IH. cbn [tallyResponse tallyStats].
  generalize (tallyStats t) Ht. clear.
  induction (questions form) as [ | q qs IHq]; intros stats Hs; cbn [fold_left];
    [exact Hs | ].
  apply IHq. now apply countQuestion_defined.
Qed.

(** X16. For a non-empty response list every question of the form reads
    a table by its id, and the statistics hold one own key per distinct
    question id, created in the order of the questions of the form:
    questions that share an id share one table.  The id [__proto__] is the
    exception: its table is the prototype of the statistics and no own
    key. *)
Theorem question_stats_have_one_table_per_id :
  forall (form : Form) (rs : list Response),
    rs <> [] ->
    exists a,
      getAnalytics (Some form) rs = Some a
      /\ (forall q, In q (questions form) ->
            exists st, readStats (questionStats a) (id q) = Some st)
      /\ map fst (ownTables (questionStats a))
         = filter (fun k => negb (String.eqb k "__proto__"))
             (firstSeen (map id (questions form)))
      /\ NoDup (map fst (ownTables (questionStats a))).
Proof.
  intros form rs Hrs. unfold getAnalytics.
  destruct rs as [ | r rs]; [contradiction | ].
  cbn [List.length Nat.eqb]. eexists. split; [reflexivity | ].
  cbn [questionStats].
  rewrite tally_keys. cbn [tallyStats]. unfold initialStats.
  rewrite (initialStats_keys (questions form) noStats [] eq_refl). cbn [app].
  split; [ | split; [reflexivity | apply NoDup_filter, firstSeen_NoDup]].
  intros q Hq. apply tally_defined. cbn [tallyStats].
  exists emptyStats. apply initialStats_present. now apply in_map.
Qed.

Lemma question_stats_tables_witness :
  exists a,
    getAnalytics (Some mixedForm) [answering [("q1", VString "8")]] = Some a
    /\ (forall q, In q (questions mixedForm) ->
          exists st, readStats (questionStats a) (id q) = Some st)
    /\ map fst (ownTables (questionStats a))
       = filter (fun k => negb (String.eqb k "__proto__"))
           (firstSeen (map id (questions mixedForm)))
    /\ NoDup (map fst (ownTables (questionStats a))).
Proof.
  apply (question_stats_have_one_table_per_id mixedForm [answering [("q1", VString "8")]]).
  discriminate.
Defined.





Lemma anyOrder_sorted (l : list (string * nat)) : StronglySorted anyOrder l.
Proof.
  induction l as [ | e l IH]; constructor; [exact IH | ].
  apply Forall_forall. intros x _. exact I.
Qed.

Lemma sortByCount_descending (l : list (string * nat)) :
  StronglySorted countNotBelow (sortByCount l).
Proof.
  apply (StronglySorted_weaken (byCountThen anyOrder)).
  - apply sortByCount_stable, anyOrder_sorted.
  - intros x y _ _ [Hlt | [Heq _]]; unfold countNotBelow; lia.
Qed.

(** A number less itself is zero or NaN, neither above nor below zero. *)
Lemma sub_self_compares_zero (x : float) :
  PrimFloat.ltb 0 (PrimFloat.sub x x) = false
  /\ PrimFloat.ltb (PrimFloat.sub x x) 0 = false.
Proof.
  rewrite !ltb_spec, sub_spec. unfold SF64sub, SFsub.
  destruct (Prim2SF x) as [sg | sg | | sg m e].
  - destruct sg; split; reflexivity.
  - destruct sg; split; reflexivity.
  - split; reflexivity.
  - rewrite Z.sub_diag. split; reflexivity.
Qed.

Lemma compareCounts_same (c : CountValue) : compareCounts c c = Eq.
Proof.
  destruct c as [n | s]; cbn [compareCounts].
  - apply Nat.compare_refl.
  - destruct (sub_self_compares_zero (countNumber (Garbled s))) as [H1 H2].
    now rewrite H1, H2.
Qed.

Lemma consistent_single (c : CountValue) : consistent [c] = true.
Proof.
  unfold consistent, forallb, consistentAt. now rewrite !compareCounts_same.
Qed.

Lemma objectEntries_single {A : Type} (key : string) (v : A) :
  objectEntries [(key, v)] = [(key, v)].
Proof.
  unfold objectEntries, isNamed. cbn [indexedEntries filter fst].
  now destruct (arrayIndex key).
Qed.

(** X18. On a table whose counts are numbers, the notable answers are
    the first five, or all if fewer, of the entries in non-increasing order
    of count: no entry left out has a larger count than a listed one.  A
    table of one key lists that key whatever its count, a text included.
    With a text among the counts (a key that met a member of
    [Object.prototype]) the list is determined when the other counts are
    equal, and left to the implementation when they differ. *)
Theorem sorted_answers_are_the_largest_counts :
  (forall (st : QuestionStats) (entries : list (string * nat)),
      counts st = map asCount entries ->
      exists listed rest,
        sortedAnswers st = Some (map asCount listed)
        /\ List.length listed = Nat.min 5 (List.length entries)
        /\ Permutation (listed ++ rest) entries
        /\ StronglySorted countNotBelow (listed ++ rest))
  /\ (forall (key : string) (count : CountValue) (total : nat),
         sortedAnswers {| counts := [(key, count)]; answerTotal := total |}
         = Some [(key, count)])
  /\ sortedAnswers
       {| counts := [("constructor", Garbled "function Object() { [native code] }1");
                     ("rome", Count 1); ("oslo", Count 1)];
          answerTotal := 3 |}
     = Some [("constructor", Garbled "function Object() { [native code] }1");
             ("rome", Count 1); ("oslo", Count 1)]
  /\ sortedAnswers
       {| counts := [("rome", Count 1);
                     ("constructor", Garbled "function Object() { [native code] }1");
                     ("oslo", Count 2)];
          answerTotal := 4 |}
     = None.
Proof.
  split; [ | split; [ | split; vm_compute; reflexivity]].
  - intros st entries Hcounts.
    exists (firstn 5 (sortByCount (objectEntries entries))),
           (skipn 5 (sortByCount (objectEntries entries))).
    split; [now apply sortedAnswers_numbers | ].
    assert (Hperm : Permutation (sortByCount (objectEntries entries)) entries).
    { rewrite sortByCount_perm. apply objectEntries_perm. }
    split; [ | split].
    + rewrite length_firstn. f_equal. apply (Permutation_length Hperm).
    + now rewrite firstn_skipn.
    + rewrite firstn_skipn. apply sortByCount_descending.
  - intros key count total. unfold sortedAnswers. cbn [counts].
    rewrite objectEntries_single.
    change (map snd [(key, count)]) with [count].
    now rewrite consistent_single.
Qed.

Lemma sorted_answers_witness :
  exists listed rest,
    sortedAnswers sampleStats = Some (map asCount listed)
    /\ List.length listed = Nat.min 5 (List.length (objectEntries (counts sampleStats)))
    /\ Permutation (listed ++ rest)
         [("rome", 1); ("7", 3); ("oslo", 2); ("3", 1); ("paris", 4); ("bern", 1);
          ("wien", 2)]
    /\ StronglySorted countNotBelow (listed ++ rest).
Proof.
  apply (proj1 sorted_answers_are_the_largest_counts sampleStats
           [("rome", 1); ("7", 3); ("oslo", 2); ("3", 1); ("paris", 4); ("bern", 1);
            ("wien", 2)]).
  reflexivity.
Defined.

Lemma tally_totalScore (form : Form) (rs : list Response) (t : Tally) :
  totalScore (fold_left (tallyResponse form) rs t) = totalScore t + sumOfScores form rs.
Proof.
  revert t. unfold sumOfScores, list_sum.
  induction rs as [ | r rs IH]; intros t; cbn [fold_left map fold_right].
  - now rewrite Nat.add_0_r.
  - rewrite IH. cbn [tallyResponse totalScore]. lia.
Qed.

Lemma sumOfScores_bound (form : Form) (rs : list Response) :
  sumOfScores form rs <= List.length rs * List.length (gradable form).
Proof.
  unfold sumOfScores, list_sum in *.
  induction rs as [ | r rs IH]; cbn [map fold_right List.length].
  - apply Nat.le_refl.
  - rewrite calculateScore_counts. cbn [score].
    pose proof (filter_length_le (answeredCorrectly r) (gradable form)). lia.
Qed.

(** X19. For a non-empty response list the analytics report the number
    of gradable questions as the maximum, which is the total of every
    response's score; the average score and percentage are computed from
    the sum of the scores, which never exceeds responses times maximum; a
    form without gradable questions reports the percentage 0 and no
    passing response. *)
Theorem analytics_averages_come_from_the_scores :
  forall (form : Form) (rs : list Response),
    rs <> [] ->
    exists a,
      getAnalytics (Some form) rs = Some a
      /\ formMaxPoints a = List.length (gradable form)
      /\ (forall r, total (calculateScore form r) = formMaxPoints a)
      /\ sumOfScores form rs <= totalResponses a * formMaxPoints a
      /\ avgScore a
         = toFixed (PrimFloat.div (ofNat (sumOfScores form rs))
                                  (ofNat (List.length rs))) 1
      /\ (0 < formMaxPoints a ->
          avgPercent a
          = percentOf (ofNat (sumOfScores form rs))
              (PrimFloat.mul (ofNat (List.length rs)) (ofNat (formMaxPoints a))))
      /\ (formMaxPoints a = 0 ->
          avgPercent a = 0%float /\ passing form rs = [] /\ sumOfScores form rs = 0).
Proof.
  intros form rs Hrs. unfold getAnalytics.
  destruct rs as [ | r rs]; [contradiction | ].
  cbn [List.length Nat.eqb]. eexists. split; [reflexivity | ].
  cbn [formMaxPoints totalResponses avgScore avgPercent].
  rewrite tally_totalScore. cbn [totalScore Nat.add].
  change (0 <? S (List.length rs))%nat with true. rewrite andb_true_r.
  fold (gradable form).
  pose proof (sumOfScores_bound form (r :: rs)) as Hbound.
  cbn [List.length] in Hbound.
  repeat split.
  - intros r'. now rewrite calculateScore_counts.
  - exact Hbound.
  - intros Hpos. apply Nat.ltb_lt in Hpos. now rewrite Hpos.
  - rewrite H. reflexivity.
  - unfold passing. apply length_zero_iff_nil, filter_length_none.
    apply Forall_forall. intros r' _. rewrite calculateScore_counts.
    unfold passes. cbn [total]. now rewrite H.
  - rewrite H in Hbound. lia.
Qed.

Lemma analytics_averages_witness :
  exists a,
    getAnalytics (Some fiveQuestionForm) fourResponses = Some a
    /\ formMaxPoints a = List.length (gradable fiveQuestionForm)
    /\ (forall r, total (calculateScore fiveQuestionForm r) = formMaxPoints a)
    /\ sumOfScores fiveQuestionForm fourResponses <= totalResponses a * formMaxPoints a
    /\ avgScore a
       = toFixed (PrimFloat.div (ofNat (sumOfScores fiveQuestionForm fourResponses))
                                (ofNat (List.length fourResponses))) 1
    /\ (0 < formMaxPoints a ->
        avgPercent a
        = percentOf (ofNat (sumOfScores fiveQuestionForm fourResponses))
            (PrimFloat.mul (ofNat (List.length fourResponses)) (ofNat (formMaxPoints a))))
    /\ (formMaxPoints a = 0 ->
        avgPercent a = 0%float /\ passing fiveQuestionForm fourResponses = []
        /\ sumOfScores fiveQuestionForm fourResponses = 0).
Proof.
  apply (analytics_averages_come_from_the_scores fiveQuestionForm fourResponses).
  discriminate.
Defined.

(* ================================================================== *)
(** ** ViewerDashboard: the timer *)

Lemma upTo_In (n s : Z) : (0 <= s <= n)%Z -> In s (upTo n).
Proof.
  intros H. unfold upTo. apply in_map_iff. exists (Z.to_nat s).
  split; [lia | ]. apply in_seq. lia.
Qed.

Lemma tick_iter_null (n : nat) : Nat.iter n tick None = None.
Proof.
  induction n as [ | n IH]; [reflexivity | ].
  now rewrite Nat.iter_succ, IH.
Qed.

(** One tick on every whole number of seconds up to three hours, in
    binary64. *)
Lemma tick_up_to_three_hours :
  forallb
    (fun p => match tick (Some (ofZ p)) with
              | Some t => PrimFloat.Leibniz.eqb t (ofZ (if (p <=? 1)%Z then 0 else p - 1))
              | None => false
              end)
    (upTo 10800)
  = true.
Proof. vm_compute. reflexivity. Qed.

Lemma tick_step (s : Z) :
  (0 <= s <= 10800)%Z ->
  tick (Some (ofZ s)) = Some (ofZ (if (s <=? 1)%Z then 0 else s - 1)).
Proof.
  intros Hs. pose proof tick_up_to_three_hours as H.
  rewrite forallb_forall in H. specialize (H s (upTo_In _ _ Hs)).
  destruct (tick (Some (ofZ s))) as [t | ]; [ | discriminate].
  apply FloatAxioms.Leibniz.eqb_spec in H. now rewrite H.
Qed.

Lemma tick_iter (s : Z) (n : nat) :
  (0 <= s <= 10800)%Z ->
  Nat.iter n tick (Some (ofZ s)) = Some (ofZ (Z.max 0 (s - Z.of_nat n))).
Proof.
  intros Hs. induction n as [ | n IH].
  - change (Nat.iter 0 tick (Some (ofZ s))) with (Some (ofZ s)).
    f_equal. f_equal. lia.
  - rewrite Nat.iter_succ, IH, tick_step by lia. f_equal. f_equal.
    destruct (Z.leb_spec (Z.max 0 (s - Z.of_nat n)) 1); lia.
Qed.

(** A limit of 1 to 180 minutes is a number other than zero and NaN, and
    its product with 60 is exact; a whole number of seconds up to three
    hours is zero in binary64 only when it is zero. *)
Lemma minutes_up_to_180 :
  forallb
    (fun m => (m =? 0)%Z
              || negb (PrimFloat.eqb (ofZ m) 0 || isNaN (ofZ m))
                 && PrimFloat.Leibniz.eqb (PrimFloat.mul (ofZ m) 60) (ofZ (60 * m)))
    (upTo 180)
  = true.
Proof. vm_compute. reflexivity. Qed.

Lemma seconds_up_to_three_hours :
  forallb (fun k => Bool.eqb (PrimFloat.eqb (ofZ k) 0) (k =? 0)%Z) (upTo 10800) = true.
Proof. vm_compute. reflexivity. Qed.

(** X20. The timer in binary64, for the limits the builder offers, 1 to
    180 minutes.  A limit of [minutes] typed into the builder starts the
    viewer's timer at 60 * minutes seconds; after n ticks a timer started
    at s seconds, up to three hours, shows max(0, s - n), so it never goes
    below zero and stays at zero, and it expires after exactly
    60 * minutes ticks; a timer that is off stays off.  The bound matters:
    a timer at 2^54 seconds does not move. *)
Theorem timer_counts_down_to_zero :
  (forall n, Nat.iter n tick None = None)
  /\ (forall (s : Z) (n : nat),
         (0 <= s <= 10800)%Z ->
         Nat.iter n tick (Some (ofZ s)) = Some (ofZ (Z.max 0 (s - Z.of_nat n))))
  /\ (forall (form : Form) (minutes : Z) (n : nat),
         (1 <= minutes <= 180)%Z ->
         let started :=
           startTimer (Some {| activeQuestions := form;
                               time_limit := readTimeLimit (decimalText minutes) |})
                      false in
         started = Some (ofZ (60 * minutes))
         /\ (expired (Nat.iter n tick started) = true
             <-> (60 * minutes <= Z.of_nat n)%Z))
  /\ tick (Some (ofZ (2 ^ 54))) = Some (ofZ (2 ^ 54)).
Proof.
  split; [exact tick_iter_null | ]. split; [exact tick_iter | ].
  split; [ | vm_compute; reflexivity].
  intros form minutes n Hm. cbn zeta.
  assert (Hstart :
    startTimer (Some {| activeQuestions := form;
                        time_limit := readTimeLimit (decimalText minutes) |}) false
    = Some (ofZ (60 * minutes))).
  { unfold startTimer, readTimeLimit. cbn [time_limit].
    rewrite (truthy_true _ (decimalText_not_empty minutes)), parseInt_decimalText.
    pose proof minutes_up_to_180 as H. rewrite forallb_forall in H.
    assert (Hin : (0 <= minutes <= 180)%Z) by lia.
    specialize (H minutes (upTo_In _ _ Hin)).
    destruct (Z.eqb_spec minutes 0) as [H0 | H0]; [lia | ].
    cbn [orb] in H. apply andb_true_iff in H. destruct H as [Hfalsy Hmul].
    apply negb_true_iff in Hfalsy. rewrite Hfalsy. cbn [orb].
    apply FloatAxioms.Leibniz.eqb_spec in Hmul. now rewrite Hmul. }
  split; [exact Hstart | ]. rewrite Hstart, tick_iter by lia. cbn [expired].
  pose proof seconds_up_to_three_hours as H. rewrite forallb_forall in H.
  assert (Hin : (0 <= Z.max 0 (60 * minutes - Z.of_nat n) <= 10800)%Z) by lia.
  specialize (H (Z.max 0 (60 * minutes - Z.of_nat n)) (upTo_In _ _ Hin)).
  apply Bool.eqb_prop in H. rewrite H, Z.eqb_eq. lia.
Qed.

Lemma timer_witness :
  Nat.iter 90 tick (Some (ofZ 60)) = Some (ofZ (Z.max 0 (60 - Z.of_nat 90))).
Proof.
  apply (proj1 (proj2 timer_counts_down_to_zero)). lia.
Defined.

Lemma decimalText_injective (a b : Z) : decimalText a = decimalText b -> a = b.
Proof.
  intros H. pose proof (parseInt_decimalText a) as Ha.
  rewrite H, parseInt_decimalText in Ha. congruence.
Qed.

Lemma decimalText_allDigits (v : Z) : (0 <= v)%Z -> allDigits (decimalText v) = true.
Proof.
  intros Hv. unfold decimalText. destruct (Z.ltb_spec v 0); [lia | ].
  rewrite ofN_uint. apply uint_allDigits.
Qed.

Lemma colon_splits (a a' b b' : string) :
  allDigits a = true -> allDigits a' = true ->
  (a ++ ":" ++ b)%string = (a' ++ ":" ++ b')%string -> a = a' /\ b = b'.
Proof.
  revert a'. induction a as [ | c a IH]; intros [ | c' a'] Ha Ha' H.
  - cbn in H. injection H as H. now split.
  - cbn in H. injection H as Hc _. subst c'. cbn in Ha'. discriminate.
  - cbn in H. injection H as Hc _. subst c. cbn in Ha. discriminate.
  - cbn [String.append] in H. injection H as Hc H. subst c'.
    cbn [allDigits] in Ha, Ha'.
    apply andb_true_iff in Ha. apply andb_true_iff in Ha'.
    destruct (IH a' (proj2 Ha) (proj2 Ha') H) as [-> ->]. now split.
Qed.

Lemma padded_seconds_distinct :
  forallb
    (fun r => forallb
       (fun r' => implb (String.eqb (padStart 2 (decimalText (Z.of_nat r)))
                                    (padStart 2 (decimalText (Z.of_nat r'))))
                        (r =? r')%nat)
       (seq 0 60))
    (seq 0 60)
  = true.
Proof. vm_compute. reflexivity. Qed.

Lemma padded_seconds_length :
  forallb
    (fun r => (String.length (padStart 2 (decimalText (Z.of_nat r))) =? 2)%nat)
    (seq 0 60)
  = true.
Proof. vm_compute. reflexivity. Qed.

Lemma append_length (a b : string) :
  String.length (a ++ b)%string = String.length a + String.length b.
Proof.
  induction a as [ | c a IH]; cbn [String.append String.length];
    [reflexivity | now rewrite IH].
Qed.

(** The text of a clock has its seconds in two characters, and differs
    for different times. *)
Lemma clockText_distinct (s s' : Z) :
  (0 <= s)%Z -> (0 <= s')%Z ->
  String.length (clockText s) = String.length (decimalText (s / 60)) + 3
  /\ (clockText s = clockText s' -> s = s').
Proof.
  intros Hs Hs'. unfold clockText. cbn zeta.
  rewrite Z.rem_mod_nonneg by lia.
  assert (Hr : exists r, r < 60 /\ (s mod 60)%Z = Z.of_nat r).
  { exists (Z.to_nat (s mod 60)). pose proof (Z.mod_pos_bound s 60). lia. }
  destruct Hr as (r & Hr & Er). rewrite Er.
  split.
  - rewrite !append_length. cbn [String.length].
    pose proof padded_seconds_length as Hlen.
    rewrite forallb_forall in Hlen.
    specialize (Hlen r (proj2 (in_seq 60 0 r) ltac:(lia))).
    apply Nat.eqb_eq in Hlen. rewrite Hlen. lia.
  - rewrite (Z.rem_mod_nonneg s') by lia.
    assert (Hr' : exists r', r' < 60 /\ (s' mod 60)%Z = Z.of_nat r').
    { exists (Z.to_nat (s' mod 60)). pose proof (Z.mod_pos_bound s' 60). lia. }
    destruct Hr' as (r' & Hr' & Er'). rewrite Er'. intros H.
    apply colon_splits in H;
      [ | apply decimalText_allDigits, Z.div_pos; lia
        | apply decimalText_allDigits, Z.div_pos; lia ].
    destruct H as [Hm Hsec]. apply decimalText_injective in Hm.
    pose proof padded_seconds_distinct as Hd.
    rewrite forallb_forall in Hd.
    specialize (Hd r (proj2 (in_seq 60 0 r) ltac:(lia))).
    rewrite forallb_forall in Hd.
    specialize (Hd r' (proj2 (in_seq 60 0 r') ltac:(lia))).
    rewrite Hsec, String.eqb_refl in Hd. cbn [implb] in Hd.
    apply Nat.eqb_eq in Hd. subst r'.
    rewrite (Z.div_mod s 60), (Z.div_mod s' 60) by lia. lia.
Qed.

(** The minutes and the seconds of the minute of every whole number of
    seconds up to three hours, in binary64, and the decimal text of the
    whole numbers up to 180. *)
Lemma minutes_and_seconds_up_to_three_hours :
  forallb
    (fun s => PrimFloat.Leibniz.eqb (Math_floor (PrimFloat.div (ofZ s) 60)) (ofZ (s / 60))
              && PrimFloat.Leibniz.eqb (remainder (ofZ s) 60) (ofZ (s mod 60)))
    (upTo 10800)
  = true.
Proof. vm_compute. reflexivity. Qed.

Lemma Number_toString_up_to_180 :
  forallb (fun m => String.eqb (Number_toString (ofZ m)) (decimalText m)) (upTo 180) = true.
Proof. vm_compute. reflexivity. Qed.

Lemma formatTime_clockText (s : Z) :
  (0 <= s <= 10800)%Z -> formatTime (ofZ s) = clockText s.
Proof.
  intros Hs. unfold formatTime, clockText. cbn zeta.
  rewrite Z.rem_mod_nonneg by lia.
  pose proof minutes_and_seconds_up_to_three_hours as H.
  rewrite forallb_forall in H. specialize (H s (upTo_In _ _ Hs)).
  apply andb_true_iff in H. destruct H as [Hmins Hsecs].
  apply FloatAxioms.Leibniz.eqb_spec in Hmins.
  apply FloatAxioms.Leibniz.eqb_spec in Hsecs.
  rewrite Hmins, Hsecs.
  pose proof Number_toString_up_to_180 as Htext. rewrite forallb_forall in Htext.
  assert (Hm : (0 <= s / 60 <= 180)%Z).
  { split; [apply Z.div_pos; lia | apply Z.div_le_upper_bound; lia]. }
  assert (Hr : (0 <= s mod 60 <= 180)%Z).
  { pose proof (Z.mod_pos_bound s 60). lia. }
  pose proof (Htext _ (upTo_In _ _ Hm)) as H1.
  pose proof (Htext _ (upTo_In _ _ Hr)) as H2.
  apply String.eqb_eq in H1. apply String.eqb_eq in H2.
  now rewrite H1, H2.
Qed.

(** X21. For a whole number of seconds up to three hours, the range of
    the timer, [formatTime] shows the whole minutes in decimal, a colon and
    the seconds of the minute in exactly two characters, and two different
    times are never shown alike.  The bound matters: at 2^80 seconds the
    minutes are shown with an exponent. *)
Theorem format_time_shows_each_time_differently :
  (forall s : Z,
      (0 <= s <= 10800)%Z ->
      formatTime (ofZ s) = clockText s
      /\ String.length (formatTime (ofZ s)) = String.length (decimalText (s / 60)) + 3)
  /\ (forall s s' : Z,
         (0 <= s <= 10800)%Z -> (0 <= s' <= 10800)%Z ->
         formatTime (ofZ s) = formatTime (ofZ s') -> s = s')
  /\ formatTime (ofZ (2 ^ 80)) = "2.014876366024382e+22:16".
Proof.
  split; [ | split; [ | vm_compute; reflexivity]].
  - intros s Hs. rewrite (formatTime_clockText s Hs).
    split; [reflexivity | ].
    apply (proj1 (clockText_distinct s s ltac:(lia) ltac:(lia))).
  - intros s s' Hs Hs'.
    rewrite (formatTime_clockText s Hs), (formatTime_clockText s' Hs').
    apply (proj2 (clockText_distinct s s' ltac:(lia) ltac:(lia))).
Qed.

Lemma format_time_witness :
  formatTime (ofZ 125) = clockText 125
  /\ String.length (formatTime (ofZ 125)) = String.length (decimalText (125 / 60)) + 3.
Proof.
  apply (proj1 format_time_shows_each_time_differently 125%Z). lia.
Defined.

(* ================================================================== *)
(** ** ViewerDashboard: the answers *)

Lemma ownProperty_Some_In {A : Type} (o : OwnProperties A) (k : string) (v : A) :
  ownProperty o k = Some v -> In (k, v) o.
Proof.
  induction o as [ | [k' x] o IH]; cbn [ownProperty]; [discriminate | ].
  destruct (String.eqb_spec k' k) as [-> | Hne].
  - intros H. injection H as <-. now left.
  - intros H. right. now apply IH.
Qed.

Lemma ownProperty_In {A : Type} (o : OwnProperties A) (k : string) (v : A) :
  NoDup (map fst o) -> In (k, v) o -> ownProperty o k = Some v.
Proof.
  induction o as [ | [k' x] o IH]; cbn [ownProperty map fst]; [intros _ [] | ].
  intros Hnd [Heq | Hin].
  - injection Heq as -> ->. now rewrite String.eqb_refl.
  - inversion Hnd as [ | ? ? Hout Hnd']; subst.
    destruct (String.eqb_spec k' k) as [-> | Hne].
    + exfalso. apply Hout. now apply (in_map fst) in Hin.
    + now apply IH.
Qed.

Lemma ownProperty_perm {A : Type} (o o' : OwnProperties A) (k : string) :
  NoDup (map fst o) -> Permutation o o' -> ownProperty o' k = ownProperty o k.
Proof.
  intros Hnd Hperm.
  assert (Hnd' : NoDup (map fst o')).
  { apply (Permutation_NoDup (Permutation_map fst Hperm) Hnd). }
  destruct (ownProperty o k) as [v | ] eqn:E.
  - apply ownProperty_In; [exact Hnd' | ].
    apply (Permutation_in _ Hperm). now apply ownProperty_Some_In.
  - destruct (ownProperty o' k) as [v' | ] eqn:E'; [ | reflexivity].
    apply ownProperty_Some_In in E'.
    apply (Permutation_in _ (Permutation_sym Hperm)) in E'.
    apply (ownProperty_In _ _ _ Hnd) in E'. congruence.
Qed.

Lemma setOwn_keys_NoDup {A : Type} (o : OwnProperties A) (k : string) (v : A) :
  NoDup (map fst o) -> NoDup (map fst (setOwn o k v)).
Proof.
  intros Hnd. destruct (ownProperty o k) as [x | ] eqn:E.
  - now rewrite (setOwn_keys_present _ _ _ _ E).
  - rewrite (setOwn_keys_absent _ _ _ E).
    apply (Permutation_NoDup (Permutation_cons_append _ _)).
    constructor; [ | exact Hnd].
    intros Hin. apply (proj1 (ownProperty_keys _ _)) in Hin.
    destruct Hin as [x Hx]. congruence.
Qed.

Lemma withAnswer_keys_NoDup (answers : OwnProperties JsVal) (k : string) (v : JsVal) :
  NoDup (map fst answers) -> NoDup (map fst (withAnswer answers k v)).
Proof.
  intros Hnd. apply setOwn_keys_NoDup.
  apply (Permutation_NoDup
           (Permutation_map fst (Permutation_sym (objectEntries_perm answers))) Hnd).
Qed.

Lemma getValue_withAnswer (answers : OwnProperties JsVal) (k k' : string) (v : JsVal) :
  NoDup (map fst answers) ->
  getValue (withAnswer answers k v) k'
  = if String.eqb k k' then v else getValue answers k'.
Proof.
  intros Hnd. unfold getValue, getProperty, withAnswer.
  rewrite ownProperty_setOwn.
  destruct (String.eqb k k'); [reflexivity | ].
  now rewrite (ownProperty_perm answers (objectEntries answers) k' Hnd
                 (Permutation_sym (objectEntries_perm answers))).
Qed.

(** X22. Writing an answer with [{...answers, [q.id]: value}] makes it
    the answer read for that question, whatever was there and even when the
    id names a member of [Object.prototype], and changes the answer read
    for no other question; so the option a viewer picks for a
    multiple-choice question is graded correct exactly when it is the
    expected text. *)
Theorem written_answer_is_the_answer_read :
  forall (answers : OwnProperties JsVal) (q : Question) (value : JsVal),
    NoDup (map fst answers) ->
    getValue (withAnswer answers (id q) value) (id q) = value
    /\ (forall key, key <> id q ->
          getValue (withAnswer answers (id q) value) key = getValue answers key)
    /\ NoDup (map fst (withAnswer answers (id q) value))
    /\ (forall opt expected,
          type q = "multiple_choice" -> correctAnswer q = Some expected ->
          opt <> "" ->
          checkAnswer q (getValue (withAnswer answers (id q) (VString opt)) (id q))
          = String.eqb opt expected).
Proof.
  intros answers q value Hnd. repeat split.
  - rewrite (getValue_withAnswer _ _ _ _ Hnd). now rewrite String.eqb_refl.
  - intros key Hkey. rewrite (getValue_withAnswer _ _ _ _ Hnd).
    destruct (String.eqb_spec (id q) key) as [Heq | Hne]; [congruence | reflexivity].
  - now apply withAnswer_keys_NoDup.
  - intros opt expected Htype Hcorrect Hopt.
    rewrite (getValue_withAnswer _ _ _ _ Hnd), String.eqb_refl.
    unfold checkAnswer. rewrite Hcorrect, Htype.
    cbn [ToBoolean]. fold (truthy opt). rewrite (truthy_true _ Hopt). cbn [negb].
    destruct (truthy expected) eqn:Et; cbn [negb].
    + reflexivity.
    + unfold truthy in Et. apply negb_false_iff, String.eqb_eq in Et. subst expected.
      symmetry. now apply String.eqb_neq.
Qed.

Lemma written_answer_witness :
  getValue (withAnswer [("q1", VString "Rome")] (id cityQuestion) (VString "Paris"))
    (id cityQuestion) = VString "Paris".
Proof.
  apply (proj1 (written_answer_is_the_answer_read
                  [("q1", VString "Rome")] cityQuestion (VString "Paris")
                  ltac:(repeat constructor; intros []))).
Defined.












(* ================================================================== *)
(** ** FormBuilder: undo and redo *)

Section HistoryProperties.

Context {T : Type}.

Lemma undone_snoc (h : FormBuilder.History T) (l : list T) (x : T) :
  FormBuilder.past h = l ++ [x] ->
  undone h
  = {| FormBuilder.past := l; FormBuilder.present := x;
       FormBuilder.future := FormBuilder.present h :: FormBuilder.future h |}.
Proof.
  intros Hp. unfold undone, FormBuilder.undo. rewrite Hp, length_app.
  cbn [List.length]. rewrite Nat.add_1_r. cbn [Nat.eqb Nat.sub].
  rewrite Nat.sub_0_r, nth_error_app2, Nat.sub_diag by lia. cbn [nth_error].
  now rewrite firstn_app, Nat.sub_diag, firstn_all, app_nil_r.
Qed.

Lemma undone_empty (h : FormBuilder.History T) :
  FormBuilder.past h = [] -> undone h = h.
Proof.
  intros Hp. unfold undone, FormBuilder.undo. now rewrite Hp.
Qed.

Lemma canUndo_snoc (h : FormBuilder.History T) :
  FormBuilder.canUndo h = true ->
  exists l x, FormBuilder.past h = l ++ [x].
Proof.
  unfold FormBuilder.canUndo. intros H. apply Nat.ltb_lt in H.
  destruct (FormBuilder.past h) as [ | a l] eqn:E using rev_ind;
    [cbn in H; lia | ].
  now exists l, a.
Qed.

Lemma timeline_undone (h : FormBuilder.History T) : timeline (undone h) = timeline h.
Proof.
  destruct (FormBuilder.canUndo h) eqn:E.
  - destruct (canUndo_snoc h E) as (l & x & Hp).
    rewrite (undone_snoc h l x Hp). unfold timeline.
    cbn [FormBuilder.past FormBuilder.present FormBuilder.future].
    now rewrite Hp, <- app_assoc.
  - rewrite undone_empty; [reflexivity | ].
    unfold FormBuilder.canUndo in E. apply Nat.ltb_ge in E.
    destruct (FormBuilder.past h); [reflexivity | cbn in E; lia].
Qed.

Lemma timeline_redone (h : FormBuilder.History T) : timeline (redone h) = timeline h.
Proof.
  unfold redone, FormBuilder.redo.
  destruct (FormBuilder.future h) as [ | next newFuture] eqn:Hf; [reflexivity | ].
  unfold timeline. cbn [FormBuilder.past FormBuilder.present FormBuilder.future].
  now rewrite Hf, <- app_assoc.
Qed.

Lemma history_eta (h : FormBuilder.History T) :
  h = {| FormBuilder.past := FormBuilder.past h;
         FormBuilder.present := FormBuilder.present h;
         FormBuilder.future := FormBuilder.future h |}.
Proof. now destruct h. Qed.

Lemma past_undone (h : FormBuilder.History T) :
  FormBuilder.past (undone h)
  = firstn (List.length (FormBuilder.past h) - 1) (FormBuilder.past h).
Proof.
  destruct (FormBuilder.canUndo h) eqn:E.
  - destruct (canUndo_snoc h E) as (l & x & Hp).
    rewrite (undone_snoc h l x Hp), Hp, length_app. cbn [FormBuilder.past List.length].
    rewrite Nat.add_1_r. cbn [Nat.sub]. rewrite Nat.sub_0_r.
    now rewrite firstn_app, Nat.sub_diag, firstn_all, app_nil_r.
  - unfold FormBuilder.canUndo in E. apply Nat.ltb_ge in E.
    destruct (FormBuilder.past h) eqn:Hp; [ | cbn in E; lia].
    now rewrite (undone_empty h Hp), Hp.
Qed.

Lemma past_undone_iter (n : nat) (h : FormBuilder.History T) :
  FormBuilder.past (Nat.iter n undone h)
  = firstn (List.length (FormBuilder.past h) - n) (FormBuilder.past h).
Proof.
  induction n as [ | n IH].
  - change (Nat.iter 0 undone h) with h. now rewrite Nat.sub_0_r, firstn_all.
  - rewrite Nat.iter_succ, past_undone, IH, length_firstn, firstn_firstn.
    f_equal. lia.
Qed.

Lemma timeline_undone_iter (n : nat) (h : FormBuilder.History T) :
  timeline (Nat.iter n undone h) = timeline h.
Proof.
  induction n as [ | n IH]; [reflexivity | ].
  now rewrite Nat.iter_succ, timeline_undone.
Qed.

Lemma edits_snoc (us : list (FormBuilder.NewState T)) (u : FormBuilder.NewState T)
  (h : FormBuilder.History T) :
  edits (us ++ [u]) h = edit u (edits us h).
Proof.
  unfold edits. now rewrite fold_left_app.
Qed.

Lemma past_edits (us : list (FormBuilder.NewState T)) (h : FormBuilder.History T) :
  exists l,
    FormBuilder.past (edits us h) = FormBuilder.past h ++ l
    /\ List.length l = List.length us
    /\ (us <> [] -> exists l', l = FormBuilder.present h :: l').
Proof.
  induction us as [ | u us IH] using rev_ind.
  - exists []. cbn. rewrite app_nil_r. repeat split. intros H. contradiction.
  - destruct IH as (l & Hp & Hl & Hfirst). rewrite edits_snoc.
    exists (l ++ [FormBuilder.present (edits us h)]).
    unfold edit, FormBuilder.set. cbn [FormBuilder.past].
    rewrite Hp, <- app_assoc, !length_app, Hl. cbn [List.length].
    split; [reflexivity | ]. split; [reflexivity | ]. intros _.
    destruct us as [ | u' us'].
    + destruct l; [ | discriminate]. now exists [].
    + destruct (Hfirst ltac:(discriminate)) as [l' ->].
      now exists (l' ++ [FormBuilder.present (edits (u' :: us') h)]).
Qed.

End HistoryProperties.

(** X25. Undo and redo are inverse to each other wherever they apply:
    redo after an undo, and undo after a redo, give the history back; both
    move along one unchanged sequence of states; and each does nothing at
    its end of the history. *)
Theorem undo_and_redo_are_inverse :
  forall (T : Type) (h : FormBuilder.History T),
    (FormBuilder.canUndo h = true -> redone (undone h) = h)
    /\ (FormBuilder.canRedo h = true -> undone (redone h) = h)
    /\ timeline (undone h) = timeline h
    /\ timeline (redone h) = timeline h
    /\ (FormBuilder.canUndo h = false -> undone h = h)
    /\ (FormBuilder.canRedo h = false -> redone h = h).
Proof.
  intros T h.
  split; [ | split; [ | split; [ | split; [ | split]]]].
  - intros E. destruct (canUndo_snoc h E) as (l & x & Hp).
    rewrite (undone_snoc h l x Hp). unfold redone, FormBuilder.redo.
    cbn [FormBuilder.past FormBuilder.present FormBuilder.future].
    rewrite <- Hp. symmetry. apply history_eta.
  - intros E. unfold FormBuilder.canRedo in E. apply Nat.ltb_lt in E.
    destruct (FormBuilder.future h) as [ | next newFuture] eqn:Hf; [cbn in E; lia | ].
    assert (Hr : redone h
                 = {| FormBuilder.past := FormBuilder.past h ++ [FormBuilder.present h];
                      FormBuilder.present := next;
                      FormBuilder.future := newFuture |}).
    { unfold redone, FormBuilder.redo. now rewrite Hf. }
    rewrite Hr.
    rewrite (undone_snoc
               {| FormBuilder.past := FormBuilder.past h ++ [FormBuilder.present h];
                  FormBuilder.present := next;
                  FormBuilder.future := newFuture |}
               (FormBuilder.past h) (FormBuilder.present h) eq_refl).
    cbn [FormBuilder.present FormBuilder.future]. rewrite <- Hf.
    symmetry. apply history_eta.
  - apply timeline_undone.
  - apply timeline_redone.
  - intros E. apply undone_empty.
    unfold FormBuilder.canUndo in E. apply Nat.ltb_ge in E.
    destruct (FormBuilder.past h); [reflexivity | cbn in E; lia].
  - intros E. unfold redone, FormBuilder.redo.
    unfold FormBuilder.canRedo in E. apply Nat.ltb_ge in E.
    destruct (FormBuilder.future h); [reflexivity | cbn in E; lia].
Qed.

Lemma undo_redo_witness :
  redone (undone {| FormBuilder.past := ["a"; "b"]; FormBuilder.present := "c";
                    FormBuilder.future := ["d"] |})
  = {| FormBuilder.past := ["a"; "b"]; FormBuilder.present := "c";
       FormBuilder.future := ["d"] |}.
Proof.
  apply (proj1 (undo_and_redo_are_inverse string
                  {| FormBuilder.past := ["a"; "b"]; FormBuilder.present := "c";
                     FormBuilder.future := ["d"] |})).
  reflexivity.
Defined.

(** X26. An edit records the state it replaces and discards what could
    be redone; undoing it restores that state and makes the edit redoable;
    and after any number of edits, as many undos restore the state and the
    past from before the first of them. *)
Theorem edits_are_undone_one_by_one :
  forall (T : Type) (h : FormBuilder.History T),
    (forall u,
        FormBuilder.past (edit u h) = FormBuilder.past h ++ [FormBuilder.present h]
        /\ FormBuilder.future (edit u h) = []
        /\ FormBuilder.canUndo (edit u h) = true
        /\ FormBuilder.present (undone (edit u h)) = FormBuilder.present h
        /\ FormBuilder.past (undone (edit u h)) = FormBuilder.past h
        /\ redone (undone (edit u h)) = edit u h)
    /\ (forall us,
           FormBuilder.present (Nat.iter (List.length us) undone (edits us h))
           = FormBuilder.present h
           /\ FormBuilder.past (Nat.iter (List.length us) undone (edits us h))
              = FormBuilder.past h).
Proof.
  intros T h. split.
  - intros u.
    assert (Hu : undone (edit u h)
                 = {| FormBuilder.past := FormBuilder.past h;
                      FormBuilder.present := FormBuilder.present h;
                      FormBuilder.future := [FormBuilder.present (edit u h)] |}).
    { apply undone_snoc. reflexivity. }
    split; [reflexivity | ]. split; [reflexivity | ]. split.
    { unfold FormBuilder.canUndo, edit, FormBuilder.set. cbn [FormBuilder.past].
      rewrite length_app. cbn [List.length]. apply Nat.ltb_lt. lia. }
    rewrite Hu. split; [reflexivity | ]. split; [reflexivity | ].
    unfold redone, FormBuilder.redo.
    cbn [FormBuilder.past FormBuilder.present FormBuilder.future].
    rewrite (history_eta (edit u h)) at 2. reflexivity.
  - intros us.
    assert (Hpast : FormBuilder.past (Nat.iter (List.length us) undone (edits us h))
                    = FormBuilder.past h).
    { rewrite past_undone_iter. destruct (past_edits us h) as (l & Hp & Hl & _).
      rewrite Hp, length_app, Hl.
      replace (List.length (FormBuilder.past h) + List.length us - List.length us)
        with (List.length (FormBuilder.past h)) by lia.
      now rewrite firstn_app, Nat.sub_diag, firstn_all, app_nil_r. }
    split; [ | exact Hpast].
    destruct us as [ | u us]; [reflexivity | ].
    pose proof (timeline_undone_iter (List.length (u :: us)) (edits (u :: us) h)) as Ht.
    unfold timeline in Ht at 1. rewrite Hpast in Ht.
    destruct (past_edits (u :: us) h) as (l & Hp & _ & Hfirst).
    destruct (Hfirst ltac:(discriminate)) as [l' ->].
    unfold timeline in Ht. rewrite Hp, <- app_assoc in Ht.
    apply app_inv_head in Ht. cbn [app] in Ht. now injection Ht.
Qed.

(* ================================================================== *)
(** ** FormBuilder: the question list *)

Lemma formState_eta (s : FormBuilder.FormState) :
  s = {| FormBuilder.title := FormBuilder.title s;
         FormBuilder.description := FormBuilder.description s;
         FormBuilder.questions := FormBuilder.questions s |}.
Proof. now destruct s. Qed.

Lemma filter_other_ids (qid : string) (qs : list Question) :
  ~ In qid (map id qs) ->
  filter (fun q => negb (String.eqb (id q) qid)) qs = qs.
Proof.
  induction qs as [ | q qs IH]; cbn [map In filter]; [reflexivity | ].
  intros H. destruct (String.eqb_spec (id q) qid) as [Heq | Hne]; cbn [negb].
  - exfalso. apply H. now left.
  - f_equal. apply IH. intros Hin. apply H. now right.
Qed.

Lemma map_other_ids (qid : string) (f : Question -> Question) (qs : list Question) :
  ~ In qid (map id qs) ->
  map (fun q => if String.eqb (id q) qid then f q else q) qs = qs.
Proof.
  induction qs as [ | q qs IH]; cbn [map In]; [reflexivity | ].
  intros H. destruct (String.eqb_spec (id q) qid) as [Heq | Hne].
  - exfalso. apply H. now left.
  - f_equal. apply IH. intros Hin. apply H. now right.
Qed.

(** X27. Edits of the question list touch the named question only:
    removing a question that was just added, its id being new, gives the
    form back; removal keeps exactly the questions with another id, in
    their order; an update that carries no id keeps the ids and their
    order, and keeps every question with another id as it is; an id that
    no question has makes update and removal change nothing. *)
Theorem question_edits_touch_the_named_question_only :
  forall (s : FormBuilder.FormState) (qid : string),
    (~ In qid (map id (FormBuilder.questions s)) ->
     FormBuilder.removeQuestion qid (FormBuilder.addQuestion qid s) = s
     /\ FormBuilder.removeQuestion qid s = s
     /\ forall updates, FormBuilder.updateQuestion qid updates s = s)
    /\ (forall q, In q (FormBuilder.questions (FormBuilder.removeQuestion qid s))
                  <-> In q (FormBuilder.questions s) /\ id q <> qid)
    /\ Subsequence (FormBuilder.questions (FormBuilder.removeQuestion qid s))
                   (FormBuilder.questions s)
    /\ (forall updates,
          FormBuilder.newId updates = None ->
          map id (FormBuilder.questions (FormBuilder.updateQuestion qid updates s))
          = map id (FormBuilder.questions s))
    /\ (forall updates q,
          In q (FormBuilder.questions s) -> id q <> qid ->
          In q (FormBuilder.questions (FormBuilder.updateQuestion qid updates s))).
Proof.
  intros s qid. split; [ | split; [ | split; [ | split]]].
  - intros Hnew. split; [ | split].
    + unfold FormBuilder.removeQuestion, FormBuilder.addQuestion.
      cbn [FormBuilder.title FormBuilder.description FormBuilder.questions].
      rewrite filter_app, (filter_other_ids qid _ Hnew). cbn [filter id].
      rewrite String.eqb_refl. cbn [negb]. rewrite app_nil_r.
      symmetry. apply formState_eta.
    + unfold FormBuilder.removeQuestion. rewrite (filter_other_ids qid _ Hnew).
      symmetry. apply formState_eta.
    + intros updates. unfold FormBuilder.updateQuestion.
      rewrite (map_other_ids qid _ _ Hnew). symmetry. apply formState_eta.
  - intros q. unfold FormBuilder.removeQuestion. cbn [FormBuilder.questions].
    rewrite filter_In, negb_true_iff, String.eqb_neq. reflexivity.
  - apply filter_Subsequence.
  - intros updates Hid. unfold FormBuilder.updateQuestion. cbn [FormBuilder.questions].
    rewrite map_map. apply map_ext. intros q.
    destruct (String.eqb (id q) qid); [ | reflexivity].
    unfold FormBuilder.merged. cbn [id]. now rewrite Hid.
  - intros updates q Hin Hne. unfold FormBuilder.updateQuestion.
    cbn [FormBuilder.questions]. apply in_map_iff. exists q. split; [ | exact Hin].
    now rewrite (proj2 (String.eqb_neq (id q) qid) Hne).
Qed.

Lemma question_edits_witness :
  FormBuilder.removeQuestion "k3x9" (FormBuilder.addQuestion "k3x9" cityState) = cityState
  /\ FormBuilder.removeQuestion "k3x9" cityState = cityState
  /\ forall updates, FormBuilder.updateQuestion "k3x9" updates cityState = cityState.
Proof.
  apply (proj1 (question_edits_touch_the_named_question_only cityState "k3x9")).
  cbn. intuition discriminate.
Defined.

Lemma withoutIndex_before {A : Type} (l : list A) :
  forall (k t : nat),
    t < k ->
    map snd (filter (fun p => negb (fst p =? t)%nat)
               (combine (seq k (List.length l)) l))
    = l.
Proof.
  induction l as [ | x l IH]; intros k t Ht; cbn [List.length seq combine filter map];
    [reflexivity | ].
  cbn [fst]. destruct (Nat.eqb_spec k t) as [Heq | Hne]; [lia | ].
  cbn [negb map snd]. f_equal. apply IH. lia.
Qed.

Lemma withoutIndex_from {A : Type} (l : list A) :
  forall (k i : nat),
    map snd (filter (fun p => negb (fst p =? k + i)%nat)
               (combine (seq k (List.length l)) l))
    = firstn i l ++ skipn (S i) l.
Proof.
  induction l as [ | x l IH]; intros k i; cbn [List.length seq combine filter map].
  - now destruct i.
  - cbn [fst]. destruct i as [ | i].
    + rewrite Nat.add_0_r, Nat.eqb_refl. cbn [negb firstn skipn app].
      apply withoutIndex_before. lia.
    + destruct (Nat.eqb_spec k (k + S i)) as [Heq | Hne]; [lia | ].
      cbn [negb map snd firstn skipn app]. f_equal.
      replace (k + S i) with (S k + i) by lia. apply IH.
Qed.

Lemma withoutIndex_split {A : Type} (i : nat) (l : list A) :
  FormBuilder.withoutIndex i l = firstn i l ++ skipn (S i) l.
Proof.
  unfold FormBuilder.withoutIndex. apply (withoutIndex_from l 0 i).
Qed.

Lemma grownOptions_succ (n : nat) :
  grownOptions (S n) = grownOptions n ++ [FormBuilder.optionLabel (grownOptions n)].
Proof. reflexivity. Qed.

Lemma grownOptions_length (n : nat) : List.length (grownOptions n) = S n.
Proof.
  induction n as [ | n IH]; [reflexivity | ].
  rewrite grownOptions_succ, length_app, IH. cbn [List.length]. lia.
Qed.

Lemma find_by_id (qs : list Question) (q : Question) :
  NoDup (map id qs) -> In q qs ->
  find (fun q' => String.eqb (id q') (id q)) qs = Some q.
Proof.
  induction qs as [ | q' qs IH]; cbn [map In find]; [intros _ [] | ].
  intros Hnd [Heq | Hin].
  - subst q'. now rewrite String.eqb_refl.
  - inversion Hnd as [ | ? ? Hout Hnd']; subst.
    destruct (String.eqb_spec (id q') (id q)) as [Heq | Hne].
    + exfalso. apply Hout. rewrite Heq. now apply in_map.
    + now apply IH.
Qed.

Lemma find_unknown_id (qs : list Question) (qId : string) :
  ~ In qId (map id qs) -> find (fun q' => String.eqb (id q') qId) qs = None.
Proof.
  induction qs as [ | q' qs IH]; cbn [map In find]; [reflexivity | ].
  intros H. destruct (String.eqb_spec (id q') qId) as [Heq | Hne].
  - exfalso. apply H. now left.
  - apply IH. intros Hin. apply H. now right.
Qed.

(** X28. In a form with distinct question ids, "add option" gives the
    named question its options followed by one new label and leaves its
    other fields and the other questions as they are; it does nothing for
    an id that no question has; removing the option just added gives the
    options back.  The new label counts the options, so it can repeat one:
    after [n] added options and the removal of any option but the last,
    the next label is already among the options. *)
Theorem add_option_appends_one_label :
  forall (s : FormBuilder.FormState),
    (forall q,
        NoDup (map id (FormBuilder.questions s)) ->
        In q (FormBuilder.questions s) ->
        exists update,
          FormBuilder.addOption (id q) s = Some update
          /\ In (FormBuilder.merged q
                   (FormBuilder.onlyOptions
                      (options q ++ [FormBuilder.optionLabel (options q)])))
                (FormBuilder.questions (update s))
          /\ map id (FormBuilder.questions (update s)) = map id (FormBuilder.questions s)
          /\ (forall q', In q' (FormBuilder.questions s) -> id q' <> id q ->
                In q' (FormBuilder.questions (update s))))
    /\ (forall qId, ~ In qId (map id (FormBuilder.questions s)) ->
                    FormBuilder.addOption qId s = None)
    /\ (forall opts : list string,
          FormBuilder.withoutIndex (List.length opts)
            (opts ++ [FormBuilder.optionLabel opts]) = opts)
    /\ (forall n i,
          i < n ->
          In (FormBuilder.optionLabel (FormBuilder.withoutIndex i (grownOptions n)))
             (FormBuilder.withoutIndex i (grownOptions n))).
Proof.
  intros s. split; [ | split; [ | split]].
  - intros q Hnd Hin. unfold FormBuilder.addOption.
    rewrite (find_by_id _ _ Hnd Hin). eexists. split; [reflexivity | ].
    unfold FormBuilder.updateQuestion. cbn [FormBuilder.questions].
    split; [ | split].
    + apply in_map_iff. exists q. split; [ | exact Hin].
      now rewrite String.eqb_refl.
    + rewrite map_map. apply map_ext. intros q'.
      now destruct (String.eqb (id q') (id q)).
    + intros q' Hin' Hne. apply in_map_iff. exists q'. split; [ | exact Hin'].
      now rewrite (proj2 (String.eqb_neq (id q') (id q)) Hne).
  - intros qId Hout. unfold FormBuilder.addOption.
    now rewrite (find_unknown_id _ _ Hout).
  - intros opts. rewrite withoutIndex_split.
    rewrite firstn_app, Nat.sub_diag, firstn_all. cbn [firstn].
    rewrite app_nil_r, skipn_all2; [now rewrite app_nil_r | ].
    rewrite length_app. cbn [List.length]. lia.
  - intros n i Hi. destruct n as [ | n]; [lia | ].
    assert (Hlen : List.length (FormBuilder.withoutIndex i (grownOptions (S n))) = S n).
    { rewrite withoutIndex_split, length_app, length_firstn, length_skipn.
      rewrite grownOptions_length. lia. }
    assert (Hlabel : FormBuilder.optionLabel
                       (FormBuilder.withoutIndex i (grownOptions (S n)))
                     = FormBuilder.optionLabel (grownOptions n)).
    { unfold FormBuilder.optionLabel. now rewrite Hlen, grownOptions_length. }
    rewrite Hlabel, withoutIndex_split, grownOptions_succ.
    apply in_or_app. right.
    rewrite skipn_app. apply in_or_app. right.
    rewrite grownOptions_length.
    replace (S i - S n) with 0 by lia. now left.
Qed.

Lemma add_option_witness :
  exists update,
    FormBuilder.addOption (id cityQuestion) cityState = Some update
    /\ In (FormBuilder.merged cityQuestion
             (FormBuilder.onlyOptions
                (options cityQuestion ++ [FormBuilder.optionLabel (options cityQuestion)])))
          (FormBuilder.questions (update cityState))
    /\ map id (FormBuilder.questions (update cityState))
       = map id (FormBuilder.questions cityState)
    /\ (forall q', In q' (FormBuilder.questions cityState) -> id q' <> id cityQuestion ->
          In q' (FormBuilder.questions (update cityState))).
Proof.
  apply (proj1 (add_option_appends_one_label cityState) cityQuestion).
  - cbn. repeat constructor; cbn; intuition discriminate.
  - left. reflexivity.
Defined.

(* ================================================================== *)
(** ** The flag of a listed answer *)

(** X29. The flag the question breakdown shows beside a listed answer
    agrees with the grading: a multiple-choice answer, a checkbox
    selection of texts, and a short answer that normalizes to its trimmed,
    lowercased text are graded correct exactly when one of the keys they
    add to the table is flagged. *)
Theorem listed_answer_flag_agrees_with_grading :
  forall (q : Question),
    (type q = "multiple_choice" ->
     forall answer : string,
       checkAnswer q (VString answer)
       = existsb (listedAnswerIsCorrect q) (countedKeys q (VString answer)))
    /\ (type q = "checkbox" ->
        forall opts : list string,
          checkAnswer q (VArray (map VString opts))
          = existsb (listedAnswerIsCorrect q) (countedKeys q (VArray (map VString opts))))
    /\ (type q = "short_answer" ->
        forall answer : string,
          answer <> "" ->
          normalizeToNumberOrString (VString answer) = Str (toLowerCase (trim answer)) ->
          checkAnswer q (VString answer)
          = existsb (listedAnswerIsCorrect q) (countedKeys q (VString answer))).
Proof.
  intros q. split; [ | split].
  - intros Hty answer. unfold checkAnswer, countedKeys, answersToCount, listedAnswerIsCorrect.
    cbn [ToBoolean ToString]. fold (truthy answer).
    destruct (truthy answer) eqn:Ea; cbn [negb map existsb]; [ | reflexivity].
    unfold countingKey. rewrite Hty.
    change (String.eqb "multiple_choice" "short_answer") with false.
    change (String.eqb "multiple_choice" "multiple_choice") with true. cbn iota.
    destruct (correctAnswer q) as [expected | ]; [ | reflexivity].
    rewrite orb_false_r. cbn [strictEqualsString].
    now destruct (truthy expected).
  - intros Hty opts. unfold checkAnswer, countedKeys, answersToCount, listedAnswerIsCorrect.
    cbn [ToBoolean negb]. rewrite Hty.
    change (String.eqb "checkbox" "short_answer") with false.
    change (String.eqb "checkbox" "multiple_choice") with false.
    change (String.eqb "checkbox" "checkbox") with true. cbn iota.
    rewrite !map_map. unfold countingKey. rewrite Hty.
    change (String.eqb "checkbox" "short_answer") with false. cbn iota.
    destruct (correctAnswer q) as [expected | ].
    + destruct (truthy expected); cbn [negb andb].
      * unfold arrayIncludes.
        induction opts as [ | o opts IH]; cbn [map existsb]; [reflexivity | ].
        rewrite IH. reflexivity.
      * induction opts as [ | o opts IH]; [reflexivity | exact IH].
    + induction opts as [ | o opts IH]; [reflexivity | exact IH].
  - intros Hty answer Hne Hnorm.
    unfold checkAnswer, countedKeys, answersToCount, listedAnswerIsCorrect.
    cbn [ToBoolean ToString]. fold (truthy answer).
    rewrite (truthy_true _ Hne). cbn [negb map existsb].
    unfold countingKey. rewrite Hty.
    change (String.eqb "short_answer" "short_answer") with true. cbn iota.
    rewrite Hnorm. cbn [toStr].
    rewrite (normalize_by_text (toLowerCase (trim answer)) answer
               (prepared_text_is_fixed answer)), Hnorm.
    destruct (correctAnswer q) as [expected | ]; [ | reflexivity].
    rewrite orb_false_r. now destruct (truthy expected).
Qed.

Lemma listed_answer_flag_witness :
  checkAnswer cityQuestion (VString "Rome")
  = existsb (listedAnswerIsCorrect cityQuestion) (countedKeys cityQuestion (VString "Rome")).
Proof.
  apply (proj1 (listed_answer_flag_agrees_with_grading cityQuestion)).
  reflexivity.
Defined.

(* ================================================================== *)
(** ** The colour of a score *)

Lemma score_colours_up_to_100_points :
  forallb
    (fun t =>
       forallb
         (fun s =>
            String.eqb
              (getScoreColor (responsePercentage {| score := s; total := t |}))
              (colourOfPoints {| score := s; total := t |}))
         (seq 0 (S t)))
    (seq 1 100)
  = true.
Proof. vm_compute. reflexivity. Qed.

(** X30. Up to 100 gradable questions, the score of a response is shown
    green when the points reach 79.5 percent of the total, and otherwise
    yellow exactly when the response counts as passing in the analytics,
    red when it does not.  The bound matters: with 50 points of 101 the
    rounded percentage is 50 and the score is shown yellow, while the
    response does not pass. *)
Theorem score_colour_follows_passing :
  (forall s t : nat,
      0 < t -> t <= 100 -> s <= t ->
      getScoreColor (responsePercentage {| score := s; total := t |})
      = colourOfPoints {| score := s; total := t |})
  /\ getScoreColor (responsePercentage {| score := 50; total := 101 |})
     = "text-yellow-400"
  /\ passes {| score := 50; total := 101 |} = false.
Proof.
  split; [ | split; vm_compute; reflexivity].
  intros s t Ht Ht' Hs.
  pose proof score_colours_up_to_100_points as H.
  rewrite forallb_forall in H.
  specialize (H t (proj2 (in_seq 100 1 t) ltac:(lia))).
  rewrite forallb_forall in H.
  specialize (H s (proj2 (in_seq (S t) 0 s) ltac:(lia))).
  now apply String.eqb_eq in H.
Qed.

Lemma score_colour_witness :
  getScoreColor (responsePercentage {| score := 4; total := 5 |})
  = colourOfPoints {| score := 4; total := 5 |}.
Proof.
  apply (proj1 score_colour_follows_passing); lia.
Defined.
